(** * localsafe.eth: the Safe transaction details page and the WalletConnect
      signing page, embedded and verified.

    The development follows the two client components that carry the
    transaction lifecycle logic:

    - [TxDetailsClient] (EIP-712 hashes of a Safe transaction, signing state,
      broadcast, export, share links, manual signature entry);
    - [WalletConnectSignClient] (EIP-712 hashes of a SafeMessage).

    Library code the components call is modelled next to them: Keccak-256 and
    the parts of ethers v6 ([hashMessage], [getAddress], [TypedDataEncoder])
    that the components reach with their fixed type tables, and the
    [EthSafeTransaction] / [EthSafeSignature] classes of the Safe protocol kit.

    Strings are sequences of 8-bit code units ([string]); the inputs that
    matter here (hex addresses, hex data, decimal numbers, version strings)
    are ASCII.  The hashing functions work on byte lists; the components hold
    their results as the "0x"-prefixed hex strings that ethers returns. *)

From Stdlib Require Import List String Ascii NArith ZArith Bool Lia Arith.
From Stdlib Require Import Strings.Byte.
From Stdlib Require Import DecimalString DecimalZ.
Import ListNotations.

Local Open Scope string_scope.
Local Open Scope list_scope.

(* ================================================================== *)
(** ** Keccak-256 *)
(* ================================================================== *)

Module Keccak.

Local Open Scope N_scope.

Definition lane_mask : N := 0xFFFFFFFFFFFFFFFF.

(** 64-bit left rotation. *)
Definition rotl64 (x n : N) : N :=
  if n =? 0 then x
  else N.lor (N.land (N.shiftl x n) lane_mask) (N.shiftr x (64 - n)).

Definition round_constants : list N :=
  [ 0x0000000000000001; 0x0000000000008082; 0x800000000000808A;
    0x8000000080008000; 0x000000000000808B; 0x0000000080000001;
    0x8000000080008081; 0x8000000000008009; 0x000000000000008A;
    0x0000000000000088; 0x0000000080008009; 0x000000008000000A;
    0x000000008000808B; 0x800000000000008B; 0x8000000000008089;
    0x8000000000008003; 0x8000000000008002; 0x8000000000000080;
    0x000000000000800A; 0x800000008000000A; 0x8000000080008081;
    0x8000000000008080; 0x0000000080000001; 0x8000000080008008 ].

(** Rotation offsets, indexed by [x + 5 * y]. *)
Definition rotation_offsets : list N :=
  [  0;  1; 62; 28; 27;
    36; 44;  6; 55; 20;
     3; 10; 43; 25; 39;
    41; 45; 15; 21;  8;
    18;  2; 61; 56; 14 ].

(** The state is a list of 25 lanes, lane [(x, y)] at index [x + 5 * y]. *)
Definition lane (A : list N) (i : nat) : N := nth i A 0.

Definition indices : list nat := seq 0 25.

Definition theta (A : list N) : list N :=
  let C := map (fun x => N.lxor (lane A x)
                         (N.lxor (lane A (x + 5))
                         (N.lxor (lane A (x + 10))
                         (N.lxor (lane A (x + 15)) (lane A (x + 20))))))
               (seq 0 5) in
  let D := map (fun x => N.lxor (lane C ((x + 4) mod 5))
                                (rotl64 (lane C ((x + 1) mod 5)) 1))
               (seq 0 5) in
  map (fun i => N.lxor (lane A i) (lane D (i mod 5))) indices.

(** rho and pi together: the lane that lands at [(X, Y)] comes from
    [(x, y)] with [X = y] and [Y = 2x + 3y mod 5], that is
    [x = (X + 3Y) mod 5] and [y = X]. *)
Definition rho_pi (A : list N) : list N :=
  map (fun i =>
         let X := (i mod 5)%nat in
         let Y := (i / 5)%nat in
         let x := ((X + 3 * Y) mod 5)%nat in
         let y := X in
         rotl64 (lane A (x + 5 * y)) (lane rotation_offsets (x + 5 * y)))
      indices.

Definition chi (B : list N) : list N :=
  map (fun i =>
         let x := (i mod 5)%nat in
         let y := (i / 5)%nat in
         N.lxor (lane B i)
                (N.land (N.lxor (lane B ((x + 1) mod 5 + 5 * y)) lane_mask)
                        (lane B ((x + 2) mod 5 + 5 * y))))
      indices.

Definition iota (rc : N) (A : list N) : list N :=
  match A with
  | [] => []
  | a :: rest => N.lxor a rc :: rest
  end.

Definition keccak_round (A : list N) (rc : N) : list N :=
  iota rc (chi (rho_pi (theta A))).

Definition keccak_f (A : list N) : list N :=
  fold_left keccak_round round_constants A.

(** Rate of Keccak-256 in bytes. *)
Definition rate : nat := 136.

(** pad10*1 with the original Keccak domain byte [0x01]. *)
Definition pad (msg : list N) : list N :=
  let r := (rate - (List.length msg mod rate))%nat in
  if (r =? 1)%nat then msg ++ [0x81]
  else msg ++ [0x01] ++ repeat 0 (r - 2) ++ [0x80].

Fixpoint le_bytes_to_lane (bs : list N) : N :=
  match bs with
  | [] => 0
  | b :: rest => b + 256 * le_bytes_to_lane rest
  end.

Fixpoint lane_to_le_bytes (n : nat) (w : N) : list N :=
  match n with
  | O => []
  | S n' => (w mod 256) :: lane_to_le_bytes n' (w / 256)
  end.

Fixpoint block_lanes (n : nat) (block : list N) : list N :=
  match n with
  | O => []
  | S n' => le_bytes_to_lane (firstn 8 block) :: block_lanes n' (skipn 8 block)
  end.

Definition xor_block (A : list N) (block : list N) : list N :=
  let ls := block_lanes 17 block in
  map (fun i => N.lxor (lane A i) (lane ls i)) indices.

(** Absorb [n] blocks of [rate] bytes. *)
Fixpoint absorb (n : nat) (A : list N) (p : list N) : list N :=
  match n with
  | O => A
  | S n' => absorb n' (keccak_f (xor_block A (firstn rate p))) (skipn rate p)
  end.

Definition squeeze (A : list N) : list N :=
  flat_map (fun i => lane_to_le_bytes 8 (lane A i)) (seq 0 4).

Definition keccak256_N (msg : list N) : list N :=
  let p := pad msg in
  squeeze (absorb (List.length p / rate) (repeat 0 25) p).

End Keccak.

Definition byte_of_N (n : N) : byte :=
  match Byte.of_N (n mod 256) with
  | Some b => b
  | None => x00
  end.

(** [keccak256] on bytes, as [ethers.keccak256] computes it. *)
Definition keccak256 (msg : list byte) : list byte :=
  map byte_of_N (Keccak.keccak256_N (map Byte.to_N msg)).

Definition utf8 (s : string) : list byte := list_byte_of_string s.

Definition hex_digit (n : N) : ascii :=
  nth (N.to_nat n) (list_ascii_of_string "0123456789abcdef") "0"%char.

Fixpoint hexlify_bytes (bs : list byte) : string :=
  match bs with
  | [] => EmptyString
  | b :: rest =>
      String (hex_digit (Byte.to_N b / 16))
             (String (hex_digit (Byte.to_N b mod 16)) (hexlify_bytes rest))
  end.

(** [hexlify]: the "0x"-prefixed lower-case hex string of a byte sequence,
    the form in which ethers hands out hashes. *)
Definition hexlify (bs : list byte) : string :=
  String "0" (String "x" (hexlify_bytes bs)).

(* ================================================================== *)
(** ** JavaScript strings *)
(* ================================================================== *)

Definition code (c : ascii) : N := N_of_ascii c.

Definition in_range (lo hi : N) (c : ascii) : bool :=
  ((lo <=? code c) && (code c <=? hi))%N.

Definition is_digit (c : ascii) : bool := in_range 48 57 c.
Definition is_lower_hex (c : ascii) : bool := in_range 97 102 c.
Definition is_upper_hex (c : ascii) : bool := in_range 65 70 c.

(** The character class [[a-fA-F0-9]]. *)
Definition is_hex_digit (c : ascii) : bool :=
  is_lower_hex c || is_upper_hex c || is_digit c.

Definition lower_ascii (c : ascii) : ascii :=
  if in_range 65 90 c then ascii_of_N (code c + 32) else c.

Definition upper_ascii (c : ascii) : ascii :=
  if in_range 97 122 c then ascii_of_N (code c - 32) else c.

Fixpoint map_string (f : ascii -> ascii) (s : string) : string :=
  match s with
  | EmptyString => EmptyString
  | String c r => String (f c) (map_string f r)
  end.

(** [String.prototype.toLowerCase] and [toUpperCase] on ASCII. *)
Definition toLowerCase (s : string) : string := map_string lower_ascii s.
Definition toUpperCase (s : string) : string := map_string upper_ascii s.

Fixpoint all_chars (p : ascii -> bool) (s : string) : bool :=
  match s with
  | EmptyString => true
  | String c r => p c && all_chars p r
  end.

Fixpoint any_char (p : ascii -> bool) (s : string) : bool :=
  match s with
  | EmptyString => false
  | String c r => p c || any_char p r
  end.

(** A string is truthy when it is not empty. *)
Definition truthy_string (s : string) : bool :=
  match s with EmptyString => false | _ => true end.

(** The relational operator [<] on two strings: code units are compared
    from the left, a proper prefix is smaller. *)
Fixpoint js_string_lt (a b : string) : bool :=
  match a, b with
  | _, EmptyString => false
  | EmptyString, String _ _ => true
  | String x a', String y b' =>
      if (code x <? code y)%N then true
      else if (code y <? code x)%N then false
      else js_string_lt a' b'
  end.

(** [a >= b] on strings is [!(a < b)]. *)
Definition js_string_ge (a b : string) : bool := negb (js_string_lt a b).

(** [/^0x[a-fA-F0-9]{40}$/] *)
Definition matches_address_regex (s : string) : bool :=
  match s with
  | String "0" (String "x" r) =>
      (String.length r =? 40)%nat && all_chars is_hex_digit r
  | _ => false
  end.

(** [/^0x[a-fA-F0-9]+$/] *)
Definition matches_hex_regex (s : string) : bool :=
  match s with
  | String "0" (String "x" r) => truthy_string r && all_chars is_hex_digit r
  | _ => false
  end.

(* ================================================================== *)
(** ** ethers: bytes, numbers, addresses *)
(* ================================================================== *)

Definition option_bind {A B : Type} (o : option A) (f : A -> option B) : option B :=
  match o with
  | Some a => f a
  | None => None
  end.

Notation "x <- e ;; k" := (option_bind e (fun x => k))
  (at level 61, e at next level, right associativity).

Definition digit_value (c : ascii) : option Z :=
  if is_digit c then Some (Z.of_N (code c) - 48)%Z
  else if is_lower_hex c then Some (Z.of_N (code c) - 87)%Z
  else if is_upper_hex c then Some (Z.of_N (code c) - 55)%Z
  else None.

(** Value of a digit string in a base; [None] on a character that is not a
    digit of that base. *)
Fixpoint digits_value (base : Z) (s : string) (acc : Z) : option Z :=
  match s with
  | EmptyString => Some acc
  | String c r =>
      d <- digit_value c ;;
      if (d <? base)%Z then digits_value base r (acc * base + d)%Z else None
  end.

Definition nonempty_digits (base : Z) (s : string) : option Z :=
  if truthy_string s then digits_value base s 0%Z else None.

Fixpoint hex_pairs (s : string) : option (list byte) :=
  match s with
  | EmptyString => Some []
  | String a (String b r) =>
      hi <- digit_value a ;;
      lo <- digit_value b ;;
      rest <- hex_pairs r ;;
      Some (byte_of_N (Z.to_N (16 * hi + lo)) :: rest)
  | String _ EmptyString => None
  end.

(** [getBytes] on a hex string, [/^0x([0-9a-f][0-9a-f])*$/i]; [None] stands
    for the "invalid BytesLike value" error. *)
Definition getBytes (s : string) : option (list byte) :=
  match s with
  | String "0" (String x r) =>
      if (x =? "x")%char || (x =? "X")%char then hex_pairs r else None
  | _ => None
  end.

(** White space of the string-to-number grammar, ASCII part. *)
Definition is_js_space (c : ascii) : bool :=
  in_range 9 13 c || (code c =? 32)%N.

Fixpoint trim_start (s : string) : string :=
  match s with
  | String c r => if is_js_space c then trim_start r else s
  | EmptyString => EmptyString
  end.

Fixpoint trim_end (s : string) : string :=
  match s with
  | EmptyString => EmptyString
  | String c r =>
      let r' := trim_end r in
      if is_js_space c && negb (truthy_string r') then EmptyString
      else String c r'
  end.

(** [BigInt(s)] for a string argument: trimmed, the empty string is [0n],
    [0x]/[0o]/[0b] literals take no sign, decimals may carry one.
    [None] stands for the SyntaxError. *)
Definition BigInt_of_string (s : string) : option Z :=
  match trim_end (trim_start s) with
  | EmptyString => Some 0%Z
  | String "0" (String p r) as t =>
      if (p =? "x")%char || (p =? "X")%char then nonempty_digits 16 r
      else if (p =? "o")%char || (p =? "O")%char then nonempty_digits 8 r
      else if (p =? "b")%char || (p =? "B")%char then nonempty_digits 2 r
      else nonempty_digits 10 t
  | String "-" r => option_map Z.opp (nonempty_digits 10 r)
  | String "+" r => nonempty_digits 10 r
  | t => nonempty_digits 10 t
  end.

(** Values held by the fields of the objects that get hashed. *)
Inductive JSValue :=
| VStr (s : string)
| VNum (n : Z).

Definition MAX_SAFE_INTEGER : Z := 0x1fffffffffffff.

(** [getBigInt]: a number must be a safe integer; a string goes through
    [BigInt], with the library's own handling of [""] and of a leading
    minus sign. *)
Definition getBigInt (v : JSValue) : option Z :=
  match v with
  | VNum n =>
      if ((- MAX_SAFE_INTEGER <=? n) && (n <=? MAX_SAFE_INTEGER))%Z
      then Some n else None
  | VStr EmptyString => None
  | VStr (String "-" r as s) =>
      match r with
      | String "-" _ => BigInt_of_string s
      | _ => option_map Z.opp (BigInt_of_string r)
      end
  | VStr s => BigInt_of_string s
  end.

(** Big-endian, zero-padded to 32 bytes ([toBeHex(value, 32)]). *)
Definition toBeBytes32 (v : Z) : list byte :=
  map (fun i => byte_of_N (Z.to_N (v / 256 ^ Z.of_nat (31 - i)))) (seq 0 32).

Fixpoint checksum_chars (i : nat) (hashed : list byte) (s : string) : string :=
  match s with
  | EmptyString => EmptyString
  | String c r =>
      let b := Byte.to_N (nth (i / 2) hashed x00) in
      let nibble := if Nat.even i then (b / 16)%N else (b mod 16)%N in
      String (if (8 <=? nibble)%N then upper_ascii c else c)
             (checksum_chars (S i) hashed r)
  end.

(** [getChecksumAddress] on a "0x"-prefixed address of 40 hex digits. *)
Definition getChecksumAddress (address : string) : string :=
  let chars := substring 2 40 (toLowerCase address) in
  String "0" (String "x" (checksum_chars 0 (keccak256 (utf8 chars)) chars)).

(** [getAddress] for the hexadecimal notation, with or without the "0x"
    prefix; a mixed-case address must carry the right checksum.  The ICAP
    notation ("XE...") the library also reads is left out: it is rejected
    here. *)
Definition getAddress (address : string) : option string :=
  let prefixed :=
    match address with
    | String "0" (String "x" _) => address
    | _ => String "0" (String "x" address)
    end in
  if matches_address_regex prefixed then
    let result := getChecksumAddress prefixed in
    if any_char is_upper_hex prefixed && any_char is_lower_hex prefixed
       && negb (result =? prefixed)
    then None
    else Some result
  else None.

(* ================================================================== *)
(** ** ethers: hashMessage and TypedDataEncoder *)
(* ================================================================== *)

Definition decimal_of_nat (n : nat) : string :=
  NilEmpty.string_of_uint (Nat.to_uint n).

Definition MessagePrefix : string :=
  String (ascii_of_N 25) "Ethereum Signed Message:" ++ String (ascii_of_N 10) "".

(** [hashMessage(message)] for a string message (EIP-191 personal message):
    the string is taken as text, also when it reads as hex. *)
Definition hashMessage (message : string) : list byte :=
  keccak256 (utf8 MessagePrefix
             ++ utf8 (decimal_of_nat (String.length message))
             ++ utf8 message).

(** A field of a struct type, [{ name, type }]. *)
Record TypedDataField := { name : string; type : string }.

(** A JavaScript object holding field values, in property order. *)
Definition JSObject := list (string * JSValue).

Fixpoint get_property (o : JSObject) (key : string) : option JSValue :=
  match o with
  | [] => None
  | (k, v) :: rest => if (k =? key)%string then Some v else get_property rest key
  end.

Fixpoint join_fields (fs : list TypedDataField) : string :=
  match fs with
  | [] => ""
  | [f] => type f ++ " " ++ name f
  | f :: rest => type f ++ " " ++ name f ++ "," ++ join_fields rest
  end%string.

(** [encodeType] of a struct that refers to no other struct. *)
Definition encodeType (struct : string) (fs : list TypedDataField) : string :=
  (struct ++ "(" ++ join_fields fs ++ ")")%string.

Definition zeros (n : nat) : list byte := repeat x00 n.

(** The encoders of the field types that occur in the components' tables.
    [None] stands for the encoder's exception. *)
Definition encodeAddress (v : JSValue) : option (list byte) :=
  match v with
  | VStr s =>
      a <- getAddress s ;;
      b <- getBytes a ;;
      Some (zeros 12 ++ b)
  | VNum _ => None
  end.

Definition encodeBytes (v : JSValue) : option (list byte) :=
  match v with
  | VStr s => b <- getBytes s ;; Some (keccak256 b)
  | VNum _ => None
  end.

Definition encodeUint (bits : Z) (v : JSValue) : option (list byte) :=
  n <- getBigInt v ;;
  if ((0 <=? n) && (n <? 2 ^ bits))%Z then Some (toBeBytes32 n) else None.

(** The 32-byte encoding of one field of type [address], [bytes], [uint8]
    or [uint256]; other types do not occur. *)
Definition encodeField (ty : string) (v : JSValue) : option (list byte) :=
  if (ty =? "address")%string then encodeAddress v
  else if (ty =? "bytes")%string then encodeBytes v
  else if (ty =? "uint8")%string then encodeUint 8 v
  else if (ty =? "uint256")%string then encodeUint 256 v
  else None.

Fixpoint encodeData (fs : list TypedDataField) (o : JSObject) : option (list byte) :=
  match fs with
  | [] => Some []
  | f :: rest =>
      v <- get_property o (name f) ;;
      e <- encodeField (type f) v ;;
      es <- encodeData rest o ;;
      Some (e ++ es)
  end.

(** [TypedDataEncoder.hashStruct(name, types, value)] where [types] has the
    single struct [name] with fields [fs]. *)
Definition hashStruct (struct : string) (fs : list TypedDataField) (o : JSObject)
  : option (list byte) :=
  es <- encodeData fs o ;;
  Some (keccak256 (keccak256 (utf8 (encodeType struct fs)) ++ es)).

(** The EIP-712 domain objects the components build: [verifyingContract]
    always, [chainId] when the object literal has it. *)
Record TypedDataDomain := {
  chainId : option Z;
  verifyingContract : string
}.

(** [hashDomain]: the fields present in the domain, in the library's fixed
    order (name, version, chainId, verifyingContract, salt), hashed as the
    struct [EIP712Domain]. *)
Definition domainFields (d : TypedDataDomain) : list TypedDataField :=
  match chainId d with
  | Some _ => [ {| name := "chainId"; type := "uint256" |} ]
  | None => []
  end ++ [ {| name := "verifyingContract"; type := "address" |} ].

Definition domainObject (d : TypedDataDomain) : JSObject :=
  match chainId d with
  | Some c => [ ("chainId", VNum c) ]
  | None => []
  end ++ [ ("verifyingContract", VStr (verifyingContract d)) ].

Definition hashDomain (d : TypedDataDomain) : option (list byte) :=
  hashStruct "EIP712Domain" (domainFields d) (domainObject d).

(** [TypedDataEncoder.hash(domain, types, value)]:
    [keccak256(0x1901 ++ hashDomain(domain) ++ hashStruct(primary, value))]. *)
Definition TypedDataEncoder_hash (d : TypedDataDomain) (struct : string)
  (fs : list TypedDataField) (o : JSObject) : option (list byte) :=
  dh <- hashDomain d ;;
  mh <- hashStruct struct fs o ;;
  Some (keccak256 ([x19; x01] ++ dh ++ mh)).

(* ================================================================== *)
(** ** Safe protocol kit: transactions and signatures *)
(* ================================================================== *)

(** JSON values, for what the page serialises with [JSON.stringify]. *)
#[local] Unset Elimination Schemes.
Inductive json :=
| JNull
| JBool (b : bool)
| JNum (n : Z)
| JStr (s : string)
| JArr (items : list json)
| JObj (fields : list (string * json)).
#[local] Set Elimination Schemes.

Record SafeTransactionData := {
  to : string;
  value : string;
  data : string;
  operation : Z;
  safeTxGas : string;
  baseGas : string;
  gasPrice : string;
  gasToken : string;
  refundReceiver : string;
  nonce : Z
}.

(** A signature object held in a transaction's map.  The page reads the
    three fields of [SafeSignature]; [extra] stands for any further own
    properties the object may carry. *)
Record SafeSignature := {
  signer : string;
  sig_data : string;
  isContractSignature : bool;
  extra : list (string * json)
}.

(** [new EthSafeSignature(signer, signature, isContractSignature)] *)
Definition EthSafeSignature (signer0 signature : string) (isContract : bool)
  : SafeSignature :=
  {| signer := signer0; sig_data := signature;
     isContractSignature := isContract; extra := [] |}.

(** A JavaScript [Map] with string keys: entries in insertion order, one
    entry per key. *)
Definition JSMap (V : Type) := list (string * V).

Section JSMapOps.
Context {V : Type}.

Fixpoint Map_get (m : JSMap V) (k : string) : option V :=
  match m with
  | [] => None
  | (k', v) :: rest => if (k' =? k)%string then Some v else Map_get rest k
  end.

Definition Map_has (m : JSMap V) (k : string) : bool :=
  match Map_get m k with Some _ => true | None => false end.

(** [set] on a present key replaces the value and keeps the entry's place;
    on a new key it appends the entry. *)
Fixpoint Map_set (m : JSMap V) (k : string) (v : V) : JSMap V :=
  match m with
  | [] => [(k, v)]
  | (k', v') :: rest =>
      if (k' =? k)%string then (k', v) :: rest
      else (k', v') :: Map_set rest k v
  end.

Definition Map_values (m : JSMap V) : list V := map snd m.
Definition Map_keys (m : JSMap V) : list string := map fst m.
Definition Map_size (m : JSMap V) : nat := List.length m.
End JSMapOps.

(** A transaction object as the page holds it.  [data] and [signatures] are
    its own properties.  [is_instance] tells whether the object is an
    instance of the class [EthSafeTransaction], whose methods live on the
    prototype: an object spread [{ ...safeTx }] copies the own properties
    only, so the copy has no [addSignature]. *)
Record EthSafeTransaction := {
  tx_data : SafeTransactionData;
  signatures : JSMap SafeSignature;
  is_instance : bool
}.

(** [new EthSafeTransaction(data)] *)
Definition new_EthSafeTransaction (d : SafeTransactionData) : EthSafeTransaction :=
  {| tx_data := d; signatures := []; is_instance := true |}.

(** [addSignature(signature)]:
    [this.signatures.set(signature.signer.toLowerCase(), signature)].
    Called on an object without the method, the call throws ([None]). *)
Definition addSignature (tx : EthSafeTransaction) (s : SafeSignature)
  : option EthSafeTransaction :=
  if is_instance tx then
    Some {| tx_data := tx_data tx;
            signatures := Map_set (signatures tx) (toLowerCase (signer s)) s;
            is_instance := true |}
  else None.

(** [{ ...safeTx }] *)
Definition spread (tx : EthSafeTransaction) : EthSafeTransaction :=
  {| tx_data := tx_data tx; signatures := signatures tx; is_instance := false |}.

(** The transaction that results from adding the signatures of a list, one
    after the other, to a transaction. *)
Fixpoint addSignatures (tx : EthSafeTransaction) (ss : list SafeSignature)
  : option EthSafeTransaction :=
  match ss with
  | [] => Some tx
  | s :: rest => tx' <- addSignature tx s ;; addSignatures tx' rest
  end.

(** Every key of the signature map is the lower-cased signer of its entry;
    this is what [addSignature] maintains. *)
Definition keyed_by_signer (m : JSMap SafeSignature) : Prop :=
  Forall (fun kv => fst kv = toLowerCase (signer (snd kv))) m.

Record SafeInfo := {
  owners : list string;
  threshold : Z;
  info_nonce : Z;
  version : option string
}.

Record Chain := { chain_id : Z }.

(* ================================================================== *)
(** ** TxDetailsClient *)
(* ================================================================== *)

(** What the hooks hand to the component: the connected account and chain
    ([useAccount]), the route parameters ([useParams]) and the Safe read by
    [useSafe]. *)
Record Env := {
  chain : option Chain;
  connectedAddress : option string;
  safeAddress : string;
  txHash : string;
  isOwner : bool;
  safeInfo : option SafeInfo
}.

Inductive ToastType := success | error | info.

Record Toast := { toast_type : ToastType; message : string }.

Record Eip712Data := {
  domainHash : string;
  messageHash : string;
  eip712Hash : string
}.

(** A share URL written to the clipboard: the page path [/safe/<address>]
    with the query [importTx=<payload>&chainId=<id>] or
    [importSig=<payload>&chainId=<id>].  The payload is kept as the JSON
    value that goes through [JSON.stringify], [btoa] and
    [encodeURIComponent]. *)
Inductive ShareUrl :=
| ImportTxUrl (safe : string) (payload : json) (chainId : Z)
| ImportSigUrl (safe : string) (payload : json) (chainId : Z).

(** Calls that leave the component, in the order they are made. *)
Inductive Effect :=
| CallSign (tx : EthSafeTransaction)
| CallBroadcast (tx : EthSafeTransaction)
| SaveTransaction (safe : string) (tx : EthSafeTransaction) (chainId : string)
| RemoveTransaction (safe : string)
| Download (filename : string) (content : json)
| ClipboardWrite (url : ShareUrl)
| RouterPush (path : string).

(** The component's [useState] cells, and the log of its outward calls. *)
Record State := {
  showModal : bool;
  broadcastHash : option string;
  broadcastError : option string;
  safeTx : option EthSafeTransaction;
  signing : bool;
  broadcasting : bool;
  toast : option Toast;
  showAddSigModal : bool;
  signerAddress : string;
  signatureData : string;
  eip712Data : option Eip712Data;
  effects : list Effect
}.

Definition setShowModal (v : bool) (s : State) : State :=
  {| showModal := v; broadcastHash := broadcastHash s;
     broadcastError := broadcastError s; safeTx := safeTx s;
     signing := signing s; broadcasting := broadcasting s; toast := toast s;
     showAddSigModal := showAddSigModal s; signerAddress := signerAddress s;
     signatureData := signatureData s; eip712Data := eip712Data s;
     effects := effects s |}.

Definition setBroadcastHash (v : option string) (s : State) : State :=
  {| showModal := showModal s; broadcastHash := v;
     broadcastError := broadcastError s; safeTx := safeTx s;
     signing := signing s; broadcasting := broadcasting s; toast := toast s;
     showAddSigModal := showAddSigModal s; signerAddress := signerAddress s;
     signatureData := signatureData s; eip712Data := eip712Data s;
     effects := effects s |}.

Definition setBroadcastError (v : option string) (s : State) : State :=
  {| showModal := showModal s; broadcastHash := broadcastHash s;
     broadcastError := v; safeTx := safeTx s;
     signing := signing s; broadcasting := broadcasting s; toast := toast s;
     showAddSigModal := showAddSigModal s; signerAddress := signerAddress s;
     signatureData := signatureData s; eip712Data := eip712Data s;
     effects := effects s |}.

Definition setSafeTx (v : option EthSafeTransaction) (s : State) : State :=
  {| showModal := showModal s; broadcastHash := broadcastHash s;
     broadcastError := broadcastError s; safeTx := v;
     signing := signing s; broadcasting := broadcasting s; toast := toast s;
     showAddSigModal := showAddSigModal s; signerAddress := signerAddress s;
     signatureData := signatureData s; eip712Data := eip712Data s;
     effects := effects s |}.

Definition setSigning (v : bool) (s : State) : State :=
  {| showModal := showModal s; broadcastHash := broadcastHash s;
     broadcastError := broadcastError s; safeTx := safeTx s;
     signing := v; broadcasting := broadcasting s; toast := toast s;
     showAddSigModal := showAddSigModal s; signerAddress := signerAddress s;
     signatureData := signatureData s; eip712Data := eip712Data s;
     effects := effects s |}.

Definition setBroadcasting (v : bool) (s : State) : State :=
  {| showModal := showModal s; broadcastHash := broadcastHash s;
     broadcastError := broadcastError s; safeTx := safeTx s;
     signing := signing s; broadcasting := v; toast := toast s;
     showAddSigModal := showAddSigModal s; signerAddress := signerAddress s;
     signatureData := signatureData s; eip712Data := eip712Data s;
     effects := effects s |}.

Definition setToast (v : option Toast) (s : State) : State :=
  {| showModal := showModal s; broadcastHash := broadcastHash s;
     broadcastError := broadcastError s; safeTx := safeTx s;
     signing := signing s; broadcasting := broadcasting s; toast := v;
     showAddSigModal := showAddSigModal s; signerAddress := signerAddress s;
     signatureData := signatureData s; eip712Data := eip712Data s;
     effects := effects s |}.

Definition setShowAddSigModal (v : bool) (s : State) : State :=
  {| showModal := showModal s; broadcastHash := broadcastHash s;
     broadcastError := broadcastError s; safeTx := safeTx s;
     signing := signing s; broadcasting := broadcasting s; toast := toast s;
     showAddSigModal := v; signerAddress := signerAddress s;
     signatureData := signatureData s; eip712Data := eip712Data s;
     effects := effects s |}.

Definition setSignerAddress (v : string) (s : State) : State :=
  {| showModal := showModal s; broadcastHash := broadcastHash s;
     broadcastError := broadcastError s; safeTx := safeTx s;
     signing := signing s; broadcasting := broadcasting s; toast := toast s;
     showAddSigModal := showAddSigModal s; signerAddress := v;
     signatureData := signatureData s; eip712Data := eip712Data s;
     effects := effects s |}.

Definition setSignatureData (v : string) (s : State) : State :=
  {| showModal := showModal s; broadcastHash := broadcastHash s;
     broadcastError := broadcastError s; safeTx := safeTx s;
     signing := signing s; broadcasting := broadcasting s; toast := toast s;
     showAddSigModal := showAddSigModal s; signerAddress := signerAddress s;
     signatureData := v; eip712Data := eip712Data s;
     effects := effects s |}.

Definition setEip712Data (v : option Eip712Data) (s : State) : State :=
  {| showModal := showModal s; broadcastHash := broadcastHash s;
     broadcastError := broadcastError s; safeTx := safeTx s;
     signing := signing s; broadcasting := broadcasting s; toast := toast s;
     showAddSigModal := showAddSigModal s; signerAddress := signerAddress s;
     signatureData := signatureData s; eip712Data := v;
     effects := effects s |}.

(** Record one outward call. *)
Definition perform (e : Effect) (s : State) : State :=
  {| showModal := showModal s; broadcastHash := broadcastHash s;
     broadcastError := broadcastError s; safeTx := safeTx s;
     signing := signing s; broadcasting := broadcasting s; toast := toast s;
     showAddSigModal := showAddSigModal s; signerAddress := signerAddress s;
     signatureData := signatureData s; eip712Data := eip712Data s;
     effects := effects s ++ [e] |}.

Definition showToast (t : ToastType) (m : string) : State -> State :=
  setToast (Some {| toast_type := t; message := m |}).

(** The state of a freshly mounted component. *)
Definition initialState : State :=
  {| showModal := false; broadcastHash := None; broadcastError := None;
     safeTx := None; signing := false; broadcasting := false; toast := None;
     showAddSigModal := false; signerAddress := ""; signatureData := "";
     eip712Data := None; effects := [] |}.

(** [hasSignedThisTx] *)
Definition hasSignedThisTx (tx : option EthSafeTransaction)
  (connected : option string) : bool :=
  match tx, connected with
  | Some t, Some a =>
      if truthy_string a then Map_has (signatures t) (toLowerCase a) else false
  | _, _ => false
  end.

(** *** The EIP-712 hashes of the transaction *)

Definition SafeTx_domain (c : Chain) (safe : string) : TypedDataDomain :=
  {| chainId := Some (chain_id c); verifyingContract := safe |}.

Definition SafeTx_types : list TypedDataField :=
  [ {| name := "to"; type := "address" |};
    {| name := "value"; type := "uint256" |};
    {| name := "data"; type := "bytes" |};
    {| name := "operation"; type := "uint8" |};
    {| name := "safeTxGas"; type := "uint256" |};
    {| name := "baseGas"; type := "uint256" |};
    {| name := "gasPrice"; type := "uint256" |};
    {| name := "gasToken"; type := "address" |};
    {| name := "refundReceiver"; type := "address" |};
    {| name := "nonce"; type := "uint256" |} ].

Definition SafeTx_message (d : SafeTransactionData) : JSObject :=
  [ ("to", VStr (to d));
    ("value", VStr (value d));
    ("data", VStr (data d));
    ("operation", VNum (operation d));
    ("safeTxGas", VStr (safeTxGas d));
    ("baseGas", VStr (baseGas d));
    ("gasPrice", VStr (gasPrice d));
    ("gasToken", VStr (gasToken d));
    ("refundReceiver", VStr (refundReceiver d));
    ("nonce", VNum (nonce d)) ].

(** The body of the [try] block: [None] when one of the three library
    calls throws. *)
Definition calculateEip712 (tx : EthSafeTransaction) (c : Chain) (safe : string)
  : option Eip712Data :=
  let domain := SafeTx_domain c safe in
  let message := SafeTx_message (tx_data tx) in
  dh <- hashDomain domain ;;
  mh <- hashStruct "SafeTx" SafeTx_types message ;;
  h <- TypedDataEncoder_hash domain "SafeTx" SafeTx_types message ;;
  Some {| domainHash := hexlify dh; messageHash := hexlify mh;
          eip712Hash := hexlify h |}.

(** The effect that computes the hashes once the transaction is loaded. *)
Definition eip712Effect (env : Env) (st : State) : State :=
  match safeTx st, safeInfo env, chain env with
  | Some tx, Some _, Some c =>
      setEip712Data (calculateEip712 tx c (safeAddress env)) st
  | _, _, _ => st
  end.

(** *** Signing *)

(** How the awaited [signSafeTransaction(safeTx)] settles. *)
Inductive SignOutcome :=
| SignResolved (signedTx : option EthSafeTransaction)
| SignRejected.

Definition handleSign (o : SignOutcome) (st : State) : State :=
  match safeTx st with
  | None => setSigning false (setSigning true st)
  | Some tx =>
      let st := perform (CallSign tx) (setSigning true st) in
      let st :=
        match o with
        | SignResolved None => showToast error "Signing failed" st
        | SignResolved (Some signedTx) =>
            setSafeTx (Some signedTx) (showToast success "Signature added!" st)
        | SignRejected => showToast error "Signing failed" st
        end in
      setSigning false st
  end.

(** *** Broadcasting *)

(** What [broadcastSafeTransaction] resolves to: an object, whose [hash]
    property may be missing, or something that is not an object. *)
Inductive BroadcastResult :=
| ResultObject (hash : option string)
| ResultOther.

(** How the awaited [broadcastSafeTransaction(safeTx)] settles; a rejection
    carries the message taken from the error. *)
Inductive BroadcastOutcome :=
| Resolved (result : BroadcastResult)
| Rejected (err : string).

Definition handleBroadcast (o : BroadcastOutcome) (st : State) : State :=
  match safeTx st with
  | None => st
  | Some tx =>
      let st := perform (CallBroadcast tx) (setBroadcasting true st) in
      let st :=
        match o with
        | Resolved result =>
            let txHash :=
              match result with
              | ResultObject (Some h) => h
              | _ => ""
              end in
            showToast success "Broadcast successful!"
              (setShowModal true
                 (setBroadcastError None
                    (setBroadcastHash
                       (if truthy_string txHash then Some txHash else None) st)))
        | Rejected err =>
            showToast error "Broadcast failed"
              (setShowModal true (setBroadcastError (Some err) st))
        end in
      setBroadcasting false st
  end.

(** The expression under [disabled] of the broadcast button, without the
    [broadcasting] flag: enough signatures for the Safe's threshold. *)
Definition isExecutable (tx : option EthSafeTransaction) (i : option SafeInfo) : bool :=
  match tx, i with
  | Some t, Some i => (threshold i <=? Z.of_nat (Map_size (signatures t)))%Z
  | _, _ => false
  end.

Definition broadcastDisabled (env : Env) (st : State) : bool :=
  negb (isExecutable (safeTx st) (safeInfo env)) || broadcasting st.

Definition signDisabled (env : Env) (st : State) : bool :=
  negb (isOwner env) || signing st
  || hasSignedThisTx (safeTx st) (connectedAddress env).

(** *** Export and share links *)

(** The object literal [{ signer, data, isContractSignature }]. *)
Definition wireSignature (s : SafeSignature) : json :=
  JObj [ ("signer", JStr (signer s));
         ("data", JStr (sig_data s));
         ("isContractSignature", JBool (isContractSignature s)) ].

(** [Array.from(safeTx.signatures.values()).map(...)] *)
Definition exportSignatures (tx : EthSafeTransaction) : list json :=
  map wireSignature (Map_values (signatures tx)).

Definition json_of_SafeTransactionData (d : SafeTransactionData) : json :=
  JObj [ ("to", JStr (to d));
         ("value", JStr (value d));
         ("data", JStr (data d));
         ("operation", JNum (operation d));
         ("safeTxGas", JStr (safeTxGas d));
         ("baseGas", JStr (baseGas d));
         ("gasPrice", JStr (gasPrice d));
         ("gasToken", JStr (gasToken d));
         ("refundReceiver", JStr (refundReceiver d));
         ("nonce", JNum (nonce d)) ].

(** [{ data: safeTx.data, signatures }] *)
Definition txData (tx : EthSafeTransaction) : json :=
  JObj [ ("data", json_of_SafeTransactionData (tx_data tx));
         ("signatures", JArr (exportSignatures tx)) ].

Definition decimal_of_Z (z : Z) : string :=
  NilEmpty.string_of_int (Z.to_int z).

(** [String(chain.id)] *)
Definition chainId_string (c : Chain) : string := decimal_of_Z (chain_id c).

Definition handleExportSingle (st : State) : State :=
  match safeTx st with
  | None => st
  | Some tx =>
      let content := JObj [ ("tx", txData tx) ] in
      let filename :=
        ("safe-tx-nonce-" ++ decimal_of_Z (nonce (tx_data tx)) ++ ".json")%string in
      showToast success "Transaction exported!"
        (perform (Download filename content) st)
  end.

Definition handleShareLink (env : Env) (st : State) : State :=
  match safeTx st, chain env with
  | Some tx, Some c =>
      let payload := JObj [ ("tx", txData tx) ] in
      showToast success "Share link copied to clipboard!"
        (perform (ClipboardWrite
                    (ImportTxUrl (safeAddress env) payload (chain_id c))) st)
  | _, _ => st
  end.

(** [values.find(sig => sig.signer.toLowerCase() === connected.toLowerCase())] *)
Definition findUserSignature (tx : EthSafeTransaction) (connected : string)
  : option SafeSignature :=
  find (fun s => (toLowerCase (signer s) =? toLowerCase connected)%string)
       (Map_values (signatures tx)).

Definition handleShareSignature (env : Env) (st : State) : State :=
  match safeTx st, chain env with
  | Some tx, Some c =>
      match connectedAddress env with
      | Some a =>
          if truthy_string a then
            match findUserSignature tx a with
            | None =>
                showToast error "You haven't signed this transaction yet" st
            | Some userSignature =>
                let payload :=
                  JObj [ ("signature", wireSignature userSignature);
                         ("txHash", JStr (txHash env)) ] in
                showToast success "Signature link copied to clipboard!"
                  (perform (ClipboardWrite
                              (ImportSigUrl (safeAddress env) payload (chain_id c)))
                           st)
            end
          else showToast error "No wallet connected" st
      | None => showToast error "No wallet connected" st
      end
  | _, _ => st
  end.

(** *** Adding a signature by hand *)

Definition handleAddSignature (env : Env) (st : State) : State :=
  match safeTx st, chain env with
  | Some tx, Some c =>
      if negb (truthy_string (signerAddress st))
         || negb (truthy_string (signatureData st)) then
        showToast error "Signer address and signature data are required" st
      else if negb (matches_address_regex (signerAddress st)) then
        showToast error "Invalid signer address format" st
      else if negb (matches_hex_regex (signatureData st)) then
        showToast error "Invalid signature data format" st
      else
        let ethSignature :=
          EthSafeSignature (signerAddress st) (signatureData st) false in
        match addSignature tx ethSignature with
        | None => showToast error "Failed to add signature" st
        | Some tx' =>
            let st := perform (SaveTransaction (safeAddress env) tx'
                                               (chainId_string c)) st in
            let st := setSafeTx (Some (spread tx')) st in
            let st := setShowAddSigModal false st in
            let st := setSignerAddress "" st in
            let st := setSignatureData "" st in
            showToast success "Signature added successfully!" st
        end
  | _, _ => st
  end.

(** *** The broadcast modal and the page as a transition system *)

(** Modelled from the spec: the component [BroadcastModal] is not part of
    the sources at hand.  The spec has a transaction leave the pending set
    only once a broadcast has yielded a transaction hash, and has a failed
    broadcast leave it in place; so the modal offers its success action
    (the button that fires [onSuccess]) exactly when it was handed a
    transaction hash and no error. *)
Definition BroadcastModal_offers_success (txHash0 : option string)
  (error0 : option string) : bool :=
  match txHash0, error0 with
  | Some _, None => true
  | _, _ => false
  end.

(** The [onSuccess] callback given to the modal. *)
Definition onSuccess (env : Env) (st : State) : State :=
  perform (RouterPush ("/safe/" ++ safeAddress env)%string)
    (setShowModal false
       (perform (RemoveTransaction (safeAddress env)) st)).

(** What can happen to the mounted page: the transaction arrives from the
    pending set, the hashing effect runs, the user presses a button or
    types into the manual-signature form, a modal is answered, a toast
    timer fires.  A press that awaits a collaborator carries the way the
    call settles. *)
Inductive Event :=
| TxLoaded (tx : option EthSafeTransaction)
| HashEffect
| ClickSign (o : SignOutcome)
| ClickBroadcast (o : BroadcastOutcome)
| ClickExport
| ClickShareLink
| ClickShareSignature
| OpenAddSignature
| ChangeSignerAddress (s : string)
| ChangeSignatureData (s : string)
| CancelAddSignature
| ClickAddSignature
| ModalClose
| ModalSuccess
| ToastTimeout.

Definition loaded (st : State) : bool :=
  match safeTx st with Some _ => true | None => false end.

(** One transition.  The buttons and modals are rendered only while a
    transaction is loaded, and a disabled button does nothing. *)
Definition step (env : Env) (st : State) (ev : Event) : State :=
  match ev with
  | TxLoaded tx => setSafeTx tx st
  | HashEffect => eip712Effect env st
  | ToastTimeout => setToast None st
  | _ =>
      if negb (loaded st) then st else
      match ev with
      | ClickSign o =>
          if signDisabled env st then st else handleSign o st
      | ClickBroadcast o =>
          if broadcastDisabled env st then st else handleBroadcast o st
      | ClickExport => handleExportSingle st
      | ClickShareLink => handleShareLink env st
      | ClickShareSignature =>
          if hasSignedThisTx (safeTx st) (connectedAddress env)
          then handleShareSignature env st else st
      | OpenAddSignature => setShowAddSigModal true st
      | ChangeSignerAddress s =>
          if showAddSigModal st then setSignerAddress s st else st
      | ChangeSignatureData s =>
          if showAddSigModal st then setSignatureData s st else st
      | CancelAddSignature =>
          if showAddSigModal st
          then setSignatureData "" (setSignerAddress "" (setShowAddSigModal false st))
          else st
      | ClickAddSignature =>
          if showAddSigModal st && truthy_string (signerAddress st)
             && truthy_string (signatureData st)
          then handleAddSignature env st else st
      | ModalClose => if showModal st then setShowModal false st else st
      | ModalSuccess =>
          if showModal st
             && BroadcastModal_offers_success (broadcastHash st) (broadcastError st)
          then onSuccess env st else st
      | _ => st
      end
  end.

Definition run (env : Env) (st : State) (evs : list Event) : State :=
  fold_left (step env) evs st.

(** A broadcast that yielded a transaction hash. *)
Definition yields_hash (ev : Event) : Prop :=
  exists h, h <> "" /\ ev = ClickBroadcast (Resolved (ResultObject (Some h))).

(** A broadcast attempt that failed: the call was rejected, or it resolved
    without a transaction hash. *)
Definition failed (o : BroadcastOutcome) : Prop :=
  ~ yields_hash (ClickBroadcast o).

(* ================================================================== *)
(** ** Import and the dashboard export *)
(* ================================================================== *)

Fixpoint json_field (fields : list (string * json)) (key : string) : option json :=
  match fields with
  | [] => None
  | (k, v) :: rest => if (k =? key)%string then Some v else json_field rest key
  end.

(** Modelled from the spec: the import code of the dashboard is not part of
    the sources at hand.  The spec has import accept the single form
    [{ "tx": WireTransaction }] and the batch form
    [{ "transactions": WireTransaction[] }]; the result is the list of wire
    transactions found, [None] when the file has neither form. *)
Definition importTransactions (file : json) : option (list json) :=
  match file with
  | JObj fields =>
      match json_field fields "transactions" with
      | Some (JArr txs) => Some txs
      | Some _ => None
      | None =>
          match json_field fields "tx" with
          | Some tx => Some [tx]
          | None => None
          end
      end
  | _ => None
  end.

(** Modelled from the spec: the export button of the dashboard is not part
    of the sources at hand; its test reads the file as
    [{ transactions: [...] }], the batch form of the spec. *)
Definition exportTransactions (txs : list EthSafeTransaction) : json :=
  JObj [ ("transactions", JArr (map txData txs)) ].

(** The two forms of a transaction file. *)
Definition is_single_form (file : json) : Prop :=
  exists tx, file = JObj [ ("tx", tx) ].

Definition is_batch_form (file : json) : Prop :=
  exists txs, file = JObj [ ("transactions", JArr txs) ].

(* ================================================================== *)
(** ** WalletConnectSignClient *)
(* ================================================================== *)

Record SafeMessageData := {
  safeMessage : string;
  sm_eip712Hash : string;
  sm_domainHash : string;
  sm_messageHash : string
}.

(** Truthiness of a JSON value. *)
Definition truthy (j : json) : bool :=
  match j with
  | JNull => false
  | JBool b => b
  | JNum n => negb (n =? 0)%Z
  | JStr s => truthy_string s
  | JArr _ => true
  | JObj _ => true
  end.

(** [safeInfo.version || "1.4.1"] *)
Definition safeVersion_or_default (i : SafeInfo) : string :=
  match version i with
  | Some v => if truthy_string v then v else "1.4.1"
  | None => "1.4.1"
  end.

(** The SafeMessage domain: [chainId] is part of it when the version
    string compares [>= "1.3.0"]. *)
Definition SafeMessage_domain (i : SafeInfo) (chainId0 : Z) (safe : string)
  : TypedDataDomain :=
  let safeVersion := safeVersion_or_default i in
  let includeChainId := js_string_ge safeVersion "1.3.0" in
  if includeChainId
  then {| chainId := Some chainId0; verifyingContract := safe |}
  else {| chainId := None; verifyingContract := safe |}.

Definition SafeMessage_types : list TypedDataField :=
  [ {| name := "message"; type := "bytes" |} ].

(** The second half of the effect, from the inner hash on: [None] when a
    library call throws. *)
Definition calculateSafeMessage (safeMessageMessage : string) (i : SafeInfo)
  (chainId0 : Z) (safe : string) : option SafeMessageData :=
  let domain := SafeMessage_domain i chainId0 safe in
  let message := [ ("message", VStr safeMessageMessage) ] in
  dh <- hashDomain domain ;;
  mh <- hashStruct "SafeMessage" SafeMessage_types message ;;
  h <- TypedDataEncoder_hash domain "SafeMessage" SafeMessage_types message ;;
  Some {| safeMessage := safeMessageMessage; sm_eip712Hash := hexlify h;
          sm_domainHash := hexlify dh; sm_messageHash := hexlify mh |}.

Section WalletConnectSign.

(** [JSON.parse], and [TypedDataEncoder.hash] on typed data that a dApp
    supplies with its own type table: both belong to the platform and to
    ethers and are taken as given.  [None] stands for an exception. *)
Variable JSON_parse : string -> option json.
Variable TypedDataEncoder_hash_json : json -> json -> json -> option (list byte).

Definition json_property (j : json) (key : string) : option json :=
  match j with
  | JObj fields => json_field fields key
  | _ => None
  end.

Definition truthy_property (j : json) (key : string) : option json :=
  match json_property j key with
  | Some v => if truthy v then Some v else None
  | None => None
  end.

(** The value that goes into the [message] field of the SafeMessage, per
    signing method.  The outer [option] is [None] when the effect sets the
    hashes to [null] and stops (unknown method, incomplete typed data, or
    an exception). *)
Definition safeMessageMessage_of (method : string) (signParams : list json)
  : option string :=
  if (method =? "personal_sign")%string then
    match nth_error signParams 0 with
    | Some (JStr message0) => Some (hexlify (hashMessage message0))
    | _ => None
    end
  else if (method =? "eth_sign")%string then
    match nth_error signParams 1 with
    | Some (JStr message0) => Some (hexlify (hashMessage message0))
    | _ => None
    end
  else if (method =? "eth_signTypedData")%string
          || (method =? "eth_signTypedData_v4")%string then
    typedData <-
      match nth_error signParams 1 with
      | Some (JStr typedDataString) => JSON_parse typedDataString
      | other => other
      end ;;
    domain <- truthy_property typedData "domain" ;;
    types <- truthy_property typedData "types" ;;
    message0 <- truthy_property typedData "message" ;;
    h <- TypedDataEncoder_hash_json domain types message0 ;;
    Some (hexlify h)
  else None.

(** The typed data of a typed-data request: the second parameter, parsed
    when it is a string. *)
Definition typed_data_of (param : json) (typedData : json) : Prop :=
  match param with
  | JStr s => JSON_parse s = Some typedData
  | _ => param = typedData
  end.

(** The inner hash of a signing request, as the spec words it: the EIP-191
    personal-message hash of the request's message for [personal_sign]
    (first parameter) and [eth_sign] (second parameter), the EIP-712 hash of
    the supplied typed data for [eth_signTypedData] and
    [eth_signTypedData_v4]. *)
Inductive inner_hash : string -> list json -> list byte -> Prop :=
| inner_personal_sign (m : string) (rest : list json) :
    inner_hash "personal_sign" (JStr m :: rest) (hashMessage m)
| inner_eth_sign (a : json) (m : string) (rest : list json) :
    inner_hash "eth_sign" (a :: JStr m :: rest) (hashMessage m)
| inner_typed_data (method : string) (a param : json) (rest : list json)
    (typedData domain types message0 : json) (h : list byte) :
    method = "eth_signTypedData" \/ method = "eth_signTypedData_v4" ->
    typed_data_of param typedData ->
    json_property typedData "domain" = Some domain -> truthy domain = true ->
    json_property typedData "types" = Some types -> truthy types = true ->
    json_property typedData "message" = Some message0 -> truthy message0 = true ->
    TypedDataEncoder_hash_json domain types message0 = Some h ->
    inner_hash method (a :: param :: rest) h.

(** The effect that computes the SafeMessage hashes; [prev] is the value of
    [eip712Data] before it runs. *)
Definition safeMessageEffect (signParams : option (list json)) (method : string)
  (i : option SafeInfo) (chainId0 : Z) (safe : string)
  (prev : option SafeMessageData) : option SafeMessageData :=
  match signParams, i with
  | Some params, Some i =>
      if negb (truthy_string method) || (chainId0 =? 0)%Z then prev
      else
        safeMessageMessage <- safeMessageMessage_of method params ;;
        calculateSafeMessage safeMessageMessage i chainId0 safe
  | _, _ => prev
  end.

End WalletConnectSign.

(* ================================================================== *)
(** ** Notions used to state the properties *)
(* ================================================================== *)

(** Two addresses are the same up to letter case. *)
Definition same_address (a b : string) : Prop := toLowerCase a = toLowerCase b.




(** The fields of a JSON object, in order. *)
Definition json_keys (j : json) : list string :=
  match j with
  | JObj fields => map fst fields
  | _ => []
  end.

(** Well-formed field values: an address ethers reads, a hex byte string,
    an unsigned integer of a given width. *)
Definition is_address (s : string) : bool :=
  match getAddress s with Some _ => true | None => false end.

Definition is_bytes (s : string) : bool :=
  match getBytes s with Some _ => true | None => false end.

Definition is_uint (bits : Z) (v : JSValue) : bool :=
  match getBigInt v with
  | Some n => ((0 <=? n) && (n <? 2 ^ bits))%Z
  | None => false
  end.

(** A valid [SafeTransactionData]: every field is well formed for its type
    in the [SafeTx] struct. *)
Definition valid_SafeTransactionData (d : SafeTransactionData) : bool :=
  is_address (to d) && is_uint 256 (VStr (value d)) && is_bytes (data d)
  && is_uint 8 (VNum (operation d)) && is_uint 256 (VStr (safeTxGas d))
  && is_uint 256 (VStr (baseGas d)) && is_uint 256 (VStr (gasPrice d))
  && is_address (gasToken d) && is_address (refundReceiver d)
  && is_uint 256 (VNum (nonce d)).

(** A transition that leaves the pending set alone: the broadcast hash is
    kept, and the calls it makes do not include [removeTransaction]. *)
Definition keeps_pending (st st' : State) : Prop :=
  broadcastHash st' = broadcastHash st
  /\ exists l, effects st' = effects st ++ l
               /\ forall a, ~ In (RemoveTransaction a) l.

(** The shape checks of the manual flow. *)
Definition shape_ok (st : State) : bool :=
  matches_address_regex (signerAddress st)
  && matches_hex_regex (signatureData st).

(* ================================================================== *)
(** ** Sample values *)
(* ================================================================== *)

Module Sample.

Definition zeroAddress : string := "0x0000000000000000000000000000000000000000".
Definition recipient : string := "0x1111111111111111111111111111111111111111".
Definition safe : string := "0x2222222222222222222222222222222222222222".

(** Two owner addresses, the first in checksum case. *)
Definition ownerA : string := "0x5aAeb6053F3E94C9b9A09f33669435E7Ef1BeAed".
Definition ownerB : string := "0x3333333333333333333333333333333333333333".

(** The transaction of the scenario: nonce 4, a plain call of value 0. *)
Definition txdata : SafeTransactionData :=
  {| to := recipient; value := "0"; data := "0x"; operation := 0;
     safeTxGas := "0"; baseGas := "0"; gasPrice := "0";
     gasToken := zeroAddress; refundReceiver := zeroAddress; nonce := 4 |}.

Definition sigA : SafeSignature := EthSafeSignature ownerA "0xaa" false.
Definition sigB : SafeSignature := EthSafeSignature ownerB "0xbb" false.

Definition tx0 : EthSafeTransaction := new_EthSafeTransaction txdata.

Definition tx1 : EthSafeTransaction :=
  {| tx_data := txdata;
     signatures := [ (toLowerCase ownerA, sigA) ];
     is_instance := true |}.

Definition tx2 : EthSafeTransaction :=
  {| tx_data := txdata;
     signatures := [ (toLowerCase ownerA, sigA); (toLowerCase ownerB, sigB) ];
     is_instance := true |}.

Definition info (v : string) : SafeInfo :=
  {| owners := [ownerA; ownerB; recipient]; threshold := 2; info_nonce := 4;
     version := Some v |}.

Definition anvil : Chain := {| chain_id := 31337 |}.

(** The page as an owner sees it, for a Safe of a given version. *)
Definition envOf (owner v : string) : Env :=
  {| chain := Some anvil; connectedAddress := Some owner;
     safeAddress := safe; txHash := "0xabc"; isOwner := true;
     safeInfo := Some (info v) |}.

Definition env (v : string) : Env := envOf (toLowerCase ownerA) v.

(** The page with a transaction loaded. *)
Definition page (tx : EthSafeTransaction) : State := setSafeTx (Some tx) initialState.

(** The manual-signature form filled in. *)
Definition form (tx : EthSafeTransaction) (signer0 signature : string) : State :=
  setSignatureData signature
    (setSignerAddress signer0 (setShowAddSigModal true (page tx))).

End Sample.

(* ================================================================== *)
(** ** TxDetailsClient: chain names and loading the transaction *)
(* ================================================================== *)

(** The table of [getChainNameForCyfrin], in source order. *)
Definition chainMap : list (Z * string) :=
  [ (1, "ethereum"); (11155111, "sepolia"); (42161, "arbitrum");
    (421614, "arbitrum-sepolia"); (10, "optimism");
    (11155420, "optimism-sepolia"); (8453, "base"); (84532, "base-sepolia");
    (137, "polygon"); (80001, "polygon-mumbai"); (1101, "polygon-zkevm");
    (100, "gnosis"); (56, "bsc"); (43114, "avalanche"); (5000, "mantle");
    (59144, "linea"); (534352, "scroll"); (42220, "celo"); (324, "zksync");
    (7777777, "zora"); (31337, "anvil") ]%Z.

Fixpoint chainMap_get (m : list (Z * string)) (chainId0 : Z) : option string :=
  match m with
  | [] => None
  | (k, v) :: rest => if (k =? chainId0)%Z then Some v else chainMap_get rest chainId0
  end.

(** [chainMap[chainId] || chainId.toString()], for an integer chain id
    (printed in decimal, as JavaScript does below 10^21). *)
Definition getChainNameForCyfrin (chainId0 : Z) : string :=
  match chainMap_get chainMap chainId0 with
  | Some n => if truthy_string n then n else decimal_of_Z chainId0
  | None => decimal_of_Z chainId0
  end.

(** What the loop of [fetchTx] ends with: the transaction found (or none),
    or an exception from hashing on the way. *)
Inductive FetchResult :=
| Matched (tx : option EthSafeTransaction)
| FetchThrew.

Section FetchTx.

(** [kit.getTransactionHash], a call into the protocol kit; [None] stands
    for a rejected promise. *)
Variable getTransactionHash : EthSafeTransaction -> option string.

(** The [for] loop: the first transaction whose hash is the one in the
    route wins, and the search stops there. *)
Fixpoint findMatchingTx (txHash0 : string) (allTxs : list EthSafeTransaction)
  : FetchResult :=
  match allTxs with
  | [] => Matched None
  | tx :: rest =>
      match getTransactionHash tx with
      | None => FetchThrew
      | Some h =>
          if (h =? txHash0)%string then Matched (Some tx)
          else findMatchingTx txHash0 rest
      end
  end.

(** A transaction that hashes, to something else than [h]. *)
Definition passes_by (h : string) (tx : EthSafeTransaction) : Prop :=
  exists h', getTransactionHash tx = Some h' /\ h' <> h.

(** [fetchTx], run to its end without being cancelled; [kit] tells whether
    the protocol kit is there, [allTxs] is what [getAllTransactions]
    returns.  (The [loading] flag is not part of the state kept here.) *)
Definition fetchTx (kit : bool) (env : Env) (allTxs : list EthSafeTransaction)
  (st : State) : State :=
  if kit then
    match chain env with
    | Some _ =>
        match findMatchingTx (txHash env) allTxs with
        | Matched matchingTx => setSafeTx matchingTx st
        | FetchThrew => showToast error "Could not load transaction" st
        end
    | None => st
    end
  else st.

End FetchTx.

(** No two recorded signatures have the same signer up to letter case. *)
Definition distinct_signers (m : JSMap SafeSignature) : Prop :=
  NoDup (map (fun s => toLowerCase (signer s)) (Map_values m)).

(** The events through which a transaction object comes from outside the
    page: a load from the pending set, and a signing call that resolves
    with the signed transaction. *)
Definition brings_transaction (ev : Event) : Prop :=
  match ev with
  | TxLoaded _ => True
  | ClickSign (SignResolved (Some _)) => True
  | _ => False
  end.

(** [tx'] is [tx] with the same data and no signer lost. *)
Definition extends_transaction (tx tx' : EthSafeTransaction) : Prop :=
  tx_data tx' = tx_data tx
  /\ incl (Map_keys (signatures tx)) (Map_keys (signatures tx')).

(** The key under which a signature is recorded. *)
Definition signer_key (s : SafeSignature) : string := toLowerCase (signer s).

(** Two notations of the same unsigned integer, and of the same bytes. *)
Definition same_number (a b : string) : Prop :=
  getBigInt (VStr a) = getBigInt (VStr b).

Definition same_bytes (a b : string) : Prop := getBytes a = getBytes b.

(** Two [SafeTransactionData] that denote the same transaction: addresses
    equal up to letter case, numbers and bytes equal in value. *)
Definition same_transaction (d d' : SafeTransactionData) : Prop :=
  same_address (to d) (to d')
  /\ same_number (value d) (value d')
  /\ same_bytes (data d) (data d')
  /\ operation d = operation d'
  /\ same_number (safeTxGas d) (safeTxGas d')
  /\ same_number (baseGas d) (baseGas d')
  /\ same_number (gasPrice d) (gasPrice d')
  /\ same_address (gasToken d) (gasToken d')
  /\ same_address (refundReceiver d) (refundReceiver d')
  /\ nonce d = nonce d'.

(* ================================================================== *)
(** ** WalletConnectSignClient: versions, the signing handlers, the preview *)
(* ================================================================== *)

(** A version string ["major.minor.patch"]. *)
Definition version_string (major minor patch : nat) : string :=
  (decimal_of_nat major ++ "." ++ decimal_of_nat minor ++ "."
   ++ decimal_of_nat patch)%string.

(** Version [major.minor.patch] is at least 1.3.0. *)
Definition at_least_1_3_0 (major minor patch : nat) : bool :=
  (1 <? major)%nat || ((major =? 1)%nat && (3 <=? minor)%nat).

(** The four signing methods the page knows. *)
Definition supported_method (method : string) : Prop :=
  method = "personal_sign" \/ method = "eth_sign"
  \/ method = "eth_signTypedData" \/ method = "eth_signTypedData_v4".

(** [s.includes(sub)] *)
Fixpoint includes (sub s : string) : bool :=
  prefix sub s
  || match s with
     | EmptyString => false
     | String _ r => includes sub r
     end.

Module WalletConnect.

(** The pending request, as far as the handlers read it. *)
Record Request := { topic : string; request_id : Z }.

(** Calls that leave the signing page, in the order they are made. *)
Inductive Call :=
| ApproveRequest (topic0 : string) (id0 : Z) (result : string)
| RejectRequest (topic0 : string) (code0 : Z) (message0 : string) (id0 : Z)
| RemoveStoredRequest
| ClearPendingRequest
| Alert (text : string)
| Navigate (path : string).

Record Page := { isProcessing : bool; calls : list Call }.

Definition setIsProcessing (v : bool) (p : Page) : Page :=
  {| isProcessing := v; calls := calls p |}.

Definition call (c : Call) (p : Page) : Page :=
  {| isProcessing := isProcessing p; calls := calls p ++ [c] |}.

(** How the awaited calls between the method switch and [approveRequest]
    settle: one of them ([JSON.parse] of typed data, [createMessage],
    [signMessage], [getSignerAddress]) throws with a message, or they yield
    the signer's address and the owner's signature (its [data]) if there is
    one. *)
Inductive SigningOutcome :=
| SigningThrew (errorMessage : string)
| SigningDone (signerAddress0 : option string) (ownerSignature : option string).

(** The error message decides whether the failure counts as the user's
    rejection. *)
Definition isUserRejection (errorMessage : string) : bool :=
  includes "reject" (toLowerCase errorMessage)
  || includes "denied" (toLowerCase errorMessage)
  || includes "cancel" (toLowerCase errorMessage).

Definition method_supported (method : string) : bool :=
  (method =? "personal_sign")%string || (method =? "eth_sign")%string
  || (method =? "eth_signTypedData")%string
  || (method =? "eth_signTypedData_v4")%string.

Definition safePath (safe : string) : string := ("/safe/" ++ safe)%string.

(** The [catch] block of [handleSign]. *)
Definition handleSign_catch (r : Request) (safe errorMessage : string) (p : Page)
  : Page :=
  if isUserRejection errorMessage then
    call (Navigate (safePath safe))
      (call ClearPendingRequest
         (call RemoveStoredRequest
            (call (RejectRequest (topic r) 4001
                     "User rejected the signing request" (request_id r)) p)))
  else
    setIsProcessing false
      (call (Alert ("Failed to sign message: " ++ errorMessage)%string) p).

(** [handleSign]; [approveError] is the message of the exception that
    [approveRequest] throws, if it does. *)
Definition handleSign (currentRequest : option Request)
  (signParams : option (list json)) (kit : bool) (method safe : string)
  (o : SigningOutcome) (approveError : option string) (p : Page) : Page :=
  match currentRequest, signParams with
  | Some r, Some _ =>
      if kit then
        let p := setIsProcessing true p in
        if method_supported method then
          match o with
          | SigningThrew errorMessage => handleSign_catch r safe errorMessage p
          | SigningDone signerAddress0 ownerSignature =>
              match signerAddress0 with
              | Some a =>
                  if truthy_string a then
                    match ownerSignature with
                    | Some signature =>
                        let p := call (ApproveRequest (topic r) (request_id r)
                                                      signature) p in
                        match approveError with
                        | Some errorMessage =>
                            handleSign_catch r safe errorMessage p
                        | None =>
                            call (Navigate (safePath safe))
                              (call (Alert "Message signed successfully!")
                                 (call RemoveStoredRequest p))
                        end
                    | None =>
                        handleSign_catch r safe
                          "Failed to get signature from signed message" p
                    end
                  else handleSign_catch r safe "No signer address available" p
              | None => handleSign_catch r safe "No signer address available" p
              end
          end
        else
          handleSign_catch r safe
            ("Unsupported signing method: " ++ method)%string p
      else p
  | _, _ => p
  end.









(* -------- the message preview -------- *)

(** What the page shows as the message: a text, the decoding of a byte
    array by [TextDecoder], the pretty-printing of a JSON value by
    [JSON.stringify], or nothing ([JSON.stringify(undefined)]). *)
Inductive Preview :=
| PreviewText (s : string)
| PreviewDecoded (bytes : list byte)
| PreviewJson (j : json)
| PreviewUndefined.

Definition is_line_terminator (c : ascii) : bool :=
  (code c =? 10)%N || (code c =? 13)%N.

(** [s.match(/.{1,2}/g)]: runs of up to two characters, line terminators
    left out. *)
Fixpoint chunks (s : string) : list string :=
  match s with
  | EmptyString => []
  | String a r =>
      if is_line_terminator a then chunks r
      else
        match r with
        | EmptyString => [String a EmptyString]
        | String b r' =>
            if is_line_terminator b then String a EmptyString :: chunks r'
            else String a (String b EmptyString) :: chunks r'
        end
  end.

(** The value of the longest run of hex digits at the start of a string;
    [None] when there is none. *)
Fixpoint hex_run (s : string) (acc : Z) (seen : bool) : option Z :=
  match s with
  | EmptyString => if seen then Some acc else None
  | String c r =>
      match digit_value c with
      | Some d => hex_run r (16 * acc + d)%Z true
      | None => if seen then Some acc else None
      end
  end.

(** [parseInt(s, 16)]: leading white space, a sign and a "0x" prefix are
    skipped, then the hex digits are read; [None] stands for [NaN]. *)
Definition parseInt16 (s : string) : option Z :=
  let t := trim_start s in
  let negative := match t with String c _ => (c =? "-")%char | _ => false end in
  let t := match t with
           | String c r => if (c =? "-")%char || (c =? "+")%char then r else t
           | EmptyString => t
           end in
  let t := match t with
           | String c0 (String c1 r) =>
               if (c0 =? "0")%char && ((c1 =? "x")%char || (c1 =? "X")%char)
               then r else t
           | _ => t
           end in
  option_map (fun v => if negative then (- v)%Z else v) (hex_run t 0 false).

(** An element of [new Uint8Array([...])]: [NaN] becomes 0, a number is
    taken modulo 256. *)
Definition toUint8 (n : option Z) : byte :=
  match n with
  | None => x00
  | Some z => byte_of_N (Z.to_N (z mod 256))
  end.

(** [signParams[0] || signParams[1]]; [None] stands for [undefined]. *)
Definition first_truthy (signParams : list json) : option json :=
  match nth_error signParams 0 with
  | Some j => if truthy j then Some j else nth_error signParams 1
  | None => nth_error signParams 1
  end.

Section MessageToDisplay.

Variable JSON_parse : string -> option json.

(** [messageToDisplay], as computed on each render. *)
Definition messageToDisplay (method : string) (signParams : list json) : Preview :=
  if (method =? "personal_sign")%string || (method =? "eth_sign")%string then
    match first_truthy signParams with
    | Some (JStr message0) =>
        if prefix "0x" message0
        then PreviewDecoded
               (map (fun chunk => toUint8 (parseInt16 chunk))
                    (tl (chunks message0)))
        else PreviewText message0
    | _ => PreviewJson (JArr signParams)
    end
  else if (method =? "eth_signTypedData")%string
          || (method =? "eth_signTypedData_v4")%string then
    match nth_error signParams 1 with
    | Some (JStr typedDataString) =>
        match JSON_parse typedDataString with
        | Some typedData => PreviewJson typedData
        | None => PreviewJson (JArr signParams)
        end
    | Some typedData => PreviewJson typedData
    | None => PreviewUndefined
    end
  else PreviewText "".

End MessageToDisplay.

End WalletConnect.

(* ================================================================== *)
(** ** AppAddress and DataPreview *)
(* ================================================================== *)

(** [s.slice(a, b)] for [0 <= a <= b] *)
Definition slice (a b : nat) (s : string) : string := substring a (b - a) s.

(** [s.slice(a)] for [0 <= a] *)
Definition slice_from (a : nat) (s : string) : string :=
  substring a (String.length s - a) s.

(** [s.slice(-n)] for [0 < n] *)
Definition slice_last (n : nat) (s : string) : string :=
  substring (String.length s - n) n s.

(** An optional string when it is truthy. *)
Definition truthy_name (ensName : option string) : option string :=
  match ensName with
  | Some n => if truthy_string n then Some n else None
  | None => None
  end.

(** The component with the [truncate] property; [ensName] is what the
    [useEnsName] hook returns for the address. *)
Module AppAddress.

Definition displayAddress (ensName : option string) (truncate : bool)
  (address : string) : string :=
  match truthy_name ensName with
  | Some n => n
  | None =>
      if truncate && truthy_string address && (12 <? String.length address)%nat
      then (slice 0 6 address ++ "..." ++ slice_last 4 address)%string
      else address
  end.

End AppAddress.

(** The component of [AppAddress.tsx]; [ensName] is what its ENS hook
    returns for the address. *)
Module AppAddressTsx.

Definition displayAddress (ensName : option string) (address : string) : string :=
  match truthy_name ensName with
  | Some n => n
  | None =>
      if truthy_string address
      then (slice 0 6 address ++ "..." ++ slice_last 4 address)%string
      else ""
  end.

End AppAddressTsx.

(** What [DataPreview] renders: a dash, the whole value (with a "Hide"
    button or without), or the truncated preview with its "Show more"
    button.  [selector] is the bold part, [rest] the text after it. *)
Inductive DataView :=
| Dash
| FullValue (selector rest : string) (hideButton : bool)
| TruncatedPreview (selector rest : string).

Definition METHOD_SELECTOR_LEN : nat := 10.
Definition PREVIEW_LEN : nat := 80.

Definition DataPreview (showAll : bool) (value : string) : DataView :=
  if negb (truthy_string value) then Dash
  else if showAll || (String.length value <=? PREVIEW_LEN)%nat then
    FullValue (slice 0 METHOD_SELECTOR_LEN value)
              (slice_from METHOD_SELECTOR_LEN value)
              (PREVIEW_LEN <? String.length value)%nat
  else
    TruncatedPreview (slice 0 METHOD_SELECTOR_LEN value)
                     (slice METHOD_SELECTOR_LEN PREVIEW_LEN value).

(** The text of a view, the ellipsis of the preview left out. *)
Definition view_text (v : DataView) : string :=
  match v with
  | Dash => "-"
  | FullValue selector rest _ => (selector ++ rest)%string
  | TruncatedPreview selector rest => (selector ++ rest)%string
  end.

(** [showAll] after a click on the button of the view, if it has one. *)
Definition click (showAll : bool) (value : string) : option bool :=
  match DataPreview showAll value with
  | FullValue _ _ true => Some false
  | TruncatedPreview _ _ => Some true
  | _ => None
  end.

(* ================================================================== *)
(** ** ConnectSafeClient and the ENS hooks *)
(* ================================================================== *)

Definition is_ens_label_char (c : ascii) : bool :=
  in_range 97 122 c || in_range 65 90 c || is_digit c || (c =? "-")%char.

(** [/^[a-zA-Z0-9-]*\.eth$/] *)
Fixpoint label_then_eth (s : string) : bool :=
  (s =? ".eth")%string
  || match s with
     | String c r => is_ens_label_char c && label_then_eth r
     | EmptyString => false
     end.

(** [/^[a-zA-Z0-9-]+\.eth$/] *)
Definition matches_ens_regex (s : string) : bool :=
  match s with
  | String c r => is_ens_label_char c && label_then_eth r
  | EmptyString => false
  end.

Module ConnectSafe.

(** What the hook that resolves a name to an address returns. *)
Record EnsAddress := {
  ens_address : option string;
  isLoading : bool;
  isEnsName : bool
}.

(** [useEnsAddress(ensName)]; [data] and [queryLoading] are what wagmi's
    query reports. *)
Definition useEnsAddress (data : option string) (queryLoading : bool)
  (ensName : string) : EnsAddress :=
  let isValidEnsName := truthy_string ensName && matches_ens_regex ensName in
  {| ens_address := data;
     isLoading := isValidEnsName && queryLoading;
     isEnsName := isValidEnsName |}.

(** Calls that leave the form, in the order they are made;
    [connectNewSafe] gets the chain as [Number(selectedChain)]. *)
Inductive Call :=
| ConnectNewSafe (address chain : string)
| AddSafe (chain address name : string)
| Navigate (path : string).

Record Form := { error : option string; loading : bool; calls : list Call }.

Definition setError (e : option string) (f : Form) : Form :=
  {| error := e; loading := loading f; calls := calls f |}.

Definition setLoading (b : bool) (f : Form) : Form :=
  {| error := error f; loading := b; calls := calls f |}.

Definition call (c : Call) (f : Form) : Form :=
  {| error := error f; loading := loading f; calls := calls f ++ [c] |}.

(** How [connectNewSafe] settles: it throws (an [Error] with its message,
    or something else), or returns nothing, an object with an [error], or
    the Safe's metadata. *)
Inductive ConnectOutcome :=
| ConnectThrew (message : option string)
| ConnectedNothing
| ConnectedError (error0 : string)
| Connected.

(** [addressBook]: chain id, then address, then name. *)
Definition AddressBook := JSMap (JSMap string).

(** [addressBook[chain] && addressBook[chain][address]], as a condition. *)
Definition registered (addressBook : AddressBook) (chain address : string) : bool :=
  match Map_get addressBook chain with
  | Some book =>
      match Map_get book address with
      | Some name => truthy_string name
      | None => false
      end
  | None => false
  end.

Definition fail (message : string) (f : Form) : Form :=
  setLoading false (setError (Some message) f).

(** [safeAddress]: the resolved address for an ENS name, the input
    otherwise. *)
Definition safeAddress (ens : EnsAddress) (addressInput : string) : option string :=
  if isEnsName ens then ens_address ens else Some addressInput.

Definition handleAddSafe (ens : EnsAddress)
  (addressInput selectedChain safeName randomName : string)
  (addressBook : AddressBook) (outcome : ConnectOutcome) (f : Form) : Form :=
  let f := setError None (setLoading true f) in
  if isLoading ens then fail "Still resolving ENS name..." f
  else if isEnsName ens
          && negb (match truthy_name (ens_address ens) with
                   | Some _ => true | None => false end)
  then fail "Could not resolve ENS name to an address" f
  else
    match safeAddress ens addressInput with
    | Some a =>
        if truthy_string a && matches_address_regex a then
          if negb (truthy_string selectedChain) then
            fail "Please select a network" f
          else
            let nameToStore :=
              if truthy_string safeName then safeName else randomName in
            if registered addressBook selectedChain a then
              fail "This Safe address is already registered on the selected network." f
            else
              let f := call (ConnectNewSafe a selectedChain) f in
              match outcome with
              | ConnectThrew message =>
                  setLoading false
                    (setError
                       (Some (match message with
                              | Some m => m
                              | None => "Failed to connect or add Safe"
                              end)) f)
              | ConnectedNothing => fail "Failed to connect or add Safe" f
              | ConnectedError e => fail e f
              | Connected =>
                  setLoading false
                    (call (Navigate "/accounts")
                       (call (AddSafe selectedChain a nameToStore) f))
              end
        else fail "Invalid Safe address" f
    | None => fail "Invalid Safe address" f
    end.

(** No Safe is added and the form stays. *)
Definition adds_nothing (new : list Call) : Prop :=
  forall c, In c new -> exists a chain, c = ConnectNewSafe a chain.

End ConnectSafe.

(* ================================================================== *)
(** ** WagmiConfigProvider: RPC overrides and transports *)
(* ================================================================== *)

Module Wagmi.

Record RpcUrls := { http : list string; webSocket : option (list string) }.

(** A chain, with the fields that the provider reads or writes. *)
Record Chain := {
  id : Z;
  name : string;
  rpcUrls : JSMap RpcUrls;
  iconUrl : option string
}.

Definition addChainIcon (chain : Chain) (iconUrl0 : string) : Chain :=
  {| id := id chain; name := name chain; rpcUrls := rpcUrls chain;
     iconUrl := Some iconUrl0 |}.

Definition withOptionalRpcOverride (chain : Chain) (envRpcUrl : option string)
  : Chain :=
  match truthy_name envRpcUrl with
  | None => chain
  | Some url =>
      {| id := id chain; name := name chain;
         rpcUrls := Map_set (rpcUrls chain) "default"
                            {| http := [url]; webSocket := None |};
         iconUrl := iconUrl chain |}
  end.

Definition anvilTwo : Chain :=
  {| id := 31338; name := "Anvil Two";
     rpcUrls := [("default", {| http := ["http://127.0.0.1:8546"];
                                webSocket := None |})];
     iconUrl := None |}.

(** [fallback([unstable_connector(injected), http()])] and
    [fallback([http(url)])] *)
Inductive Transport :=
| WalletThenPublic
| DirectHttp (url : string).

(** An object keyed by chain id, read by key. *)
Definition Transports := Z -> option Transport.

Definition set_transport (acc : Transports) (key : Z) (t : Transport)
  : Transports :=
  fun k => if (k =? key)%Z then Some t else acc k.

Definition transports (configChains : list Chain) : Transports :=
  fold_left (fun acc chain => set_transport acc (id chain) WalletThenPublic)
            configChains (fun _ => None).

Definition e2eChains (hardhatIcon : string) (configChains : list Chain)
  : list Chain :=
  configChains ++ [addChainIcon anvilTwo hardhatIcon].

Definition e2eTransports (hardhatIcon : string) (configChains : list Chain)
  : Transports :=
  fold_left
    (fun acc chain =>
       if (id chain =? id anvilTwo)%Z
       then set_transport acc (id chain) (DirectHttp "http://127.0.0.1:8546")
       else set_transport acc (id chain) WalletThenPublic)
    (e2eChains hardhatIcon configChains) (fun _ => None).

End Wagmi.

(* ================================================================== *)
(** * Properties *)
(* ================================================================== *)

(* ================================================================== *)
(** ** Test vectors of the hashing primitives *)
(* ================================================================== *)

Example keccak256_empty :
  hexlify_bytes (keccak256 []) =
  "c5d2460186f7233c927e7db2dcc703c0e500b653ca82273b7bfad8045d85a470".
Proof. vm_compute. reflexivity. Qed.

Example keccak256_domain_type :
  hexlify_bytes (keccak256 (utf8 "EIP712Domain(uint256 chainId,address verifyingContract)")) =
  "47e79534a245952e8b16893a336b85a3d9ea9fa8c573f3d803afb92a79469218".
Proof. vm_compute. reflexivity. Qed.

Lemma keccak256_length (msg : list byte) : List.length (keccak256 msg) = 32%nat.
Proof.
  unfold keccak256, Keccak.keccak256_N, Keccak.squeeze.
  rewrite length_map. reflexivity.
Qed.

Example getAddress_checksum :
  getAddress "0x5aaeb6053f3e94c9b9a09f33669435e7ef1beaed"
  = Some "0x5aAeb6053F3E94C9b9A09f33669435E7Ef1BeAed".
Proof. vm_compute. reflexivity. Qed.

Example getAddress_bad_checksum :
  getAddress "0x5AAeb6053F3E94C9b9A09f33669435E7Ef1BeAed" = None.
Proof. vm_compute. reflexivity. Qed.

Example getBigInt_forms :
  map getBigInt [VStr "1000"; VStr "0x10"; VStr " 7 "; VStr "-0"; VStr "";
                 VStr "1e3"; VStr "0x"; VNum 5]
  = [Some 1000; Some 16; Some 7; Some 0; None; None; None; Some 5]%Z.
Proof. vm_compute. reflexivity. Qed.

Example hashMessage_hello :
  hexlify_bytes (hashMessage "hello") =
  "50b2c43fd39106bafbba0da34fc430e1f91e3c96ea2acee2bc34119f92b37750".
Proof. vm_compute. reflexivity. Qed.

Lemma hashStruct_length struct fs o h :
  hashStruct struct fs o = Some h -> List.length h = 32%nat.
Proof.
  unfold hashStruct. destruct (encodeData fs o); simpl; [|discriminate].
  intros [= <-]. apply keccak256_length.
Qed.

Lemma hashDomain_length d h : hashDomain d = Some h -> List.length h = 32%nat.
Proof. apply hashStruct_length. Qed.

Lemma TypedDataEncoder_hash_length d struct fs o h :
  TypedDataEncoder_hash d struct fs o = Some h -> List.length h = 32%nat.
Proof.
  unfold TypedDataEncoder_hash.
  destruct (hashDomain d); simpl; [|discriminate].
  destruct (hashStruct struct fs o); simpl; [|discriminate].
  intros [= <-]. apply keccak256_length.
Qed.

(* ================================================================== *)
(** ** Maps and signatures *)
(* ================================================================== *)

Section JSMapFacts.
Context {V : Type}.
Implicit Types (m : JSMap V) (k : string) (v : V).

Lemma Map_get_In m k v : Map_get m k = Some v -> In (k, v) m.
Proof.
  induction m as [|[k' v'] m IH]; simpl; [discriminate|].
  destruct (String.eqb_spec k' k) as [->|Hne].
  - intros [= ->]. now left.
  - intros H. right. now apply IH.
Qed.

Lemma Map_has_key m k : Map_has m k = true <-> In k (Map_keys m).
Proof.
  unfold Map_has, Map_keys.
  induction m as [|[k' v'] m IH]; simpl.
  - split; [discriminate | tauto].
  - destruct (String.eqb_spec k' k) as [->|Hne].
    + split; auto.
    + rewrite IH. split; [auto | intros [H|H]; [contradiction | exact H]].
Qed.

Lemma Map_set_In m k v k' v' :
  In (k', v') (Map_set m k v) -> In (k', v') m \/ (k', v') = (k, v).
Proof.
  induction m as [|[k0 v0] m IH]; simpl.
  - intros [H|[]]. right. now symmetry.
  - destruct (String.eqb_spec k0 k) as [->|Hne]; simpl.
    + intros [H|H]; [right; now symmetry | left; now right].
    + intros [H|H]; [left; now left|].
      destruct (IH H) as [H'|H']; [left; now right | now right].
Qed.


Lemma Map_set_fresh m k v :
  ~ In k (Map_keys m) -> Map_set m k v = m ++ [(k, v)].
Proof.
  unfold Map_keys.
  induction m as [|[k0 v0] m IH]; simpl; [reflexivity|].
  intros Hnin. destruct (String.eqb_spec k0 k) as [->|Hne].
  - exfalso. apply Hnin. now left.
  - f_equal. apply IH. intros H. apply Hnin. now right.
Qed.

(** Setting a key that is present keeps the order of the keys. *)
Lemma Map_set_present m k v :
  In k (Map_keys m) -> Map_keys (Map_set m k v) = Map_keys m.
Proof.
  unfold Map_keys.
  induction m as [|[k0 v0] m IH]; simpl; [intros []|].
  destruct (String.eqb_spec k0 k) as [->|Hne]; [reflexivity|].
  intros [H|H]; [contradiction|]. simpl. f_equal. now apply IH.
Qed.

End JSMapFacts.

Lemma keyed_by_signer_set m s :
  keyed_by_signer m -> keyed_by_signer (Map_set m (toLowerCase (signer s)) s).
Proof.
  intros Hm. unfold keyed_by_signer in *. rewrite Forall_forall in *.
  intros [k v] Hin. destruct (Map_set_In _ _ _ _ _ Hin) as [H|H].
  - now apply Hm.
  - injection H as -> ->. reflexivity.
Qed.

Lemma addSignature_keyed tx s tx' :
  keyed_by_signer (signatures tx) -> addSignature tx s = Some tx' ->
  keyed_by_signer (signatures tx').
Proof.
  unfold addSignature. destruct (is_instance tx); [|discriminate].
  intros Hk [= <-]. simpl. now apply keyed_by_signer_set.
Qed.

Lemma addSignature_instance tx s tx' :
  addSignature tx s = Some tx' -> is_instance tx' = true.
Proof.
  unfold addSignature. destruct (is_instance tx); [|discriminate].
  now intros [= <-].
Qed.

Lemma addSignatures_keyed ss : forall tx tx',
  keyed_by_signer (signatures tx) -> addSignatures tx ss = Some tx' ->
  keyed_by_signer (signatures tx').
Proof.
  induction ss as [|s ss IH]; simpl; intros tx tx' Hk.
  - now intros [= <-].
  - destruct (addSignature tx s) as [tx1|] eqn:E; simpl; [|discriminate].
    apply IH. eapply addSignature_keyed; eauto.
Qed.

(** Every transaction built from a fresh [EthSafeTransaction] by
    [addSignature] has its signatures keyed by lower-cased signer. *)
Lemma new_transaction_keyed d ss tx :
  addSignatures (new_EthSafeTransaction d) ss = Some tx ->
  keyed_by_signer (signatures tx).
Proof. apply addSignatures_keyed. constructor. Qed.

Lemma addSignatures_total ss : forall tx,
  is_instance tx = true -> exists tx', addSignatures tx ss = Some tx'.
Proof.
  induction ss as [|s ss IH]; simpl; intros tx Hi; [eauto|].
  unfold addSignature at 1. rewrite Hi. simpl. apply IH. reflexivity.
Qed.

Lemma addSignatures_values ss : forall tx tx',
  NoDup (Map_keys (signatures tx) ++ map (fun s => toLowerCase (signer s)) ss) ->
  addSignatures tx ss = Some tx' ->
  Map_values (signatures tx') = Map_values (signatures tx) ++ ss
  /\ tx_data tx' = tx_data tx.
Proof.
  induction ss as [|s ss IH]; simpl; intros tx tx' Hnd.
  - intros [= <-]. now rewrite app_nil_r.
  - unfold addSignature at 1. destruct (is_instance tx); simpl; [|discriminate].
    intros H. apply IH in H; simpl in *.
    + destruct H as [Hv Hd]. split; [|exact Hd].
      rewrite Hv, Map_set_fresh.
      * unfold Map_values. rewrite map_app. simpl. now rewrite <- app_assoc.
      * apply NoDup_remove_2 in Hnd. intros Hin. apply Hnd.
        apply in_or_app. now left.
    + rewrite Map_set_fresh.
      * unfold Map_keys. rewrite map_app. simpl. rewrite <- app_assoc. simpl.
        apply NoDup_remove_1 in Hnd as Hnd1. apply NoDup_remove_2 in Hnd as Hnd2.
        clear Hnd.
        assert (Hperm : forall (l1 l2 : list string) x,
                   NoDup (l1 ++ l2) -> ~ In x (l1 ++ l2) -> NoDup (l1 ++ x :: l2)).
        { clear. induction l1 as [|y l1 IH]; simpl; intros l2 x Hnd Hx.
          - now constructor.
          - inversion Hnd; subst. constructor.
            + rewrite in_app_iff in *. simpl. intros [H|[H|H]]; subst; tauto.
            + apply IH; tauto. }
        now apply Hperm.
      * apply NoDup_remove_2 in Hnd. intros Hin. apply Hnd.
        apply in_or_app. now left.
Qed.

(* ================================================================== *)
(** ** Threshold and signed-by checks *)
(* ================================================================== *)

Lemma isExecutable_spec tx i :
  isExecutable (Some tx) (Some i) = true
  <-> (threshold i <= Z.of_nat (Map_size (signatures tx)))%Z.
Proof. unfold isExecutable. apply Z.leb_le. Qed.

Lemma effects_handleBroadcast o st tx :
  safeTx st = Some tx ->
  effects (handleBroadcast o st) = effects st ++ [CallBroadcast tx].
Proof.
  intros H. unfold handleBroadcast. rewrite H.
  destruct o as [[[h|]|]|err]; reflexivity.
Qed.

Lemma app_singleton_neq {A} (l : list A) (x : A) : l <> l ++ [x].
Proof.
  intros H. apply (f_equal (@List.length A)) in H.
  rewrite length_app in H. simpl in H. lia.
Qed.

(** C5. A transaction is executable exactly when the number of recorded
    signatures reaches the Safe's threshold: [isExecutable] holds iff
    [signatures.size >= threshold], a press on the broadcast button of an
    idle page reaches the broadcaster iff that holds, one signature short of
    the threshold the press does nothing, and at the threshold it goes
    through. *)
Theorem C5_executable_iff_threshold_reached
  (env : Env) (st : State) (tx : EthSafeTransaction) (i : SafeInfo)
  (o : BroadcastOutcome)
  (Htx : safeTx st = Some tx) (Hinfo : safeInfo env = Some i)
  (Hidle : broadcasting st = false) :
  let size := Z.of_nat (Map_size (signatures tx)) in
  (isExecutable (Some tx) (Some i) = true <-> (threshold i <= size)%Z)
  /\ (effects (step env st (ClickBroadcast o)) = effects st ++ [CallBroadcast tx]
      <-> (threshold i <= size)%Z)
  /\ (size = (threshold i - 1)%Z ->
      isExecutable (Some tx) (Some i) = false
      /\ step env st (ClickBroadcast o) = st)
  /\ (size = threshold i ->
      isExecutable (Some tx) (Some i) = true
      /\ step env st (ClickBroadcast o) = handleBroadcast o st).
Proof.
  intros size.
  assert (Hstep : step env st (ClickBroadcast o)
                  = if isExecutable (Some tx) (Some i)
                    then handleBroadcast o st else st).
  { unfold step, loaded, broadcastDisabled. rewrite Htx, Hinfo, Hidle.
    cbv beta iota. rewrite orb_false_r.
    destruct (isExecutable (Some tx) (Some i)); reflexivity. }
  pose proof (isExecutable_spec tx i) as Hspec. fold size in Hspec.
  split; [exact Hspec|]. split; [|split].
  - rewrite Hstep. destruct (isExecutable (Some tx) (Some i)) eqn:E.
    + split; [intros _; now apply Hspec | intros _; now apply effects_handleBroadcast].
    + split.
      * intros H. exfalso. exact (app_singleton_neq _ _ H).
      * intros H. apply Hspec in H. discriminate.
  - intros Hs. assert (E : isExecutable (Some tx) (Some i) = false).
    { destruct (isExecutable (Some tx) (Some i)); [|reflexivity].
      assert (threshold i <= size)%Z by now apply Hspec. lia. }
    rewrite Hstep, E. auto.
  - intros Hs. assert (E : isExecutable (Some tx) (Some i) = true).
    { apply Hspec. lia. }
    rewrite Hstep, E. auto.
Qed.

Lemma C5_witness :
  let st := Sample.page Sample.tx2 in
  let o := Rejected "reverted" in
  (isExecutable (Some Sample.tx2) (Some (Sample.info "1.4.1")) = true
   <-> (2 <= 2)%Z)
  /\ (effects (step (Sample.env "1.4.1") st (ClickBroadcast o))
      = effects st ++ [CallBroadcast Sample.tx2] <-> (2 <= 2)%Z)
  /\ (2%Z = (2 - 1)%Z ->
      isExecutable (Some Sample.tx2) (Some (Sample.info "1.4.1")) = false
      /\ step (Sample.env "1.4.1") st (ClickBroadcast o) = st)
  /\ (2%Z = 2%Z ->
      isExecutable (Some Sample.tx2) (Some (Sample.info "1.4.1")) = true
      /\ step (Sample.env "1.4.1") st (ClickBroadcast o) = handleBroadcast o st).
Proof.
  exact (C5_executable_iff_threshold_reached
           (Sample.env "1.4.1") (Sample.page Sample.tx2) Sample.tx2
           (Sample.info "1.4.1") (Rejected "reverted")
           eq_refl eq_refl eq_refl).
Defined.

Lemma find_some_iff {A} (p : A -> bool) (l : list A) :
  (exists x, find p l = Some x) <-> (exists x, In x l /\ p x = true).
Proof.
  split.
  - intros [x H]. exists x. now apply find_some in H.
  - intros [x [Hin Hp]]. destruct (find p l) as [y|] eqn:E; [eauto|].
    exfalso. pose proof (find_none _ _ E _ Hin) as Hn. congruence.
Qed.

Lemma keyed_keys_values (m : JSMap SafeSignature) k :
  keyed_by_signer m ->
  (In k (Map_keys m) <-> exists s, In s (Map_values m) /\ toLowerCase (signer s) = k).
Proof.
  intros Hk. unfold keyed_by_signer in Hk. rewrite Forall_forall in Hk.
  unfold Map_keys, Map_values. rewrite in_map_iff. split.
  - intros [[k' s] [Hfst Hin]]. simpl in Hfst. subst k'.
    exists s. split; [apply in_map_iff; exists (k, s); auto|].
    pose proof (Hk _ Hin) as E. simpl in E. now symmetry.
  - intros [s [Hin Hs]]. apply in_map_iff in Hin as [[k' s'] [Hsnd Hin]].
    simpl in Hsnd. subst s'. exists (k', s). split; [|exact Hin].
    pose proof (Hk _ Hin) as E. simpl in *. now rewrite E.
Qed.

Lemma lower_ascii_idempotent c : lower_ascii (lower_ascii c) = lower_ascii c.
Proof. destruct c as [[] [] [] [] [] [] [] []]; reflexivity. Qed.

(** Lower-casing twice is lower-casing once: a lower-cased key is its own
    lower-case form. *)
Lemma toLowerCase_idempotent s : toLowerCase (toLowerCase s) = toLowerCase s.
Proof.
  unfold toLowerCase. induction s as [|c s IH]; [reflexivity|].
  cbn [map_string]. now rewrite lower_ascii_idempotent, IH.
Qed.

Lemma same_address_lower a : same_address (toLowerCase a) a.
Proof. apply toLowerCase_idempotent. Qed.

(** C9. Whether an address has signed is decided without regard to letter
    case: for a transaction whose signatures were recorded by
    [addSignature], [hasSignedThisTx] is true exactly when some recorded
    signature's signer equals the address up to case, and the lookup of the
    share-signature handler finds a signature in exactly that case too. *)
Theorem C9_hasSigned_ignores_case
  (tx : EthSafeTransaction) (a : string)
  (Hkeys : keyed_by_signer (signatures tx)) (Ha : a <> "") :
  (hasSignedThisTx (Some tx) (Some a) = true
   <-> exists s, In s (Map_values (signatures tx)) /\ same_address (signer s) a)
  /\ ((exists s, findUserSignature tx a = Some s)
      <-> exists s, In s (Map_values (signatures tx)) /\ same_address (signer s) a).
Proof.
  split.
  - unfold hasSignedThisTx. destruct a as [|c a]; [contradiction|]. simpl truthy_string.
    cbv iota. rewrite Map_has_key. now apply keyed_keys_values.
  - unfold findUserSignature. rewrite find_some_iff.
    split; intros [s [Hin Hs]]; exists s; (split; [exact Hin|]).
    + now apply String.eqb_eq.
    + now apply String.eqb_eq.
Qed.

Lemma C9_witness :
  (hasSignedThisTx (Some Sample.tx2) (Some (toUpperCase Sample.ownerA)) = true
   <-> exists s, In s (Map_values (signatures Sample.tx2))
                 /\ same_address (signer s) (toUpperCase Sample.ownerA))
  /\ ((exists s, findUserSignature Sample.tx2 (toUpperCase Sample.ownerA) = Some s)
      <-> exists s, In s (Map_values (signatures Sample.tx2))
                    /\ same_address (signer s) (toUpperCase Sample.ownerA)).
Proof.
  apply (C9_hasSigned_ignores_case Sample.tx2 (toUpperCase Sample.ownerA)).
  - repeat constructor.
  - discriminate.
Defined.

Example hasSigned_upper_case :
  hasSignedThisTx (Some Sample.tx2) (Some (toUpperCase Sample.ownerA)) = true.
Proof. reflexivity. Qed.

(* ================================================================== *)
(** ** Adding a signature by hand *)
(* ================================================================== *)

(** The handler either reports an error and records nothing, or records
    the typed-in signature as an EOA signature. *)
Lemma handleAddSignature_cases env st :
  (safeTx (handleAddSignature env st) = safeTx st
   /\ effects (handleAddSignature env st) = effects st)
  \/ (exists tx tx' c,
        safeTx st = Some tx /\ chain env = Some c
        /\ shape_ok st = true
        /\ addSignature tx (EthSafeSignature (signerAddress st) (signatureData st) false)
           = Some tx'
        /\ safeTx (handleAddSignature env st) = Some (spread tx')
        /\ effects (handleAddSignature env st)
           = effects st ++ [SaveTransaction (safeAddress env) tx' (chainId_string c)]
        /\ toast (handleAddSignature env st)
           = Some {| toast_type := success;
                     message := "Signature added successfully!" |}).
Proof.
  unfold handleAddSignature, shape_ok.
  destruct (safeTx st) as [tx|] eqn:Etx; [|now left].
  destruct (chain env) as [c|] eqn:Ec; [|now left].
  destruct (negb (truthy_string (signerAddress st))
            || negb (truthy_string (signatureData st))); [now left|].
  destruct (matches_address_regex (signerAddress st)); simpl; [|now left].
  destruct (matches_hex_regex (signatureData st)); simpl; [|now left].
  destruct (addSignature tx _) as [tx'|] eqn:Eadd; [|now left].
  right. exists tx, tx', c. repeat split; try reflexivity; assumption.
Qed.

(** C10. A signature recorded through the manual flow is never a contract
    signature: after [handleAddSignature], every entry of the transaction's
    signature map either was there before, unchanged, or is the typed-in
    signer and signature with [isContractSignature = false]. *)
Theorem C10_manual_signature_is_not_contract
  (env : Env) (st : State) (tx' : EthSafeTransaction)
  (k : string) (s : SafeSignature)
  (Hafter : safeTx (handleAddSignature env st) = Some tx')
  (Hin : In (k, s) (signatures tx')) :
  (exists tx, safeTx st = Some tx /\ In (k, s) (signatures tx))
  \/ (isContractSignature s = false
      /\ signer s = signerAddress st /\ sig_data s = signatureData st
      /\ k = toLowerCase (signerAddress st)).
Proof.
  destruct (handleAddSignature_cases env st) as [[Hsame _]|H].
  - left. exists tx'. split; [congruence | exact Hin].
  - destruct H as (tx & tx1 & c & Htx & _ & _ & Hadd & Hnew & _).
    rewrite Hnew in Hafter. injection Hafter as <-. simpl in Hin.
    unfold addSignature in Hadd. destruct (is_instance tx); [|discriminate].
    injection Hadd as <-. simpl in Hin.
    apply Map_set_In in Hin as [Hold|Hnew'].
    + left. eauto.
    + right. injection Hnew' as -> ->. simpl. auto.
Qed.

Lemma C10_witness :
  let st := Sample.form Sample.tx1 Sample.ownerB "0xbb" in
  (exists tx, safeTx st = Some tx
              /\ In (toLowerCase Sample.ownerB, Sample.sigB) (signatures tx))
  \/ (isContractSignature Sample.sigB = false
      /\ signer Sample.sigB = signerAddress st
      /\ sig_data Sample.sigB = signatureData st
      /\ toLowerCase Sample.ownerB = toLowerCase (signerAddress st)).
Proof.
  apply (C10_manual_signature_is_not_contract
           (Sample.env "1.4.1") (Sample.form Sample.tx1 Sample.ownerB "0xbb")
           (spread Sample.tx2)).
  - reflexivity.
  - simpl. right. left. reflexivity.
Defined.




Example forged_signature_counts :
  let st := handleAddSignature (Sample.env "1.4.1")
              (Sample.form Sample.tx1 Sample.ownerB "0xab") in
  isExecutable (Some Sample.tx1) (Some (Sample.info "1.4.1")) = false
  /\ isExecutable (safeTx st) (Some (Sample.info "1.4.1")) = true.
Proof. split; reflexivity. Qed.

Example second_manual_add_fails :
  let env := Sample.env "1.4.1" in
  let st1 := handleAddSignature env (Sample.form Sample.tx0 Sample.ownerA "0xaa") in
  let st2 := handleAddSignature env
               (setSignatureData "0xbb" (setSignerAddress Sample.ownerB st1)) in
  toast st2 = Some {| toast_type := error; message := "Failed to add signature" |}
  /\ safeTx st2 = safeTx st1.
Proof. split; reflexivity. Qed.

(* ================================================================== *)
(** ** Export and share links *)
(* ================================================================== *)

Lemma wireSignature_keys s :
  json_keys (wireSignature s) = ["signer"; "data"; "isContractSignature"].
Proof. reflexivity. Qed.

(** Every transaction whose signature map is keyed by signer, the kit's
    object or a copy of it, carries the signatures of a transaction built
    by adding its signatures in turn. *)
Lemma keyed_transaction_is_built (tx : EthSafeTransaction) :
  keyed_by_signer (signatures tx) ->
  NoDup (Map_keys (signatures tx)) ->
  exists built,
    addSignatures (new_EthSafeTransaction (tx_data tx)) (Map_values (signatures tx))
    = Some built
    /\ tx_data built = tx_data tx /\ signatures built = signatures tx.
Proof.
  intros Hk Hnd.
  assert (G : forall l m0,
             keyed_by_signer l -> NoDup (Map_keys m0 ++ Map_keys l) ->
             exists built,
               addSignatures {| tx_data := tx_data tx; signatures := m0;
                                is_instance := true |} (Map_values l)
               = Some built
               /\ tx_data built = tx_data tx /\ signatures built = m0 ++ l).
  { induction l as [|[k v] l IH]; intros m0 Hkl Hn.
    - eexists. simpl. rewrite app_nil_r. repeat split.
    - inversion Hkl as [|? ? Hkv Hkl']; subst. simpl in Hkv. subst k.
      change (Map_values ((toLowerCase (signer v), v) :: l))
        with (v :: Map_values l).
      cbn [addSignatures]. unfold addSignature.
      cbn [is_instance option_bind tx_data signatures].
      assert (Hfresh : ~ In (toLowerCase (signer v)) (Map_keys m0)).
      { apply NoDup_remove_2 in Hn. intros Hin. apply Hn.
        apply in_or_app. now left. }
      rewrite Map_set_fresh by exact Hfresh.
      destruct (IH (m0 ++ [(toLowerCase (signer v), v)]) Hkl') as (b & Hb & Hd & Hs).
      + unfold Map_keys in *. rewrite map_app, <- app_assoc. exact Hn.
      + exists b. rewrite Hb, Hd, Hs, <- app_assoc. repeat split. }
  destruct (G (signatures tx) [] Hk Hnd) as (b & Hb & Hd & Hs).
  exists b. repeat split; assumption.
Qed.

(** C8. The signatures of an exported or shared transaction.  Let the
    signatures [ss] have been added one after the other (by distinct
    signers) to a fresh transaction, and let the page hold the resulting
    object or any copy with its data and its signature map, such as the
    copy [{ ...safeTx }] that the page itself makes when it inserts a
    signature by hand.  Then both the export file and the share link carry
    one object per signature, in the order of addition, each with the
    fields [signer], [data], [isContractSignature] and nothing else,
    whatever further properties the signature objects hold. *)
Theorem C8_wire_signatures_in_insertion_order
  (env : Env) (st : State) (d : SafeTransactionData)
  (ss : list SafeSignature) (built tx : EthSafeTransaction) (c : Chain)
  (Hdistinct : NoDup (map (fun s => toLowerCase (signer s)) ss))
  (Hbuilt : addSignatures (new_EthSafeTransaction d) ss = Some built)
  (Hdata : tx_data tx = tx_data built)
  (Hsigs : signatures tx = signatures built)
  (Htx : safeTx st = Some tx) (Hc : chain env = Some c) :
  let wire :=
    JObj [ ("tx", JObj [ ("data", json_of_SafeTransactionData d);
                         ("signatures", JArr (map wireSignature ss)) ]) ] in
  exportSignatures tx = map wireSignature ss
  /\ Forall (fun j => json_keys j = ["signer"; "data"; "isContractSignature"])
            (exportSignatures tx)
  /\ (forall i s, nth_error ss i = Some s ->
        nth_error (exportSignatures tx) i
        = Some (JObj [ ("signer", JStr (signer s));
                       ("data", JStr (sig_data s));
                       ("isContractSignature", JBool (isContractSignature s)) ]))
  /\ (exists filename,
        effects (handleExportSingle st) = effects st ++ [Download filename wire])
  /\ effects (handleShareLink env st)
     = effects st ++ [ClipboardWrite (ImportTxUrl (safeAddress env) wire (chain_id c))].
Proof.
  intros wire.
  destruct (addSignatures_values ss (new_EthSafeTransaction d) built) as [Hv Hd];
    [exact Hdistinct | exact Hbuilt |]. simpl in Hv, Hd.
  rewrite <- Hsigs in Hv. rewrite <- Hdata in Hd.
  assert (Hexp : exportSignatures tx = map wireSignature ss).
  { unfold exportSignatures. now rewrite Hv. }
  split; [exact Hexp|]. split; [|split; [|split]].
  - rewrite Hexp. apply Forall_forall. intros j Hj.
    apply in_map_iff in Hj as [s [<- _]]. apply wireSignature_keys.
  - intros i s Hi. rewrite Hexp. rewrite nth_error_map, Hi. reflexivity.
  - unfold handleExportSingle. rewrite Htx. eexists. simpl.
    unfold wire, txData. now rewrite Hexp, Hd.
  - unfold handleShareLink. rewrite Htx, Hc. simpl.
    unfold wire, txData. now rewrite Hexp, Hd.
Qed.

(** The witness is the page right after a manual addition: it holds the
    copy of the transaction to which the second signature was added. *)
Lemma C8_witness :
  let ss := [Sample.sigA; Sample.sigB] in
  let st := handleAddSignature (Sample.env "1.4.1")
              (Sample.form Sample.tx1 Sample.ownerB "0xbb") in
  let tx := spread Sample.tx2 in
  let wire :=
    JObj [ ("tx", JObj [ ("data", json_of_SafeTransactionData Sample.txdata);
                         ("signatures", JArr (map wireSignature ss)) ]) ] in
  exportSignatures tx = map wireSignature ss
  /\ Forall (fun j => json_keys j = ["signer"; "data"; "isContractSignature"])
            (exportSignatures tx)
  /\ (forall i s, nth_error ss i = Some s ->
        nth_error (exportSignatures tx) i
        = Some (JObj [ ("signer", JStr (signer s));
                       ("data", JStr (sig_data s));
                       ("isContractSignature", JBool (isContractSignature s)) ]))
  /\ (exists filename,
        effects (handleExportSingle st) = effects st ++ [Download filename wire])
  /\ effects (handleShareLink (Sample.env "1.4.1") st)
     = effects st ++ [ClipboardWrite (ImportTxUrl Sample.safe wire 31337)].
Proof.
  apply (C8_wire_signatures_in_insertion_order
           (Sample.env "1.4.1")
           (handleAddSignature (Sample.env "1.4.1")
              (Sample.form Sample.tx1 Sample.ownerB "0xbb"))
           Sample.txdata [Sample.sigA; Sample.sigB] Sample.tx2
           (spread Sample.tx2) Sample.anvil).
  - repeat constructor; simpl; intuition discriminate.
  - reflexivity.
  - reflexivity.
  - reflexivity.
  - reflexivity.
  - reflexivity.
Defined.

(** The signer added first has the larger address: the exported order is
    the order of addition, not the order of addresses. *)
Example export_order_is_not_address_order :
  js_string_lt (toLowerCase Sample.ownerA) (toLowerCase Sample.ownerB) = false
  /\ option_map (fun t => exportSignatures t)
       (addSignatures Sample.tx0 [Sample.sigA; Sample.sigB])
     = Some [wireSignature Sample.sigA; wireSignature Sample.sigB].
Proof. split; reflexivity. Qed.

(** Signing again keeps the signer's place in the list and replaces the
    signature. *)
Example resigning_keeps_place :
  option_map (fun t => exportSignatures t)
    (addSignatures Sample.tx0
       [Sample.sigA; Sample.sigB; EthSafeSignature (toLowerCase Sample.ownerA) "0xcc" false])
  = Some [ wireSignature (EthSafeSignature (toLowerCase Sample.ownerA) "0xcc" false);
           wireSignature Sample.sigB ].
Proof. reflexivity. Qed.

(** A signature object with further properties of its own loses them on
    export. *)
Example export_strips_extra_properties :
  let s := {| signer := Sample.ownerA; sig_data := "0xaa";
              isContractSignature := false;
              extra := [ ("addedAt", JNum 1700000000); ("label", JStr "mine") ] |} in
  option_map (fun t => exportSignatures t) (addSignatures Sample.tx0 [s])
  = Some [ JObj [ ("signer", JStr Sample.ownerA); ("data", JStr "0xaa");
                  ("isContractSignature", JBool false) ] ].
Proof. reflexivity. Qed.

Lemma single_form_not_batch tx : ~ is_batch_form (JObj [ ("tx", tx) ]).
Proof. intros [txs H]. discriminate H. Qed.

(** C4 (as the code has it). The export and the share link of the
    transaction page emit the single form [{ "tx": ... }]; the dashboard
    export emits the batch form; import reads both, giving back the wire
    transactions that were written. *)
Theorem C4_export_forms_and_import
  (env : Env) (st : State) (tx : EthSafeTransaction) (c : Chain)
  (txs : list EthSafeTransaction)
  (Htx : safeTx st = Some tx) (Hc : chain env = Some c) :
  let single := JObj [ ("tx", txData tx) ] in
  (exists filename,
     effects (handleExportSingle st) = effects st ++ [Download filename single])
  /\ effects (handleShareLink env st)
     = effects st ++ [ClipboardWrite (ImportTxUrl (safeAddress env) single (chain_id c))]
  /\ is_single_form single /\ ~ is_batch_form single
  /\ is_batch_form (exportTransactions txs)
  /\ importTransactions single = Some [txData tx]
  /\ importTransactions (exportTransactions txs) = Some (map txData txs).
Proof.
  intros single. repeat split.
  - unfold handleExportSingle. rewrite Htx. eexists. reflexivity.
  - unfold handleShareLink. rewrite Htx, Hc. reflexivity.
  - now exists (txData tx).
  - apply single_form_not_batch.
  - now exists (map txData txs).
Qed.

Lemma C4_witness :
  let st := Sample.page Sample.tx1 in
  let single := JObj [ ("tx", txData Sample.tx1) ] in
  (exists filename,
     effects (handleExportSingle st) = effects st ++ [Download filename single])
  /\ effects (handleShareLink (Sample.env "1.4.1") st)
     = effects st ++ [ClipboardWrite (ImportTxUrl Sample.safe single 31337)]
  /\ is_single_form single /\ ~ is_batch_form single
  /\ is_batch_form (exportTransactions [Sample.tx1; Sample.tx2])
  /\ importTransactions single = Some [txData Sample.tx1]
  /\ importTransactions (exportTransactions [Sample.tx1; Sample.tx2])
     = Some (map txData [Sample.tx1; Sample.tx2]).
Proof.
  exact (C4_export_forms_and_import
           (Sample.env "1.4.1") (Sample.page Sample.tx1) Sample.tx1 Sample.anvil
           [Sample.tx1; Sample.tx2] eq_refl eq_refl).
Defined.

(** C4 (as stated) fails: the export of the transaction page writes a file
    in the single form, not in the batch form. *)
Lemma C4_counterexample :
  let content := JObj [ ("tx", txData Sample.tx1) ] in
  effects (handleExportSingle (Sample.page Sample.tx1))
  = [Download "safe-tx-nonce-4.json" content]
  /\ is_single_form content /\ ~ is_batch_form content.
Proof.
  split; [reflexivity|]. split.
  - eexists. reflexivity.
  - apply single_form_not_batch.
Qed.

(* ================================================================== *)
(** ** The EIP-712 hashes *)
(* ================================================================== *)

Lemma is_hex_digit_lower c : is_hex_digit c = true -> is_hex_digit (lower_ascii c) = true.
Proof. destruct c as [[] [] [] [] [] [] [] []]; vm_compute; congruence. Qed.

Lemma is_hex_digit_upper c : is_hex_digit c = true -> is_hex_digit (upper_ascii c) = true.
Proof. destruct c as [[] [] [] [] [] [] [] []]; vm_compute; congruence. Qed.

Lemma digit_value_hex c : is_hex_digit c = true -> exists d, digit_value c = Some d.
Proof.
  unfold is_hex_digit, digit_value. intros H.
  destruct (is_digit c); [eauto|]. destruct (is_lower_hex c); [eauto|].
  destruct (is_upper_hex c); [eauto | discriminate].
Qed.

Lemma map_string_length f s : String.length (map_string f s) = String.length s.
Proof. induction s; simpl; congruence. Qed.

Lemma all_hex_lower s :
  all_chars is_hex_digit s = true -> all_chars is_hex_digit (toLowerCase s) = true.
Proof.
  induction s as [|c s IH]; simpl; [auto|].
  intros H. apply andb_true_iff in H as [Hc Hs].
  rewrite is_hex_digit_lower by exact Hc. exact (IH Hs).
Qed.

Lemma checksum_chars_length s : forall i h,
  String.length (checksum_chars i h s) = String.length s.
Proof. induction s; simpl; intros; [reflexivity | now rewrite IHs]. Qed.

Lemma checksum_chars_hex s : forall i h,
  all_chars is_hex_digit s = true ->
  all_chars is_hex_digit (checksum_chars i h s) = true.
Proof.
  induction s as [|c s IH]; simpl; intros i h H; [auto|].
  apply andb_true_iff in H as [Hc Hs]. rewrite IH by exact Hs.
  destruct (8 <=? _)%N; [now rewrite is_hex_digit_upper | now rewrite Hc].
Qed.

Lemma hex_pairs_some n : forall s,
  String.length s = (2 * n)%nat -> all_chars is_hex_digit s = true ->
  exists b, hex_pairs s = Some b /\ List.length b = n.
Proof.
  induction n as [|n IH]; intros s Hlen Hhex.
  - destruct s; [|discriminate]. exists []. auto.
  - destruct s as [|a [|b s]]; simpl in Hlen; try lia.
    simpl in Hhex. apply andb_true_iff in Hhex as [Ha Hhex].
    apply andb_true_iff in Hhex as [Hb Hhex].
    destruct (digit_value_hex a Ha) as [da Eda].
    destruct (digit_value_hex b Hb) as [db Edb].
    destruct (IH s) as [bs [Ebs Hbs]]; [lia | exact Hhex |].
    simpl. rewrite Eda, Edb. simpl. rewrite Ebs. simpl.
    eexists. split; [reflexivity|]. simpl. now rewrite Hbs.
Qed.

Lemma substring_all s : substring 0 (String.length s) s = s.
Proof. induction s; simpl; congruence. Qed.

Lemma matches_address_regex_inv s :
  matches_address_regex s = true ->
  exists r, s = String "0" (String "x" r)
            /\ String.length r = 40%nat /\ all_chars is_hex_digit r = true.
Proof.
  unfold matches_address_regex. intros H.
  destruct s as [|c0 s]; [discriminate H|].
  destruct c0 as [[] [] [] [] [] [] [] []]; try (simpl in H; discriminate H).
  destruct s as [|c1 r]; [discriminate H|].
  destruct c1 as [[] [] [] [] [] [] [] []]; try (simpl in H; discriminate H).
  apply andb_true_iff in H as [Hlen Hhex]. apply Nat.eqb_eq in Hlen.
  exists r. auto.
Qed.

(** The checksummed form that [getAddress] returns decodes to 20 bytes. *)
Lemma getAddress_bytes s a :
  getAddress s = Some a -> exists b, getBytes a = Some b /\ List.length b = 20%nat.
Proof.
  unfold getAddress.
  set (prefixed := match s with
                   | String "0" (String "x" _) => s
                   | _ => String "0" (String "x" s)
                   end).
  destruct (matches_address_regex prefixed) eqn:Ere; [|discriminate].
  intros Hres.
  assert (Ha : a = getChecksumAddress prefixed).
  { destruct (_ && _ && _); [discriminate | congruence]. }
  clear Hres. subst a.
  destruct (matches_address_regex_inv _ Ere) as (r & -> & Hlen & Hhex).
  unfold getChecksumAddress, getBytes. cbn [toLowerCase map_string].
  change (lower_ascii "0") with "0"%char. change (lower_ascii "x") with "x"%char.
  cbn [substring]. fold (toLowerCase r).
  assert (Hl : String.length (toLowerCase r) = 40%nat).
  { unfold toLowerCase. now rewrite map_string_length. }
  assert (Hsub : substring 0 40 (toLowerCase r) = toLowerCase r).
  { rewrite <- Hl. apply substring_all. }
  rewrite Hsub.
  change (("x" =? "x")%char || ("x" =? "X")%char) with true. cbv iota.
  apply (hex_pairs_some 20).
  - now rewrite checksum_chars_length.
  - apply checksum_chars_hex. now apply all_hex_lower.
Qed.

Lemma encodeAddress_some s :
  is_address s = true -> exists e, encodeAddress (VStr s) = Some e.
Proof.
  unfold is_address, encodeAddress. destruct (getAddress s) as [a|] eqn:E; [|discriminate].
  intros _. destruct (getAddress_bytes s a E) as [b [Eb _]].
  simpl. rewrite Eb. simpl. eauto.
Qed.

Lemma encodeBytes_some s :
  is_bytes s = true -> exists e, encodeBytes (VStr s) = Some e.
Proof.
  unfold is_bytes, encodeBytes. destruct (getBytes s); [|discriminate]. simpl. eauto.
Qed.

Lemma encodeUint_some bits v :
  is_uint bits v = true -> exists e, encodeUint bits v = Some e.
Proof.
  unfold is_uint, encodeUint. destruct (getBigInt v); [|discriminate].
  simpl. intros ->. eauto.
Qed.

(** The domain of a Safe at a valid address hashes, with or without a chain
    id in the safe-integer range. *)
Lemma hashDomain_some (cid : option Z) safe :
  is_address safe = true ->
  match cid with Some n => is_uint 256 (VNum n) = true | None => True end ->
  exists dh, hashDomain {| chainId := cid; verifyingContract := safe |} = Some dh.
Proof.
  intros Hs Hc. destruct (encodeAddress_some safe Hs) as [ea Ea].
  unfold hashDomain, hashStruct, domainFields, domainObject. simpl chainId.
  cbn [verifyingContract]. destruct cid as [n|].
  - destruct (encodeUint_some 256 _ Hc) as [ec Ec].
    cbn -[keccak256 encodeAddress encodeUint utf8]. rewrite Ec, Ea. simpl. eauto.
  - cbn -[keccak256 encodeAddress encodeUint utf8]. rewrite Ea. simpl. eauto.
Qed.

Lemma hashStruct_SafeTx_some d :
  valid_SafeTransactionData d = true ->
  exists mh, hashStruct "SafeTx" SafeTx_types (SafeTx_message d) = Some mh.
Proof.
  unfold valid_SafeTransactionData. intros H.
  apply andb_true_iff in H as [H Hnonce].
  apply andb_true_iff in H as [H Hrefund].
  apply andb_true_iff in H as [H HgasToken].
  apply andb_true_iff in H as [H HgasPrice].
  apply andb_true_iff in H as [H HbaseGas].
  apply andb_true_iff in H as [H HsafeTxGas].
  apply andb_true_iff in H as [H Hoperation].
  apply andb_true_iff in H as [H Hdata].
  apply andb_true_iff in H as [Hto Hvalue].
  destruct (encodeAddress_some _ Hto) as [e1 E1].
  destruct (encodeUint_some _ _ Hvalue) as [e2 E2].
  destruct (encodeBytes_some _ Hdata) as [e3 E3].
  destruct (encodeUint_some _ _ Hoperation) as [e4 E4].
  destruct (encodeUint_some _ _ HsafeTxGas) as [e5 E5].
  destruct (encodeUint_some _ _ HbaseGas) as [e6 E6].
  destruct (encodeUint_some _ _ HgasPrice) as [e7 E7].
  destruct (encodeAddress_some _ HgasToken) as [e8 E8].
  destruct (encodeAddress_some _ Hrefund) as [e9 E9].
  destruct (encodeUint_some _ _ Hnonce) as [e10 E10].
  unfold hashStruct, SafeTx_types, SafeTx_message.
  cbn -[keccak256 encodeAddress encodeUint encodeBytes utf8].
  rewrite E1, E2, E3, E4, E5, E6, E7, E8, E9, E10. simpl. eauto.
Qed.

(** C1. The transaction hashes are a function of the transaction data, the
    Safe address and the chain alone.  For valid transaction data, a valid
    Safe address and chain id, the effect produces the three hashes, each
    the hex form of a 32-byte digest, the signing hash being
    [keccak256(0x1901 ++ domainHash ++ messageHash)]; and two pages that
    agree on these inputs show the same three hashes, whatever signatures
    the two transaction objects carry, whatever Safe version is reported and
    whatever else the pages' states hold. *)
Theorem C1_safeTxHash_deterministic
  (env1 env2 : Env) (st1 st2 : State) (tx1 tx2 : EthSafeTransaction)
  (i1 i2 : SafeInfo) (c : Chain)
  (Htx1 : safeTx st1 = Some tx1) (Htx2 : safeTx st2 = Some tx2)
  (Hi1 : safeInfo env1 = Some i1) (Hi2 : safeInfo env2 = Some i2)
  (Hc1 : chain env1 = Some c) (Hc2 : chain env2 = Some c)
  (Hsafe : safeAddress env1 = safeAddress env2)
  (Hdata : tx_data tx1 = tx_data tx2)
  (Hvalid : valid_SafeTransactionData (tx_data tx1) = true)
  (Hchain : is_uint 256 (VNum (chain_id c)) = true)
  (Haddr : is_address (safeAddress env1) = true) :
  exists dh mh h : list byte,
    List.length dh = 32%nat /\ List.length mh = 32%nat /\ List.length h = 32%nat
    /\ h = keccak256 ([x19; x01] ++ dh ++ mh)
    /\ eip712Data (eip712Effect env1 st1)
       = Some {| domainHash := hexlify dh; messageHash := hexlify mh;
                 eip712Hash := hexlify h |}
    /\ eip712Data (eip712Effect env2 st2) = eip712Data (eip712Effect env1 st1).
Proof.
  destruct (hashDomain_some (Some (chain_id c)) (safeAddress env1) Haddr Hchain)
    as [dh Edh].
  destruct (hashStruct_SafeTx_some _ Hvalid) as [mh Emh].
  assert (E1 : calculateEip712 tx1 c (safeAddress env1)
               = Some {| domainHash := hexlify dh; messageHash := hexlify mh;
                         eip712Hash := hexlify (keccak256 ([x19; x01] ++ dh ++ mh)) |}).
  { unfold calculateEip712, TypedDataEncoder_hash, SafeTx_domain.
    rewrite Edh, Emh. reflexivity. }
  assert (E2 : calculateEip712 tx2 c (safeAddress env2)
               = calculateEip712 tx1 c (safeAddress env1)).
  { unfold calculateEip712. now rewrite Hdata, Hsafe. }
  exists dh, mh, (keccak256 ([x19; x01] ++ dh ++ mh)).
  split; [exact (hashDomain_length _ _ Edh)|].
  split; [exact (hashStruct_length _ _ _ _ Emh)|].
  split; [apply keccak256_length|]. split; [reflexivity|].
  unfold eip712Effect. rewrite Htx1, Htx2, Hi1, Hi2, Hc1, Hc2. simpl eip712Data.
  rewrite E2, E1. auto.
Qed.

Lemma C1_witness :
  let st1 := Sample.page Sample.tx0 in
  let st2 := handleBroadcast (Rejected "reverted") (Sample.page Sample.tx2) in
  exists dh mh h : list byte,
    List.length dh = 32%nat /\ List.length mh = 32%nat /\ List.length h = 32%nat
    /\ h = keccak256 ([x19; x01] ++ dh ++ mh)
    /\ eip712Data (eip712Effect (Sample.env "1.4.1") st1)
       = Some {| domainHash := hexlify dh; messageHash := hexlify mh;
                 eip712Hash := hexlify h |}
    /\ eip712Data (eip712Effect (Sample.env "1.3.0") st2)
       = eip712Data (eip712Effect (Sample.env "1.4.1") st1).
Proof.
  apply (C1_safeTxHash_deterministic
           (Sample.env "1.4.1") (Sample.env "1.3.0")
           (Sample.page Sample.tx0)
           (handleBroadcast (Rejected "reverted") (Sample.page Sample.tx2))
           Sample.tx0 Sample.tx2 (Sample.info "1.4.1") (Sample.info "1.3.0")
           Sample.anvil);
    vm_compute; reflexivity.
Defined.

Example SafeTx_typehash :
  hexlify (keccak256 (utf8 (encodeType "SafeTx" SafeTx_types))) =
  "0xbb8310d486368db6bd6f849402fdd73ad53d316b5a4b2644ad6efe0f941286d8".
Proof. vm_compute. reflexivity. Qed.

Example SafeMessage_typehash :
  hexlify (keccak256 (utf8 (encodeType "SafeMessage" SafeMessage_types))) =
  "0x60b3cbf8b4a223d68d641b3b6ddf9a298e7f33710cf3d3a9d1146b5a6150fbca".
Proof. vm_compute. reflexivity. Qed.

Example domain_typehash_without_chainId :
  hexlify (keccak256 (utf8 (encodeType "EIP712Domain"
             (domainFields {| chainId := None; verifyingContract := Sample.safe |})))) =
  "0x035aff83d86937d35b32e04f0ddc6ff469290eef2f1b692d8a815c89404d4749".
Proof. vm_compute. reflexivity. Qed.

(** The SafeMessage domain follows the version: [chainId] is in the domain
    exactly when the version string (or the default "1.4.1") compares
    [>= "1.3.0"]. *)
Lemma SafeMessage_domain_chainId i n safe :
  SafeMessage_domain i n safe
  = {| chainId := if js_string_ge (safeVersion_or_default i) "1.3.0"
                  then Some n else None;
       verifyingContract := safe |}.
Proof.
  unfold SafeMessage_domain. now destruct (js_string_ge _ _).
Qed.

Example version_comparisons :
  map (fun v => js_string_ge v "1.3.0")
      ["1.0.0"; "1.1.1"; "1.2.0"; "1.3.0"; "1.4.1"; "1.10.0"]
  = [false; false; false; true; true; false].
Proof. reflexivity. Qed.

(** C2. The transaction page builds the SafeTx domain with [chainId] for
    every Safe version.  At a Safe of version 1.2.0 the SafeMessage domain
    of the signing page has no [chainId], the SafeTx domain of the
    transaction page has it, the domain hash shown is the one of the domain
    with [chainId] and differs from the one without, and the hashes shown
    are those shown for a Safe of version 1.4.1. *)
Theorem C2_SafeTx_domain_has_chainId_below_1_3_0 :
  let old := Sample.env "1.2.0" in
  let st := Sample.page Sample.tx1 in
  let with_chainId := {| chainId := Some 31337%Z; verifyingContract := Sample.safe |} in
  let without_chainId := {| chainId := None; verifyingContract := Sample.safe |} in
  js_string_ge "1.2.0" "1.3.0" = false
  /\ SafeMessage_domain (Sample.info "1.2.0") 31337 Sample.safe = without_chainId
  /\ SafeTx_domain Sample.anvil Sample.safe = with_chainId
  /\ option_map domainHash (eip712Data (eip712Effect old st))
     = option_map hexlify (hashDomain with_chainId)
  /\ option_map domainHash (eip712Data (eip712Effect old st))
     <> option_map hexlify (hashDomain without_chainId)
  /\ eip712Data (eip712Effect old st)
     = eip712Data (eip712Effect (Sample.env "1.4.1") st).
Proof.
  intros old st with_chainId without_chainId.
  split; [reflexivity|]. split; [reflexivity|]. split; [reflexivity|].
  split; [vm_compute; reflexivity|].
  split; [vm_compute; discriminate|].
  vm_compute. reflexivity.
Qed.

Example SafeTx_hashes_of_the_sample :
  eip712Data (eip712Effect (Sample.env "1.4.1") (Sample.page Sample.tx0))
  = Some {| domainHash :=
              "0xb520a245403026d11ef939fe6b1527d53e1ffbcdae96c0ccd4cb52ea9e9f47ab";
            messageHash :=
              "0xbd299da664380f5b4d591b53f5bf44131e5263056479d7cb25e0b4902259d8dc";
            eip712Hash :=
              "0x35165aed647f8fb22dddce40ae440ea2db6ef85351eed5f5affe1edc6be547f3" |}.
Proof. vm_compute. reflexivity. Qed.

(* ================================================================== *)
(** ** The SafeMessage hashes *)
(* ================================================================== *)

Lemma hex_digits_of_byte b :
  digit_value (hex_digit (Byte.to_N b / 16)) = Some (Z.of_N (Byte.to_N b / 16))
  /\ digit_value (hex_digit (Byte.to_N b mod 16)) = Some (Z.of_N (Byte.to_N b mod 16))
  /\ byte_of_N (Z.to_N (16 * Z.of_N (Byte.to_N b / 16)
                        + Z.of_N (Byte.to_N b mod 16))) = b.
Proof. destruct b; vm_compute; auto. Qed.

Lemma hex_pairs_hexlify bs : hex_pairs (hexlify_bytes bs) = Some bs.
Proof.
  induction bs as [|b bs IH]; [reflexivity|].
  destruct (hex_digits_of_byte b) as (Hhi & Hlo & Hb).
  cbn [hexlify_bytes hex_pairs]. rewrite Hhi, Hlo. cbn [option_bind].
  rewrite IH. cbn [option_bind]. now rewrite Hb.
Qed.

(** Reading back a hash that was handed out as a hex string. *)
Lemma getBytes_hexlify bs : getBytes (hexlify bs) = Some bs.
Proof. unfold getBytes, hexlify. simpl. apply hex_pairs_hexlify. Qed.

Lemma hashStruct_SafeMessage inner :
  hashStruct "SafeMessage" SafeMessage_types [ ("message", VStr (hexlify inner)) ]
  = Some (keccak256 (keccak256 (utf8 "SafeMessage(bytes message)")
                     ++ keccak256 inner)).
Proof.
  unfold hashStruct, SafeMessage_types.
  cbn -[keccak256 utf8 getBytes hexlify encodeType].
  rewrite getBytes_hexlify. cbn -[keccak256 utf8 encodeType].
  now rewrite app_nil_r.
Qed.

Section SafeMessageHashes.

Variable JSON_parse : string -> option json.
Variable TypedDataEncoder_hash_json : json -> json -> json -> option (list byte).

Lemma safeMessageMessage_of_inner method params inner :
  inner_hash JSON_parse TypedDataEncoder_hash_json method params inner ->
  truthy_string method = true
  /\ safeMessageMessage_of JSON_parse TypedDataEncoder_hash_json method params
     = Some (hexlify inner).
Proof.
  intros H. destruct H as [m rest | a m rest
                           | method a param rest td dom tys msg h
                               Hm Htd Hd Hdt Ht Htt Hmsg Hmt Hh].
  - split; reflexivity.
  - split; reflexivity.
  - assert (Hparam : match nth_error (a :: param :: rest) 1 with
                     | Some (JStr s) => JSON_parse s
                     | other => other
                     end = Some td).
    { simpl. unfold typed_data_of in Htd. destruct param; congruence. }
    assert (Hbody :
              (typedData <- match nth_error (a :: param :: rest) 1 with
                            | Some (JStr s) => JSON_parse s
                            | other => other
                            end ;;
               domain <- truthy_property typedData "domain" ;;
               types <- truthy_property typedData "types" ;;
               message0 <- truthy_property typedData "message" ;;
               h0 <- TypedDataEncoder_hash_json domain types message0 ;;
               Some (hexlify h0)) = Some (hexlify h)).
    { rewrite Hparam. unfold truthy_property. cbn [option_bind].
      rewrite Hd, Hdt. cbn [option_bind]. rewrite Ht, Htt. cbn [option_bind].
      rewrite Hmsg, Hmt. cbn [option_bind]. now rewrite Hh. }
    destruct Hm as [-> | ->]; (split; [reflexivity | exact Hbody]).
Qed.

(** C7. Double hashing of off-chain messages.  Whatever the signing method,
    the [message] field of the SafeMessage holds the inner hash of the
    request (the EIP-191 hash of the literal message for [personal_sign]
    and [eth_sign], the EIP-712 hash of the supplied typed data for the
    typed-data methods), and the SafeMessage hashes are computed over it:
    the struct hash is
    [keccak256(typeHash ++ keccak256(innerHash))] and the digest
    [keccak256(0x1901 ++ domainHash ++ structHash)]. *)
Theorem C7_SafeMessage_wraps_inner_hash
  (method : string) (params : list json) (inner : list byte)
  (i : SafeInfo) (chainId0 : Z) (safe : string) (prev : option SafeMessageData)
  (Hinner : inner_hash JSON_parse TypedDataEncoder_hash_json method params inner)
  (Hchain : chainId0 <> 0%Z) (Hrange : is_uint 256 (VNum chainId0) = true)
  (Hsafe : is_address safe = true) :
  exists dh : list byte,
    hashDomain (SafeMessage_domain i chainId0 safe) = Some dh
    /\ let mh := keccak256 (keccak256 (utf8 "SafeMessage(bytes message)")
                            ++ keccak256 inner) in
       safeMessageEffect JSON_parse TypedDataEncoder_hash_json
         (Some params) method (Some i) chainId0 safe prev
       = Some {| safeMessage := hexlify inner;
                 sm_eip712Hash := hexlify (keccak256 ([x19; x01] ++ dh ++ mh));
                 sm_domainHash := hexlify dh;
                 sm_messageHash := hexlify mh |}.
Proof.
  destruct (safeMessageMessage_of_inner _ _ _ Hinner) as [Hm Hof].
  assert (Hdh : exists dh, hashDomain (SafeMessage_domain i chainId0 safe) = Some dh).
  { rewrite SafeMessage_domain_chainId.
    apply hashDomain_some; [exact Hsafe|]. now destruct (js_string_ge _ _). }
  destruct Hdh as [dh Edh]. exists dh. split; [exact Edh|].
  intros mh. unfold safeMessageEffect. rewrite Hm.
  apply Z.eqb_neq in Hchain. rewrite Hchain. cbn [negb orb].
  rewrite Hof. cbn [option_bind].
  unfold calculateSafeMessage, TypedDataEncoder_hash.
  rewrite Edh, hashStruct_SafeMessage. reflexivity.
Qed.

End SafeMessageHashes.

Lemma C7_witness :
  exists dh : list byte,
    hashDomain (SafeMessage_domain (Sample.info "1.4.1") 31337 Sample.safe) = Some dh
    /\ let mh := keccak256 (keccak256 (utf8 "SafeMessage(bytes message)")
                            ++ keccak256 (hashMessage "hello")) in
       safeMessageEffect (fun _ => None) (fun _ _ _ => None)
         (Some [JStr "hello"; JStr Sample.ownerA]) "personal_sign"
         (Some (Sample.info "1.4.1")) 31337 Sample.safe None
       = Some {| safeMessage := hexlify (hashMessage "hello");
                 sm_eip712Hash := hexlify (keccak256 ([x19; x01] ++ dh ++ mh));
                 sm_domainHash := hexlify dh;
                 sm_messageHash := hexlify mh |}.
Proof.
  apply (C7_SafeMessage_wraps_inner_hash (fun _ => None) (fun _ _ _ => None)
           "personal_sign" [JStr "hello"; JStr Sample.ownerA]
           (hashMessage "hello") (Sample.info "1.4.1") 31337 Sample.safe None).
  - apply inner_personal_sign.
  - discriminate.
  - vm_compute. reflexivity.
  - vm_compute. reflexivity.
Defined.

Example SafeMessage_hashes_of_hello :
  safeMessageEffect (fun _ => None) (fun _ _ _ => None)
    (Some [JStr "hello"; JStr Sample.ownerA]) "personal_sign"
    (Some (Sample.info "1.4.1")) 31337 Sample.safe None
  = Some {| safeMessage :=
              "0x50b2c43fd39106bafbba0da34fc430e1f91e3c96ea2acee2bc34119f92b37750";
            sm_eip712Hash :=
              "0xa992c30b9be36fd87312ab7d79bfabf53288330ac7533d33c144d07c39913b06";
            sm_domainHash :=
              "0xb520a245403026d11ef939fe6b1527d53e1ffbcdae96c0ccd4cb52ea9e9f47ab";
            sm_messageHash :=
              "0x66a95d04d7af651dc4e09b20db2badbb4a151c20307e787d2ee7e9a118482224" |}.
Proof. vm_compute. reflexivity. Qed.

(* ================================================================== *)
(** ** Broadcasting and the pending set *)
(* ================================================================== *)

Ltac keeps :=
  split;
  [ reflexivity
  | first [ exists []; split; [symmetry; apply app_nil_r | intros ? []]
          | eexists; split;
            [ reflexivity
            | let H := fresh in intros ? [H|[]]; discriminate H ] ] ].

Lemma keeps_pending_refl st : keeps_pending st st.
Proof. keeps. Qed.

Lemma handleSign_keeps o st : keeps_pending st (handleSign o st).
Proof.
  unfold handleSign. destruct (safeTx st); [|keeps].
  destruct o as [[signedTx|]|]; keeps.
Qed.

Lemma handleExportSingle_keeps st : keeps_pending st (handleExportSingle st).
Proof. unfold handleExportSingle. destruct (safeTx st); keeps. Qed.

Lemma handleShareLink_keeps env st : keeps_pending st (handleShareLink env st).
Proof.
  unfold handleShareLink. destruct (safeTx st); [|keeps].
  destruct (chain env); keeps.
Qed.

Lemma handleShareSignature_keeps env st :
  keeps_pending st (handleShareSignature env st).
Proof.
  unfold handleShareSignature. destruct (safeTx st); [|keeps].
  destruct (chain env); [|keeps].
  destruct (connectedAddress env) as [a|]; [|keeps].
  destruct (truthy_string a); [|keeps].
  destruct (findUserSignature _ a); keeps.
Qed.

Lemma handleAddSignature_keeps env st :
  keeps_pending st (handleAddSignature env st).
Proof.
  unfold handleAddSignature. destruct (safeTx st) as [tx|]; [|keeps].
  destruct (chain env); [|keeps].
  destruct (_ || _); [keeps|].
  destruct (negb (matches_address_regex _)); [keeps|].
  destruct (negb (matches_hex_regex _)); [keeps|].
  destruct (addSignature tx _); keeps.
Qed.

Lemma eip712Effect_keeps env st : keeps_pending st (eip712Effect env st).
Proof.
  unfold eip712Effect. destruct (safeTx st); [|keeps].
  destruct (safeInfo env); [|keeps]. destruct (chain env); keeps.
Qed.

Lemma handleBroadcast_effects o st :
  exists l, effects (handleBroadcast o st) = effects st ++ l
            /\ forall a, ~ In (RemoveTransaction a) l.
Proof.
  unfold handleBroadcast. destruct (safeTx st) as [tx|].
  - exists [CallBroadcast tx]. split.
    + destruct o as [[[h|]|]|err]; reflexivity.
    + intros a [H|[]]. discriminate H.
  - exists []. split; [symmetry; apply app_nil_r | intros a []].
Qed.

Lemma handleBroadcast_hash o st h :
  broadcastHash (handleBroadcast o st) = Some h ->
  broadcastHash st = Some h
  \/ (h <> "" /\ o = Resolved (ResultObject (Some h))).
Proof.
  unfold handleBroadcast. destruct (safeTx st) as [tx|]; [|now left].
  destruct o as [[[h0|]|]|err]; simpl; try discriminate; try (now left).
  destruct h0 as [|c h0]; simpl; [discriminate|].
  intros [= <-]. right. split; [discriminate | reflexivity].
Qed.

(** One transition: a new broadcast hash comes from a broadcast that
    yielded it, and [removeTransaction] is called only while a broadcast
    hash is held. *)
Lemma step_hash env st ev h :
  broadcastHash (step env st ev) = Some h ->
  broadcastHash st = Some h \/ yields_hash ev.
Proof.
  assert (K : forall st', keeps_pending st st' ->
                          broadcastHash st' = Some h ->
                          broadcastHash st = Some h \/ yields_hash ev).
  { intros st' [E _] H. left. congruence. }
  destruct ev; unfold step; try (destruct (negb (loaded st)); [now left|]).
  - now apply K; keeps.
  - apply K, eip712Effect_keeps.
  - destruct (signDisabled env st); [now left | apply K, handleSign_keeps].
  - destruct (broadcastDisabled env st); [now left|].
    intros H. apply handleBroadcast_hash in H as [H|[Hne ->]]; [now left|].
    right. exists h. auto.
  - apply K, handleExportSingle_keeps.
  - apply K, handleShareLink_keeps.
  - destruct (hasSignedThisTx _ _); [apply K, handleShareSignature_keeps | now left].
  - now apply K; keeps.
  - destruct (showAddSigModal st); [now apply K; keeps | now left].
  - destruct (showAddSigModal st); [now apply K; keeps | now left].
  - destruct (showAddSigModal st); [now apply K; keeps | now left].
  - destruct (_ && _ && _); [apply K, handleAddSignature_keeps | now left].
  - destruct (showModal st); [now apply K; keeps | now left].
  - destruct (_ && _); [|now left]. unfold onSuccess. simpl. now left.
  - now apply K; keeps.
Qed.

Lemma step_remove env st ev a :
  In (RemoveTransaction a) (effects (step env st ev)) ->
  In (RemoveTransaction a) (effects st) \/ exists h, broadcastHash st = Some h.
Proof.
  assert (K : forall st', keeps_pending st st' ->
                          In (RemoveTransaction a) (effects st') ->
                          In (RemoveTransaction a) (effects st)
                          \/ exists h, broadcastHash st = Some h).
  { intros st' [_ [l [E Hl]]]. rewrite E, in_app_iff.
    intros [H|H]; [now left | now apply Hl in H]. }
  destruct ev; unfold step; try (destruct (negb (loaded st)); [now left|]).
  - now apply K; keeps.
  - apply K, eip712Effect_keeps.
  - destruct (signDisabled env st); [now left | apply K, handleSign_keeps].
  - destruct (broadcastDisabled env st); [now left|].
    destruct (handleBroadcast_effects o st) as [l [E Hl]]. rewrite E, in_app_iff.
    intros [H|H]; [now left | now apply Hl in H].
  - apply K, handleExportSingle_keeps.
  - apply K, handleShareLink_keeps.
  - destruct (hasSignedThisTx _ _); [apply K, handleShareSignature_keeps | now left].
  - now apply K; keeps.
  - destruct (showAddSigModal st); [now apply K; keeps | now left].
  - destruct (showAddSigModal st); [now apply K; keeps | now left].
  - destruct (showAddSigModal st); [now apply K; keeps | now left].
  - destruct (_ && _ && _); [apply K, handleAddSignature_keeps | now left].
  - destruct (showModal st); [now apply K; keeps | now left].
  - destruct (showModal st); simpl; [|now left].
    destruct (broadcastHash st) as [h|]; [right; eauto | now left].
  - now apply K; keeps.
Qed.

Lemma run_snoc env st evs ev :
  run env st (evs ++ [ev]) = step env (run env st evs) ev.
Proof. unfold run. now rewrite fold_left_app. Qed.

(** Along any run of the page from its initial state, a held broadcast
    hash and a call of [removeTransaction] both stem from a broadcast that
    yielded a transaction hash. *)
Lemma run_invariant env evs :
  let st := run env initialState evs in
  (forall h, broadcastHash st = Some h -> exists ev, In ev evs /\ yields_hash ev)
  /\ (forall a, In (RemoveTransaction a) (effects st) ->
                exists ev, In ev evs /\ yields_hash ev).
Proof.
  induction evs as [|ev evs IH] using rev_ind; simpl.
  - split; [discriminate | intros a []].
  - rewrite run_snoc. destruct IH as [IHh IHr].
    assert (Hmono : (exists e, In e evs /\ yields_hash e) ->
                    exists e, In e (evs ++ [ev]) /\ yields_hash e).
    { intros [e [Hin Hy]]. exists e. rewrite in_app_iff. auto. }
    split.
    + intros h H. apply step_hash in H as [H|H]; [eauto|].
      exists ev. rewrite in_app_iff. simpl. auto.
    + intros a H. apply step_remove in H as [H|[h H]]; eauto.
Qed.

Lemma handleBroadcast_failed o st tx :
  safeTx st = Some tx -> failed o ->
  let st' := handleBroadcast o st in
  safeTx st' = Some tx
  /\ effects st' = effects st ++ [CallBroadcast tx]
  /\ showModal st' = true
  /\ BroadcastModal_offers_success (broadcastHash st') (broadcastError st') = false.
Proof.
  intros H Hf. unfold handleBroadcast. rewrite H.
  destruct o as [[[h|]|]|err]; simpl; repeat split; auto.
  - destruct h as [|c h]; [reflexivity|]. exfalso. apply Hf.
    exists (String c h). split; [discriminate | reflexivity].
  - now destruct (broadcastHash st).
Qed.

(** C6. A failed broadcast leaves the transaction where it was.  On any
    page reached from the initial state whose transaction is [tx], a
    broadcast that fails keeps the transaction object with its signatures,
    makes the one call to the broadcaster and no other call (nothing is
    saved, removed or retried), leaves the transaction as executable as it
    was, and leaves the modal without its success action; and over any run
    of the page, [removeTransaction] has been called only if some broadcast
    yielded a transaction hash. *)
Theorem C6_failed_broadcast_keeps_transaction
  (env : Env) (evs : list Event) (tx : EthSafeTransaction)
  (o : BroadcastOutcome)
  (Htx : safeTx (run env initialState evs) = Some tx)
  (Hfailed : failed o) :
  let st := run env initialState evs in
  let st' := handleBroadcast o st in
  safeTx st' = Some tx
  /\ effects st' = effects st ++ [CallBroadcast tx]
  /\ isExecutable (safeTx st') (safeInfo env) = isExecutable (safeTx st) (safeInfo env)
  /\ step env st' ModalSuccess = st'
  /\ (forall a evs',
        In (RemoveTransaction a) (effects (run env initialState evs')) ->
        exists ev, In ev evs' /\ yields_hash ev).
Proof.
  intros st st'.
  destruct (handleBroadcast_failed o st tx Htx Hfailed)
    as (Hsame & Heff & Hmodal & Hoffer).
  fold st' in Hsame, Heff, Hmodal, Hoffer.
  split; [exact Hsame|]. split; [exact Heff|].
  split; [rewrite Hsame; unfold st; now rewrite Htx|]. split.
  - unfold step, loaded. rewrite Hsame, Hmodal, Hoffer. reflexivity.
  - intros a evs'. apply (run_invariant env evs').
Qed.

Lemma C6_witness :
  let env := Sample.env "1.4.1" in
  let evs := [TxLoaded (Some Sample.tx2)] in
  let st := run env initialState evs in
  let st' := handleBroadcast (Rejected "reverted") st in
  safeTx st' = Some Sample.tx2
  /\ effects st' = effects st ++ [CallBroadcast Sample.tx2]
  /\ isExecutable (safeTx st') (safeInfo env) = isExecutable (safeTx st) (safeInfo env)
  /\ step env st' ModalSuccess = st'
  /\ (forall a evs',
        In (RemoveTransaction a) (effects (run env initialState evs')) ->
        exists ev, In ev evs' /\ yields_hash ev).
Proof.
  apply (C6_failed_broadcast_keeps_transaction
           (Sample.env "1.4.1") [TxLoaded (Some Sample.tx2)] Sample.tx2
           (Rejected "reverted")).
  - reflexivity.
  - intros [h [_ H]]. discriminate H.
Defined.

(** The scenario of the spec: threshold 2; with no signature and with the
    signature of owner A alone the broadcast button does nothing; after
    owner B has signed too the broadcast goes out, yields a hash, and the
    success action removes the transaction. *)
Example scenario_sign_sign_broadcast :
  let asA := Sample.envOf Sample.ownerA "1.4.1" in
  let asB := Sample.envOf Sample.ownerB "1.4.1" in
  let yields := ClickBroadcast (Resolved (ResultObject (Some "0xfeed"))) in
  let st1 := run asA initialState
               [ TxLoaded (Some Sample.tx0); yields;
                 ClickSign (SignResolved (Some Sample.tx1)); yields;
                 ClickSign (SignResolved (Some Sample.tx1)) ] in
  let st2 := run asB st1
               [ ClickSign (SignResolved (Some Sample.tx2)); yields;
                 ModalSuccess ] in
  effects st1 = [ CallSign Sample.tx0 ]
  /\ effects st2 = [ CallSign Sample.tx0; CallSign Sample.tx1;
                     CallBroadcast Sample.tx2; RemoveTransaction Sample.safe;
                     RouterPush "/safe/0x2222222222222222222222222222222222222222" ].
Proof. split; reflexivity. Qed.

(** After a failed broadcast the success action does nothing, and the
    transaction can be broadcast again. *)
Example scenario_failed_broadcast :
  let env := Sample.env "1.4.1" in
  let st := run env initialState
              [ TxLoaded (Some Sample.tx2);
                ClickBroadcast (Rejected "reverted");
                ModalSuccess; ModalClose;
                ClickBroadcast (Resolved (ResultObject (Some "0xfeed"))) ] in
  effects st = [ CallBroadcast Sample.tx2; CallBroadcast Sample.tx2 ]
  /\ safeTx st = Some Sample.tx2
  /\ broadcastHash st = Some "0xfeed".
Proof. repeat split; reflexivity. Qed.

(* ================================================================== *)
(** * Further properties of the code *)
(* ================================================================== *)

(* ================================================================== *)
(** ** Chain names *)
(* ================================================================== *)

Lemma decimal_of_Z_inj a b : decimal_of_Z a = decimal_of_Z b -> a = b.
Proof.
  unfold decimal_of_Z. intros H.
  apply DecimalZ.to_int_inj.
  pose proof (NilEmpty.isi (Z.to_int a)) as Ha.
  pose proof (NilEmpty.isi (Z.to_int b)) as Hb.
  rewrite H in Ha. congruence.
Qed.

Lemma decimal_of_Z_reads_back z :
  NilEmpty.int_of_string (decimal_of_Z z) = Some (Z.to_int z).
Proof. apply NilEmpty.isi. Qed.

Lemma decimal_of_Z_nonempty z : decimal_of_Z z <> "".
Proof.
  unfold decimal_of_Z. destruct z as [|p|p]; simpl; try discriminate.
  pose proof (DecimalPos.Unsigned.to_uint_nonnil p) as Hn.
  destruct (Pos.to_uint p); [contradiction | discriminate ..].
Qed.

Lemma chainMap_get_In m k v : chainMap_get m k = Some v -> In (k, v) m.
Proof.
  induction m as [|[k' v'] m IH]; simpl; [discriminate|].
  destruct (Z.eqb_spec k' k) as [->|Hne].
  - intros [= ->]. now left.
  - intros H. right. now apply IH.
Qed.

(** A name of the table is not the decimal notation of any number, and is
    the name of one chain only. *)
Lemma chainMap_names k v :
  In (k, v) chainMap ->
  truthy_string v = true
  /\ NilEmpty.int_of_string v = None
  /\ forall k', In (k', v) chainMap -> k' = k.
Proof.
  intros H. simpl in H.
  repeat (destruct H as [H|H];
          [ injection H as <- <-;
            split; [reflexivity|]; split; [reflexivity|];
            intros k' Hk'; simpl in Hk';
            repeat (destruct Hk' as [Hk'|Hk'];
                    [ first [ discriminate Hk' | now injection Hk' as <- ] |]);
            destruct Hk'
          |]).
  destruct H.
Qed.

(** X1. [getChainNameForCyfrin] names different chains differently and
    never returns the empty string: a chain of the table goes by its name,
    any other by its decimal id, and no name of the table reads as a
    number. *)
Theorem getChainNameForCyfrin_injective (a b : Z)
  (Hsame : getChainNameForCyfrin a = getChainNameForCyfrin b) :
  a = b /\ getChainNameForCyfrin a <> "".
Proof.
  assert (Hcases : forall z,
             (exists v, In (z, v) chainMap /\ getChainNameForCyfrin z = v)
             \/ getChainNameForCyfrin z = decimal_of_Z z).
  { intros z. unfold getChainNameForCyfrin.
    destruct (chainMap_get chainMap z) as [v|] eqn:E; [|now right].
    left. apply chainMap_get_In in E. exists v.
    destruct (chainMap_names _ _ E) as [-> _]. auto. }
  split.
  - revert Hsame.
    destruct (Hcases a) as [[v [Hin ->]]| ->];
      destruct (Hcases b) as [[w [Hin' ->]]| ->]; intros E.
    + subst w. destruct (chainMap_names _ _ Hin) as (_ & _ & Huniq).
      symmetry. now apply Huniq.
    + exfalso. destruct (chainMap_names _ _ Hin) as (_ & Hn & _).
      rewrite E, decimal_of_Z_reads_back in Hn. discriminate.
    + exfalso. destruct (chainMap_names _ _ Hin') as (_ & Hn & _).
      rewrite <- E, decimal_of_Z_reads_back in Hn. discriminate.
    + now apply decimal_of_Z_inj.
  - destruct (Hcases a) as [[v [Hin ->]]| ->].
    + destruct (chainMap_names _ _ Hin) as [Ht _]. now destruct v.
    + apply decimal_of_Z_nonempty.
Qed.

Lemma getChainNameForCyfrin_injective_witness :
  31337%Z = 31337%Z /\ getChainNameForCyfrin 31337 <> "".
Proof. exact (getChainNameForCyfrin_injective 31337 31337 eq_refl). Defined.

Example chain_names :
  map getChainNameForCyfrin [1; 31337; 11155111; 999; 0]%Z
  = ["ethereum"; "anvil"; "sepolia"; "999"; "0"].
Proof. reflexivity. Qed.

(* ================================================================== *)
(** ** Loading the transaction *)
(* ================================================================== *)

Section FetchTxFacts.

Variable getTransactionHash : EthSafeTransaction -> option string.

Lemma findMatchingTx_found h allTxs tx :
  findMatchingTx getTransactionHash h allTxs = Matched (Some tx)
  <-> exists before after,
        allTxs = before ++ tx :: after
        /\ Forall (passes_by getTransactionHash h) before
        /\ getTransactionHash tx = Some h.
Proof.
  induction allTxs as [|t rest IH]; simpl.
  - split; [discriminate|]. intros (b & a & H & _). now destruct b.
  - destruct (getTransactionHash t) as [h'|] eqn:Et.
    + destruct (String.eqb_spec h' h) as [->|Hne].
      * split.
        -- intros [= <-]. exists [], rest. auto.
        -- intros (b & a & H & Hb & Htx). destruct b as [|t' b].
           ++ simpl in H. now injection H as -> _.
           ++ simpl in H. injection H as <- _. inversion Hb as [|? ? [h2 [E2 N2]] _]; subst.
              congruence.
      * rewrite IH. split.
        -- intros (b & a & -> & Hb & Htx). exists (t :: b), a. repeat split; auto.
           constructor; [exists h'; auto | exact Hb].
        -- intros (b & a & H & Hb & Htx). destruct b as [|t' b].
           ++ simpl in H. injection H as -> _. congruence.
           ++ simpl in H. injection H as <- ->. inversion Hb; subst. eauto.
    + split; [discriminate|]. intros (b & a & H & Hb & Htx). destruct b as [|t' b].
      * simpl in H. injection H as -> _. congruence.
      * simpl in H. injection H as <- _.
        inversion Hb as [|? ? [h2 [E2 _]] _]; subst. congruence.
Qed.

Lemma findMatchingTx_none h allTxs :
  findMatchingTx getTransactionHash h allTxs = Matched None
  <-> Forall (passes_by getTransactionHash h) allTxs.
Proof.
  induction allTxs as [|t rest IH]; simpl.
  - split; auto.
  - destruct (getTransactionHash t) as [h'|] eqn:Et.
    + destruct (String.eqb_spec h' h) as [->|Hne].
      * split; [discriminate|]. intros H.
        inversion H as [|? ? [h2 [E2 N2]] _]; subst. congruence.
      * rewrite IH. split.
        -- intros H. constructor; [exists h'; auto | exact H].
        -- intros H. now inversion H.
    + split; [discriminate|]. intros H.
      inversion H as [|? ? [h2 [E2 _]] _]; subst. congruence.
Qed.

(** X2. [fetchTx] loads the first transaction of the pending list whose
    hash is the one in the route.  With the kit and chain there, the page
    ends with transaction [tx] set by the search exactly when [tx] stands in
    the list after transactions that all hash to something else and itself
    hashes to the route's hash; it ends with no transaction exactly when
    every transaction hashes to something else; and when hashing throws
    before a match is found, the transaction on the page is left as it was
    and an error toast is shown. *)
Theorem fetchTx_first_match
  (env : Env) (c : Chain) (allTxs : list EthSafeTransaction) (st : State)
  (Hc : chain env = Some c) :
  let st' := fetchTx getTransactionHash true env allTxs st in
  match findMatchingTx getTransactionHash (txHash env) allTxs with
  | Matched (Some tx) =>
      safeTx st' = Some tx
      /\ exists before after,
           allTxs = before ++ tx :: after
           /\ Forall (passes_by getTransactionHash (txHash env)) before
           /\ getTransactionHash tx = Some (txHash env)
  | Matched None =>
      safeTx st' = None /\ Forall (passes_by getTransactionHash (txHash env)) allTxs
  | FetchThrew =>
      safeTx st' = safeTx st
      /\ toast st' = Some {| toast_type := error;
                             message := "Could not load transaction" |}
      /\ exists before tx after,
           allTxs = before ++ tx :: after
           /\ Forall (passes_by getTransactionHash (txHash env)) before
           /\ getTransactionHash tx = None
  end.
Proof.
  intros st'. subst st'. unfold fetchTx. rewrite Hc.
  destruct (findMatchingTx getTransactionHash (txHash env) allTxs)
    as [[tx|]|] eqn:E.
  - split; [reflexivity|]. now apply findMatchingTx_found.
  - split; [reflexivity|]. now apply findMatchingTx_none.
  - split; [reflexivity|]. split; [reflexivity|].
    clear Hc st. induction allTxs as [|t rest IH]; simpl in E; [discriminate|].
    destruct (getTransactionHash t) as [h'|] eqn:Et.
    + destruct (String.eqb_spec h' (txHash env)) as [->|Hne]; [discriminate|].
      destruct (IH E) as (b & tx & a & -> & Hb & Htx).
      exists (t :: b), tx, a. repeat split; auto.
      constructor; [exists h'; auto | exact Hb].
    + exists [], t, rest. auto.
Qed.

End FetchTxFacts.

Lemma fetchTx_first_match_witness :
  let hashOf := fun tx : EthSafeTransaction =>
                  Some (if (Map_size (signatures tx) =? 1)%nat then "0xabc" else "0xother") in
  let st' := fetchTx hashOf true (Sample.env "1.4.1")
               [Sample.tx0; Sample.tx1; Sample.tx2] initialState in
  safeTx st' = Some Sample.tx1
  /\ exists before after,
       [Sample.tx0; Sample.tx1; Sample.tx2] = before ++ Sample.tx1 :: after
       /\ Forall (passes_by hashOf "0xabc") before
       /\ hashOf Sample.tx1 = Some "0xabc".
Proof.
  exact (fetchTx_first_match
           (fun tx => Some (if (Map_size (signatures tx) =? 1)%nat
                            then "0xabc" else "0xother"))
           (Sample.env "1.4.1") Sample.anvil
           [Sample.tx0; Sample.tx1; Sample.tx2] initialState eq_refl).
Defined.

(* ================================================================== *)
(** ** What the page does to the transaction *)
(* ================================================================== *)

Section JSMapMoreFacts.
Context {V : Type}.
Implicit Types (m : JSMap V) (k : string) (v : V).

Lemma Map_keys_set m k v k' :
  In k' (Map_keys (Map_set m k v)) <-> In k' (Map_keys m) \/ k' = k.
Proof.
  unfold Map_keys. induction m as [|[k0 v0] m IH]; simpl.
  - split; [intros [H|[]]; auto | intros [[]|H]; auto].
  - destruct (String.eqb_spec k0 k) as [->|Hne]; simpl.
    + split; [tauto | intros [H|H]; auto].
    + rewrite IH. tauto.
Qed.

Lemma Map_set_NoDup m k v :
  NoDup (Map_keys m) -> NoDup (Map_keys (Map_set m k v)).
Proof.
  unfold Map_keys. induction m as [|[k0 v0] m IH]; simpl; intros H.
  - constructor; [intros [] | constructor].
  - destruct (String.eqb_spec k0 k) as [->|Hne]; simpl; [exact H|].
    inversion H as [|? ? Hnin Hnd]; subst. constructor; [|now apply IH].
    intros Hin. apply (Map_keys_set m k v k0) in Hin as [Hin|Hin]; auto.
Qed.

Lemma Map_size_set m k v :
  Map_size (Map_set m k v)
  = if Map_has m k then Map_size m else S (Map_size m).
Proof.
  unfold Map_size, Map_has. induction m as [|[k0 v0] m IH]; simpl; [reflexivity|].
  destruct (String.eqb_spec k0 k) as [->|Hne]; simpl; [reflexivity|].
  rewrite IH. now destruct (Map_get m k).
Qed.

Lemma Map_set_idempotent m k v : Map_set (Map_set m k v) k v = Map_set m k v.
Proof.
  induction m as [|[k0 v0] m IH]; simpl.
  - now rewrite String.eqb_refl.
  - destruct (String.eqb_spec k0 k) as [->|Hne]; simpl.
    + now rewrite String.eqb_refl.
    + destruct (String.eqb_spec k0 k); [contradiction|]. now rewrite IH.
Qed.

End JSMapMoreFacts.

Lemma handleSign_safeTx o st :
  ~ brings_transaction (ClickSign o) -> safeTx (handleSign o st) = safeTx st.
Proof.
  unfold handleSign. destruct (safeTx st) as [tx|] eqn:E; simpl; [|now rewrite E].
  destruct o as [[signedTx|]|]; simpl; intros H; auto. now exfalso; apply H.
Qed.

Lemma handleBroadcast_safeTx o st : safeTx (handleBroadcast o st) = safeTx st.
Proof.
  unfold handleBroadcast. destruct (safeTx st) as [tx|] eqn:E; [|exact E].
  destruct o as [[[h|]|]|err]; exact E.
Qed.

Lemma handleExportSingle_safeTx st : safeTx (handleExportSingle st) = safeTx st.
Proof.
  unfold handleExportSingle. destruct (safeTx st) as [tx|] eqn:E; [|exact E]. exact E.
Qed.

Lemma handleShareLink_safeTx env st : safeTx (handleShareLink env st) = safeTx st.
Proof.
  unfold handleShareLink. destruct (safeTx st) as [tx|] eqn:E; [|exact E].
  destruct (chain env); exact E.
Qed.

Lemma handleShareSignature_safeTx env st :
  safeTx (handleShareSignature env st) = safeTx st.
Proof.
  unfold handleShareSignature. destruct (safeTx st) as [tx|] eqn:E; [|exact E].
  destruct (chain env); [|exact E].
  destruct (connectedAddress env) as [a|]; [|exact E].
  destruct (truthy_string a); [|exact E].
  destruct (findUserSignature tx a); exact E.
Qed.

Lemma eip712Effect_safeTx env st : safeTx (eip712Effect env st) = safeTx st.
Proof.
  unfold eip712Effect. destruct (safeTx st) as [tx|] eqn:E; [|exact E].
  destruct (safeInfo env); [|exact E]. destruct (chain env); exact E.
Qed.

Lemma extends_transaction_refl tx : extends_transaction tx tx.
Proof. split; [reflexivity | apply incl_refl]. Qed.

(** X3. No handler of the page edits the transaction's data or drops a
    signature.  Apart from the two events that bring a transaction object
    from outside (a load, a signing call that resolves), every event leaves
    a page without transaction without one, and a page with a transaction
    with one of the same [SafeTransactionData] in which every signer
    recorded before is still recorded. *)
Theorem step_keeps_transaction_data
  (env : Env) (st : State) (ev : Event)
  (Hinside : ~ brings_transaction ev) :
  match safeTx st, safeTx (step env st ev) with
  | Some tx, Some tx' => extends_transaction tx tx'
  | None, None => True
  | _, _ => False
  end.
Proof.
  assert (Hsame : forall st', safeTx st' = safeTx st ->
            match safeTx st, safeTx st' with
            | Some tx, Some tx' => extends_transaction tx tx'
            | None, None => True
            | _, _ => False
            end).
  { intros st' ->. destruct (safeTx st); [apply extends_transaction_refl | exact I]. }
  destruct ev; try (exfalso; apply Hinside; exact I); unfold step;
    try (destruct (negb (loaded st)); [now apply Hsame|]).
  - apply Hsame, eip712Effect_safeTx.
  - destruct (signDisabled env st); [now apply Hsame|].
    apply Hsame, handleSign_safeTx, Hinside.
  - destruct (broadcastDisabled env st); [now apply Hsame|].
    apply Hsame, handleBroadcast_safeTx.
  - apply Hsame, handleExportSingle_safeTx.
  - apply Hsame, handleShareLink_safeTx.
  - destruct (hasSignedThisTx _ _); [|now apply Hsame].
    apply Hsame, handleShareSignature_safeTx.
  - now apply Hsame.
  - destruct (showAddSigModal st); now apply Hsame.
  - destruct (showAddSigModal st); now apply Hsame.
  - destruct (showAddSigModal st); now apply Hsame.
  - destruct (_ && _ && _); [|now apply Hsame].
    destruct (handleAddSignature_cases env st) as [[H _]|H]; [now apply Hsame|].
    destruct H as (tx & tx' & c & Htx & _ & _ & Hadd & Hnew & _).
    rewrite Htx, Hnew. unfold addSignature in Hadd.
    destruct (is_instance tx); [|discriminate]. injection Hadd as <-.
    split; [reflexivity|]. simpl. intros k Hk. apply Map_keys_set. now left.
  - destruct (showModal st); now apply Hsame.
  - destruct (_ && _); [|now apply Hsame]. now apply Hsame.
  - now apply Hsame.
Qed.

Lemma step_keeps_transaction_data_witness :
  match safeTx (Sample.form Sample.tx1 Sample.ownerB "0xbb"),
        safeTx (step (Sample.env "1.4.1")
                     (Sample.form Sample.tx1 Sample.ownerB "0xbb")
                     ClickAddSignature) with
  | Some tx, Some tx' => extends_transaction tx tx'
  | None, None => True
  | _, _ => False
  end.
Proof.
  apply (step_keeps_transaction_data (Sample.env "1.4.1")
           (Sample.form Sample.tx1 Sample.ownerB "0xbb") ClickAddSignature).
  simpl. tauto.
Defined.

(** X4. An account that has signed cannot sign again from the page, and an
    account that is not an owner cannot sign at all: when a recorded
    signature's signer equals the connected address up to letter case, or
    when [isOwner] is false, a press on the sign button changes nothing and
    makes no call to the signing collaborator. *)
Theorem sign_button_refuses
  (env : Env) (st : State) (tx : EthSafeTransaction) (a : string)
  (o : SignOutcome)
  (Htx : safeTx st = Some tx) (Hkeys : keyed_by_signer (signatures tx))
  (Hconn : connectedAddress env = Some a) (Ha : a <> "")
  (Hrefuse : isOwner env = false
             \/ exists s, In s (Map_values (signatures tx))
                          /\ same_address (signer s) a) :
  step env st (ClickSign o) = st.
Proof.
  unfold step, loaded, signDisabled. rewrite Htx, Hconn. cbn [negb].
  destruct Hrefuse as [Hno|Hsigned].
  - now rewrite Hno.
  - assert (Hhas : hasSignedThisTx (Some tx) (Some a) = true).
    { unfold hasSignedThisTx. destruct a as [|c a]; [contradiction|].
      cbn [truthy_string]. apply Map_has_key. now apply keyed_keys_values. }
    rewrite Hhas. now rewrite orb_true_r.
Qed.

Lemma sign_button_refuses_witness :
  step (Sample.envOf Sample.ownerA "1.4.1") (Sample.page Sample.tx1)
       (ClickSign (SignResolved (Some Sample.tx2)))
  = Sample.page Sample.tx1.
Proof.
  apply (sign_button_refuses (Sample.envOf Sample.ownerA "1.4.1")
           (Sample.page Sample.tx1) Sample.tx1 Sample.ownerA
           (SignResolved (Some Sample.tx2))).
  - reflexivity.
  - repeat constructor.
  - reflexivity.
  - discriminate.
  - right. exists Sample.sigA. split; [now left | reflexivity].
Defined.

Lemma find_first {A} (p : A -> bool) (l : list A) (x : A) :
  find p l = Some x ->
  exists before after,
    l = before ++ x :: after /\ p x = true
    /\ Forall (fun y => p y = false) before.
Proof.
  induction l as [|y l IH]; simpl; [discriminate|].
  destruct (p y) eqn:E.
  - intros [= <-]. exists [], l. auto.
  - intros H. destruct (IH H) as (b & a & -> & Hp & Hb).
    exists (y :: b), a. auto.
Qed.

(** X5. The share-signature link carries the connected account's own
    signature.  With a transaction whose signatures are keyed by signer, a
    chain and a connected address that has signed, a press on the
    share-signature button writes one link to the clipboard; its payload is
    [{ signature: { signer, data, isContractSignature }, txHash }] with the
    route's hash and the first recorded signature whose signer equals the
    connected address up to letter case. *)
Theorem share_signature_is_own
  (env : Env) (st : State) (tx : EthSafeTransaction) (c : Chain) (a : string)
  (Htx : safeTx st = Some tx) (Hc : chain env = Some c)
  (Hkeys : keyed_by_signer (signatures tx))
  (Hconn : connectedAddress env = Some a)
  (Hsigned : hasSignedThisTx (Some tx) (Some a) = true) :
  exists s before after,
    Map_values (signatures tx) = before ++ s :: after
    /\ same_address (signer s) a
    /\ Forall (fun s' => ~ same_address (signer s') a) before
    /\ effects (step env st ClickShareSignature)
       = effects st
         ++ [ClipboardWrite
               (ImportSigUrl (safeAddress env)
                  (JObj [ ("signature",
                           JObj [ ("signer", JStr (signer s));
                                  ("data", JStr (sig_data s));
                                  ("isContractSignature",
                                   JBool (isContractSignature s)) ]);
                          ("txHash", JStr (txHash env)) ])
                  (chain_id c))].
Proof.
  assert (Ha : truthy_string a = true).
  { unfold hasSignedThisTx in Hsigned. now destruct (truthy_string a). }
  assert (Hex : exists s, findUserSignature tx a = Some s).
  { unfold findUserSignature. apply find_some_iff.
    unfold hasSignedThisTx in Hsigned. rewrite Ha in Hsigned.
    apply Map_has_key in Hsigned.
    apply (keyed_keys_values _ _ Hkeys) in Hsigned as [s [Hin Hs]].
    exists s. split; [exact Hin | now apply String.eqb_eq]. }
  destruct Hex as [s Hfind]. pose proof Hfind as Hfirst.
  unfold findUserSignature in Hfirst.
  apply find_first in Hfirst as (before & after & Hsplit & Hs & Hbefore).
  exists s, before, after. split; [exact Hsplit|].
  split; [now apply String.eqb_eq|]. split.
  - rewrite Forall_forall in *. intros s' Hin Hsame.
    specialize (Hbefore s' Hin). apply String.eqb_neq in Hbefore. contradiction.
  - unfold step, loaded. rewrite Htx, Hconn, Hsigned. cbn [negb].
    unfold handleShareSignature. rewrite Htx, Hc, Hconn, Ha, Hfind. reflexivity.
Qed.

Lemma share_signature_is_own_witness :
  exists s before after,
    Map_values (signatures Sample.tx2) = before ++ s :: after
    /\ same_address (signer s) (toUpperCase Sample.ownerB)
    /\ Forall (fun s' => ~ same_address (signer s') (toUpperCase Sample.ownerB)) before
    /\ effects (step (Sample.envOf (toUpperCase Sample.ownerB) "1.4.1")
                     (Sample.page Sample.tx2) ClickShareSignature)
       = effects (Sample.page Sample.tx2)
         ++ [ClipboardWrite
               (ImportSigUrl Sample.safe
                  (JObj [ ("signature",
                           JObj [ ("signer", JStr (signer s));
                                  ("data", JStr (sig_data s));
                                  ("isContractSignature",
                                   JBool (isContractSignature s)) ]);
                          ("txHash", JStr "0xabc") ])
                  31337)].
Proof.
  apply (share_signature_is_own
           (Sample.envOf (toUpperCase Sample.ownerB) "1.4.1")
           (Sample.page Sample.tx2) Sample.tx2 Sample.anvil
           (toUpperCase Sample.ownerB)).
  - reflexivity.
  - reflexivity.
  - repeat constructor.
  - reflexivity.
  - reflexivity.
Defined.

(* ================================================================== *)
(** ** Counting signatures *)
(* ================================================================== *)

Lemma keyed_values_keys (m : JSMap SafeSignature) :
  keyed_by_signer m -> map signer_key (Map_values m) = Map_keys m.
Proof.
  unfold keyed_by_signer, Map_values, Map_keys, signer_key.
  induction m as [|[k s] m IH]; simpl; intros H; [reflexivity|].
  inversion H as [|? ? Hk Hm]; subst. simpl in Hk. rewrite Hk. f_equal. now apply IH.
Qed.

Lemma distinct_signers_keys (m : JSMap SafeSignature) :
  keyed_by_signer m -> (distinct_signers m <-> NoDup (Map_keys m)).
Proof.
  intros Hk. unfold distinct_signers. fold signer_key.
  change (fun s : SafeSignature => toLowerCase (signer s)) with signer_key.
  now rewrite keyed_values_keys.
Qed.

(** X6. A manual addition counts a signer once.  When the manual flow
    accepts its input, the signature count stays the same if the typed-in
    signer has already signed (whatever the letter case it is typed in) and
    grows by one otherwise; the signatures stay keyed by signer, and stay
    pairwise distinct in signer if they were. *)
Theorem manual_add_counts_signer_once
  (env : Env) (st : State) (tx : EthSafeTransaction) (c : Chain)
  (Htx : safeTx st = Some tx) (Hc : chain env = Some c)
  (Hinst : is_instance tx = true) (Hshape : shape_ok st = true)
  (Hkeys : keyed_by_signer (signatures tx)) :
  exists tx',
    safeTx (handleAddSignature env st) = Some tx'
    /\ Map_size (signatures tx')
       = (if hasSignedThisTx (Some tx) (Some (signerAddress st))
          then Map_size (signatures tx)
          else S (Map_size (signatures tx)))
    /\ keyed_by_signer (signatures tx')
    /\ (distinct_signers (signatures tx) -> distinct_signers (signatures tx')).
Proof.
  pose proof (C := handleAddSignature_cases env st).
  destruct C as [[Hsame Heff]|C].
  - exfalso. revert Hsame. unfold handleAddSignature, shape_ok in *.
    rewrite Htx, Hc. apply andb_true_iff in Hshape as [Ha Hh].
    assert (Hna : truthy_string (signerAddress st) = true).
    { destruct (signerAddress st); [discriminate | reflexivity]. }
    assert (Hnd : truthy_string (signatureData st) = true).
    { destruct (signatureData st); [discriminate | reflexivity]. }
    rewrite Hna, Hnd, Ha, Hh. simpl. unfold addSignature. rewrite Hinst. simpl.
    intros [= E]. apply (f_equal is_instance) in E. simpl in E.
    congruence.
  - destruct C as (tx0 & tx1 & c0 & Htx0 & _ & _ & Hadd & Hnew & _).
    rewrite Htx in Htx0. injection Htx0 as <-.
    unfold addSignature in Hadd. rewrite Hinst in Hadd. injection Hadd as <-.
    eexists. split; [exact Hnew|]. cbn [spread signatures EthSafeSignature signer].
    assert (Hna : truthy_string (signerAddress st) = true).
    { unfold shape_ok in Hshape. apply andb_true_iff in Hshape as [Ha _].
      destruct (signerAddress st); [discriminate | reflexivity]. }
    split; [|split].
    + rewrite Map_size_set. unfold hasSignedThisTx. now rewrite Hna.
    + apply (keyed_by_signer_set (signatures tx)
               (EthSafeSignature (signerAddress st) (signatureData st) false) Hkeys).
    + intros Hd. apply distinct_signers_keys.
      * apply (keyed_by_signer_set (signatures tx)
                 (EthSafeSignature (signerAddress st) (signatureData st) false) Hkeys).
      * apply Map_set_NoDup. now apply distinct_signers_keys.
Qed.

Lemma manual_add_counts_signer_once_witness :
  let st := Sample.form Sample.tx2 (toUpperCase Sample.ownerB) "0xcc" in
  exists tx',
    safeTx (handleAddSignature (Sample.env "1.4.1")
              (setSignerAddress "0x3333333333333333333333333333333333333333" st))
    = Some tx'
    /\ Map_size (signatures tx')
       = (if hasSignedThisTx (Some Sample.tx2)
               (Some "0x3333333333333333333333333333333333333333")
          then Map_size (signatures Sample.tx2)
          else S (Map_size (signatures Sample.tx2)))
    /\ keyed_by_signer (signatures tx')
    /\ (distinct_signers (signatures Sample.tx2) -> distinct_signers (signatures tx')).
Proof.
  apply (manual_add_counts_signer_once (Sample.env "1.4.1")
           (setSignerAddress "0x3333333333333333333333333333333333333333"
              (Sample.form Sample.tx2 (toUpperCase Sample.ownerB) "0xcc"))
           Sample.tx2 Sample.anvil).
  - reflexivity.
  - reflexivity.
  - reflexivity.
  - reflexivity.
  - repeat constructor.
Defined.

Lemma addSignature_steps tx s tx' :
  addSignature tx s = Some tx' ->
  signatures tx' = Map_set (signatures tx) (signer_key s) s
  /\ tx_data tx' = tx_data tx /\ is_instance tx' = true.
Proof.
  unfold addSignature. destruct (is_instance tx); [|discriminate].
  intros [= <-]. auto.
Qed.

Lemma addSignatures_keys ss : forall tx tx',
  addSignatures tx ss = Some tx' ->
  (NoDup (Map_keys (signatures tx)) -> NoDup (Map_keys (signatures tx')))
  /\ forall k, In k (Map_keys (signatures tx'))
               <-> In k (Map_keys (signatures tx)) \/ In k (map signer_key ss).
Proof.
  induction ss as [|s ss IH]; simpl; intros tx tx'.
  - intros [= <-]. split; [auto | intros k; simpl; tauto].
  - destruct (addSignature tx s) as [tx1|] eqn:E; simpl; [|discriminate].
    intros H. apply addSignature_steps in E as (Es & _ & _).
    destruct (IH _ _ H) as [Hnd Hk]. rewrite Es in Hnd, Hk. split.
    + intros H0. apply Hnd. now apply Map_set_NoDup.
    + intros k. rewrite Hk, Map_keys_set. simpl. intuition (subst; auto).
Qed.

(** X7. The number of signatures of a transaction is the number of
    distinct signers that signed it.  For a transaction built from a fresh
    one by adding the signatures [ss] in turn, the recorded signatures are
    pairwise distinct in signer up to letter case, and their number is the
    number of different lower-cased signers in [ss], however often and in
    whatever letter case a signer occurs. *)
Theorem signature_count_is_distinct_signers
  (d : SafeTransactionData) (ss : list SafeSignature) (tx : EthSafeTransaction)
  (Hbuilt : addSignatures (new_EthSafeTransaction d) ss = Some tx) :
  distinct_signers (signatures tx)
  /\ Map_size (signatures tx)
     = List.length (nodup string_dec (map signer_key ss))
  /\ (forall s, In s ss ->
        exists s', In s' (Map_values (signatures tx))
                   /\ same_address (signer s') (signer s)).
Proof.
  pose proof (new_transaction_keyed _ _ _ Hbuilt) as Hkeyed.
  destruct (addSignatures_keys _ _ _ Hbuilt) as [Hnd Hk]. simpl in Hnd, Hk.
  assert (Hnodup : NoDup (Map_keys (signatures tx))) by (apply Hnd; constructor).
  split; [now apply distinct_signers_keys|]. split.
  - unfold Map_size. rewrite <- (length_map fst). fold (Map_keys (signatures tx)).
    apply Nat.le_antisymm; apply NoDup_incl_length;
      try exact Hnodup; try apply NoDup_nodup.
    + intros k Hin. apply nodup_In. apply Hk in Hin. tauto.
    + intros k Hin. apply nodup_In in Hin. apply Hk. now right.
  - intros s Hin.
    assert (Hkey : In (signer_key s) (Map_keys (signatures tx))).
    { apply Hk. right. now apply in_map. }
    apply (keyed_keys_values _ _ Hkeyed) in Hkey as [s' [Hin' Hs']].
    exists s'. auto.
Qed.

Lemma signature_count_is_distinct_signers_witness :
  let ss := [ Sample.sigA; Sample.sigB;
              EthSafeSignature (toUpperCase Sample.ownerA) "0xcc" false ] in
  let tx := {| tx_data := Sample.txdata;
               signatures :=
                 [ (toLowerCase Sample.ownerA,
                    EthSafeSignature (toUpperCase Sample.ownerA) "0xcc" false);
                   (toLowerCase Sample.ownerB, Sample.sigB) ];
               is_instance := true |} in
  distinct_signers (signatures tx)
  /\ Map_size (signatures tx)
     = List.length (nodup string_dec (map signer_key ss))
  /\ (forall s, In s ss ->
        exists s', In s' (Map_values (signatures tx))
                   /\ same_address (signer s') (signer s)).
Proof.
  apply (signature_count_is_distinct_signers Sample.txdata
           [ Sample.sigA; Sample.sigB;
             EthSafeSignature (toUpperCase Sample.ownerA) "0xcc" false ]).
  reflexivity.
Defined.

(* ================================================================== *)
(** ** When the transaction hashes are shown, and what they depend on *)
(* ================================================================== *)

Lemma encodeAddress_valid s e : encodeAddress (VStr s) = Some e -> is_address s = true.
Proof.
  unfold encodeAddress, is_address. destruct (getAddress s); [reflexivity | discriminate].
Qed.

Lemma encodeBytes_valid s e : encodeBytes (VStr s) = Some e -> is_bytes s = true.
Proof.
  unfold encodeBytes, is_bytes. destruct (getBytes s); [reflexivity | discriminate].
Qed.

Lemma encodeUint_valid bits v e : encodeUint bits v = Some e -> is_uint bits v = true.
Proof.
  unfold encodeUint, is_uint. destruct (getBigInt v); simpl; [|discriminate].
  now destruct (_ && _).
Qed.

Ltac split_binds :=
  repeat match goal with
         | H : option_bind ?x _ = Some _ |- _ =>
             let E := fresh "E" in
             destruct x eqn:E; cbn [option_bind] in H; [|discriminate H]
         end.

Lemma hashStruct_SafeTx_valid d mh :
  hashStruct "SafeTx" SafeTx_types (SafeTx_message d) = Some mh ->
  valid_SafeTransactionData d = true.
Proof.
  unfold hashStruct, SafeTx_types, SafeTx_message. intros H.
  cbn -[keccak256 encodeAddress encodeUint encodeBytes utf8] in H.
  split_binds. unfold valid_SafeTransactionData.
  repeat match goal with
         | E : encodeAddress _ = Some _ |- _ => apply encodeAddress_valid in E; rewrite E
         | E : encodeBytes _ = Some _ |- _ => apply encodeBytes_valid in E; rewrite E
         | E : encodeUint _ _ = Some _ |- _ => apply encodeUint_valid in E; rewrite E
         end.
  reflexivity.
Qed.

Lemma hashDomain_SafeTx_valid c safe dh :
  hashDomain (SafeTx_domain c safe) = Some dh ->
  is_uint 256 (VNum (chain_id c)) = true /\ is_address safe = true.
Proof.
  unfold hashDomain, hashStruct, SafeTx_domain, domainFields, domainObject.
  intros H. cbn -[keccak256 encodeAddress encodeUint encodeBytes utf8] in H.
  split_binds. split; [eapply encodeUint_valid | eapply encodeAddress_valid]; eauto.
Qed.

(** X8. The transaction hashes are shown exactly for well-formed input.
    With a transaction loaded, a Safe read and a chain connected, the
    hashing effect leaves hashes on the page if and only if every field of
    the transaction data is well formed for its type in [SafeTx], the chain
    id is an unsigned integer and the Safe address is an address; otherwise
    it clears them, whatever was shown before. *)
Theorem eip712_hashes_iff_valid
  (env : Env) (st : State) (tx : EthSafeTransaction) (i : SafeInfo) (c : Chain)
  (Htx : safeTx st = Some tx) (Hi : safeInfo env = Some i)
  (Hc : chain env = Some c) :
  let valid := valid_SafeTransactionData (tx_data tx)
               && is_uint 256 (VNum (chain_id c))
               && is_address (safeAddress env) in
  (valid = true <-> exists e, eip712Data (eip712Effect env st) = Some e)
  /\ (valid = false <-> eip712Data (eip712Effect env st) = None).
Proof.
  intros valid.
  assert (Heff : eip712Data (eip712Effect env st)
                 = calculateEip712 tx c (safeAddress env)).
  { unfold eip712Effect. now rewrite Htx, Hi, Hc. }
  rewrite Heff.
  assert (Hiff : valid = true <-> exists e, calculateEip712 tx c (safeAddress env) = Some e).
  { subst valid. split.
    - intros H. apply andb_true_iff in H as [H Ha]. apply andb_true_iff in H as [Hv Hn].
      destruct (hashDomain_some (Some (chain_id c)) (safeAddress env) Ha Hn) as [dh Edh].
      destruct (hashStruct_SafeTx_some _ Hv) as [mh Emh].
      unfold calculateEip712, TypedDataEncoder_hash, SafeTx_domain.
      rewrite Edh, Emh. simpl. eauto.
    - intros [e H]. unfold calculateEip712 in H.
      destruct (hashDomain _) as [dh|] eqn:Edh; [|discriminate].
      cbn [option_bind] in H.
      destruct (hashStruct _ _ _) as [mh|] eqn:Emh; [|discriminate].
      apply hashDomain_SafeTx_valid in Edh as [Hn Ha].
      apply hashStruct_SafeTx_valid in Emh. now rewrite Emh, Hn, Ha. }
  split; [exact Hiff|]. split.
  - intros Hf. destruct (calculateEip712 tx c (safeAddress env)) as [e|]; [|reflexivity].
    assert (valid = true) by (apply Hiff; eauto). congruence.
  - intros Hn. destruct valid eqn:E; [|reflexivity].
    destruct (proj1 Hiff eq_refl) as [e He]. congruence.
Qed.

Lemma eip712_hashes_iff_valid_witness :
  let bad := {| tx_data :=
                  {| to := "0x1111"; value := "0"; data := "0x"; operation := 0;
                     safeTxGas := "0"; baseGas := "0"; gasPrice := "0";
                     gasToken := Sample.zeroAddress;
                     refundReceiver := Sample.zeroAddress; nonce := 4 |};
                signatures := []; is_instance := true |} in
  let st := eip712Effect (Sample.env "1.4.1") (Sample.page Sample.tx0) in
  let st' := setSafeTx (Some bad) st in
  let valid := valid_SafeTransactionData (tx_data bad)
               && is_uint 256 (VNum 31337) && is_address Sample.safe in
  (valid = true <-> exists e, eip712Data (eip712Effect (Sample.env "1.4.1") st') = Some e)
  /\ (valid = false <-> eip712Data (eip712Effect (Sample.env "1.4.1") st') = None).
Proof.
  intros bad st st'.
  exact (eip712_hashes_iff_valid (Sample.env "1.4.1") st' bad
           (Sample.info "1.4.1") Sample.anvil eq_refl eq_refl eq_refl).
Defined.

Example stale_hashes_are_cleared :
  let bad := {| tx_data :=
                  {| to := "0x1111"; value := "0"; data := "0x"; operation := 0;
                     safeTxGas := "0"; baseGas := "0"; gasPrice := "0";
                     gasToken := Sample.zeroAddress;
                     refundReceiver := Sample.zeroAddress; nonce := 4 |};
                signatures := []; is_instance := true |} in
  let st := eip712Effect (Sample.env "1.4.1") (Sample.page Sample.tx0) in
  eip712Data st <> None
  /\ eip712Data (eip712Effect (Sample.env "1.4.1") (setSafeTx (Some bad) st)) = None.
Proof. split; [vm_compute; discriminate | vm_compute; reflexivity]. Qed.

Lemma prefixed_cases s :
  let prefixed := match s with
                  | String "0" (String "x" _) => s
                  | _ => String "0" (String "x" s)
                  end in
  (prefixed = s /\ exists t, s = String "0" (String "x" t))
  \/ prefixed = String "0" (String "x" s).
Proof.
  destruct s as [|c0 s]; [now right|].
  destruct c0 as [[] [] [] [] [] [] [] []]; try (now right).
  destruct s as [|c1 t]; [now right|].
  destruct c1 as [[] [] [] [] [] [] [] []]; try (now right).
  left. split; [reflexivity | now exists t].
Qed.

(** What [getAddress] accepts, and what it returns. *)
Lemma getAddress_inv s x :
  getAddress s = Some x ->
  exists r, (s = String "0" (String "x" r) \/ s = r)
            /\ String.length r = 40%nat /\ all_chars is_hex_digit r = true
            /\ x = getChecksumAddress (String "0" (String "x" r)).
Proof.
  unfold getAddress.
  destruct (prefixed_cases s) as [[Ep [t Et]]|Ep]; cbv zeta in Ep; rewrite Ep;
    clear Ep.
  - destruct (matches_address_regex s) eqn:Ere; [|discriminate].
    destruct (matches_address_regex_inv _ Ere) as (r & -> & Hlen & Hhex).
    intros H. exists r. repeat split; auto.
    destruct (_ && _ && _); [discriminate | congruence].
  - destruct (matches_address_regex _) eqn:Ere; [|discriminate].
    destruct (matches_address_regex_inv _ Ere) as (r & Er & Hlen & Hhex).
    injection Er as <-. intros H. exists s. repeat split; auto.
    destruct (_ && _ && _); [discriminate | congruence].
Qed.

Lemma getChecksumAddress_hex r :
  String.length r = 40%nat ->
  getChecksumAddress (String "0" (String "x" r))
  = String "0" (String "x"
      (checksum_chars 0 (keccak256 (utf8 (toLowerCase r))) (toLowerCase r))).
Proof.
  intros Hlen. unfold getChecksumAddress. cbn [toLowerCase map_string].
  change (lower_ascii "0") with "0"%char. change (lower_ascii "x") with "x"%char.
  cbn [substring]. fold (toLowerCase r).
  assert (Hsub : substring 0 40 (toLowerCase r) = toLowerCase r).
  { rewrite <- Hlen. unfold toLowerCase.
    rewrite <- (map_string_length lower_ascii r). apply substring_all. }
  now rewrite Hsub.
Qed.

Lemma lower_x_not_hex c : lower_ascii c = "x"%char -> is_hex_digit c = false.
Proof. destruct c as [[] [] [] [] [] [] [] []]; vm_compute; congruence. Qed.

Lemma all_hex_no_x r c t :
  all_chars is_hex_digit r = true -> toLowerCase r <> String c (String "x" t).
Proof.
  destruct r as [|c0 [|c1 r]]; simpl; try discriminate.
  intros H E. injection E as _ E1 _.
  apply lower_x_not_hex in E1. rewrite E1 in H.
  now rewrite andb_false_r in H.
Qed.

(** [getAddress] reads an address whatever its letter case, to one and the
    same checksummed form. *)
Lemma getAddress_same_address a b x y :
  same_address a b -> getAddress a = Some x -> getAddress b = Some y -> x = y.
Proof.
  unfold same_address. intros Hsame Ha Hb.
  apply getAddress_inv in Ha as (r & Hr & Hlen & Hhex & ->).
  apply getAddress_inv in Hb as (r' & Hr' & Hlen' & Hhex' & ->).
  rewrite !getChecksumAddress_hex by assumption.
  assert (E : toLowerCase r = toLowerCase r').
  { destruct Hr as [-> | ->], Hr' as [-> | ->]; cbn [toLowerCase map_string] in Hsame.
    - now injection Hsame.
    - exfalso. symmetry in Hsame. revert Hsame. fold (toLowerCase r).
      change (lower_ascii "0") with "0"%char. change (lower_ascii "x") with "x"%char.
      now apply all_hex_no_x.
    - exfalso. revert Hsame. fold (toLowerCase r').
      change (lower_ascii "0") with "0"%char. change (lower_ascii "x") with "x"%char.
      now apply all_hex_no_x.
    - exact Hsame. }
  now rewrite E.
Qed.

Lemma encodeAddress_same_address a b :
  same_address a b -> is_address a = true -> is_address b = true ->
  encodeAddress (VStr a) = encodeAddress (VStr b).
Proof.
  unfold is_address, encodeAddress. intros Hs Ha Hb.
  destruct (getAddress a) as [x|] eqn:Ea; [|discriminate].
  destruct (getAddress b) as [y|] eqn:Eb; [|discriminate].
  now rewrite (getAddress_same_address a b x y Hs Ea Eb).
Qed.

Lemma encodeUint_same_number bits a b :
  same_number a b -> encodeUint bits (VStr a) = encodeUint bits (VStr b).
Proof. unfold same_number, encodeUint. now intros ->. Qed.

Lemma encodeBytes_same_bytes a b :
  same_bytes a b -> encodeBytes (VStr a) = encodeBytes (VStr b).
Proof. unfold same_bytes, encodeBytes. now intros ->. Qed.

(** X9. The hashes do not depend on how the transaction is written down.
    Two valid transaction data whose addresses agree up to letter case,
    whose numeric fields denote the same integers (decimal or hexadecimal)
    and whose payloads are the same bytes, for Safe addresses that agree up
    to letter case, give the same three hashes. *)
Theorem eip712_hashes_same_transaction
  (tx tx' : EthSafeTransaction) (c : Chain) (safe safe' : string)
  (Hvalid : valid_SafeTransactionData (tx_data tx) = true)
  (Hvalid' : valid_SafeTransactionData (tx_data tx') = true)
  (Hsame : same_transaction (tx_data tx) (tx_data tx'))
  (Hsafe : is_address safe = true) (Hsafe' : is_address safe' = true)
  (Hsafes : same_address safe safe') :
  calculateEip712 tx c safe = calculateEip712 tx' c safe'.
Proof.
  destruct Hsame as (Hto & Hvalue & Hdata & Hop & Hstg & Hbg & Hgp & Hgt & Hrr & Hn).
  unfold valid_SafeTransactionData in Hvalid, Hvalid'.
  repeat (apply andb_true_iff in Hvalid as [Hvalid ?]).
  repeat (apply andb_true_iff in Hvalid' as [Hvalid' ?]).
  assert (Hd : hashDomain (SafeTx_domain c safe) = hashDomain (SafeTx_domain c safe')).
  { unfold hashDomain, hashStruct, SafeTx_domain, domainFields, domainObject.
    cbn -[keccak256 encodeAddress encodeUint encodeBytes utf8].
    now rewrite (encodeAddress_same_address safe safe'). }
  assert (Hm : hashStruct "SafeTx" SafeTx_types (SafeTx_message (tx_data tx))
               = hashStruct "SafeTx" SafeTx_types (SafeTx_message (tx_data tx'))).
  { unfold hashStruct, SafeTx_types, SafeTx_message.
    cbn -[keccak256 encodeAddress encodeUint encodeBytes utf8].
    rewrite (encodeAddress_same_address _ _ Hto) by assumption.
    rewrite (encodeAddress_same_address _ _ Hgt) by assumption.
    rewrite (encodeAddress_same_address _ _ Hrr) by assumption.
    rewrite (encodeUint_same_number 256 _ _ Hvalue).
    rewrite (encodeUint_same_number 256 _ _ Hstg).
    rewrite (encodeUint_same_number 256 _ _ Hbg).
    rewrite (encodeUint_same_number 256 _ _ Hgp).
    rewrite (encodeBytes_same_bytes _ _ Hdata).
    now rewrite Hop, Hn. }
  unfold calculateEip712, TypedDataEncoder_hash. now rewrite Hd, Hm.
Qed.

Lemma eip712_hashes_same_transaction_witness :
  let tx' := {| tx_data :=
                  {| to := Sample.recipient;
                     value := "0x0"; data := "0X"; operation := 0;
                     safeTxGas := " 0 "; baseGas := "-0"; gasPrice := "00";
                     gasToken := Sample.zeroAddress;
                     refundReceiver := Sample.zeroAddress; nonce := 4 |};
                signatures := signatures Sample.tx2; is_instance := false |} in
  calculateEip712 Sample.tx0 Sample.anvil Sample.ownerA
  = calculateEip712 tx' Sample.anvil (toLowerCase Sample.ownerA).
Proof.
  intros tx'.
  apply (eip712_hashes_same_transaction Sample.tx0 tx' Sample.anvil
           Sample.ownerA (toLowerCase Sample.ownerA));
    try (vm_compute; reflexivity).
  repeat split; vm_compute; reflexivity.
Defined.

(* ================================================================== *)
(** ** SafeMessage hashes: which requests get them, which versions get a
       chain id *)
(* ================================================================== *)

Section SafeMessageOnlySupported.

Variable JSON_parse : string -> option json.
Variable TypedDataEncoder_hash_json : json -> json -> json -> option (list byte).

Lemma truthy_property_inv j key v :
  truthy_property j key = Some v ->
  json_property j key = Some v /\ truthy v = true.
Proof.
  unfold truthy_property. destruct (json_property j key) as [w|]; [|discriminate].
  destruct (truthy w) eqn:E; [|discriminate]. intros [= <-]. auto.
Qed.

Lemma safeMessageMessage_of_inv method params s :
  safeMessageMessage_of JSON_parse TypedDataEncoder_hash_json method params = Some s ->
  supported_method method
  /\ exists inner,
       inner_hash JSON_parse TypedDataEncoder_hash_json method params inner
       /\ s = hexlify inner.
Proof.
  unfold safeMessageMessage_of, supported_method.
  destruct (String.eqb_spec method "personal_sign") as [->|_].
  { destruct params as [|[| | |m| |] rest]; simpl; try discriminate.
    intros [= <-]. split; [auto|]. eexists. split; [constructor | reflexivity]. }
  destruct (String.eqb_spec method "eth_sign") as [->|_].
  { destruct params as [|a [|[| | |m| |] rest]]; simpl; try discriminate.
    intros [= <-]. split; [auto|]. eexists. split; [constructor | reflexivity]. }
  destruct ((method =? "eth_signTypedData")%string
            || (method =? "eth_signTypedData_v4")%string) eqn:Em; [|discriminate].
  assert (Hm : method = "eth_signTypedData" \/ method = "eth_signTypedData_v4").
  { apply orb_true_iff in Em as [E|E]; apply String.eqb_eq in E; auto. }
  intros H. split; [tauto|].
  destruct params as [|a [|param rest]]; simpl in H; try discriminate.
  destruct (match param with JStr s0 => JSON_parse s0 | _ => Some param end)
    as [td|] eqn:Etd.
  2:{ destruct param; simpl in H; try discriminate; rewrite Etd in H; discriminate. }
  assert (Htd : typed_data_of JSON_parse param td).
  { unfold typed_data_of. destruct param; congruence. }
  assert (H' : (domain <- truthy_property td "domain" ;;
                types <- truthy_property td "types" ;;
                message0 <- truthy_property td "message" ;;
                h <- TypedDataEncoder_hash_json domain types message0 ;;
                Some (hexlify h)) = Some s).
  { destruct param; simpl in H, Etd; try (injection Etd as <-; exact H).
    rewrite Etd in H. exact H. }
  clear H.
  destruct (truthy_property td "domain") as [dom|] eqn:Ed; [|discriminate].
  destruct (truthy_property td "types") as [tys|] eqn:Et; [|discriminate].
  destruct (truthy_property td "message") as [msg|] eqn:Emsg; [|discriminate].
  cbn [option_bind] in H'.
  destruct (TypedDataEncoder_hash_json dom tys msg) as [h|] eqn:Eh; [|discriminate].
  injection H' as <-.
  apply truthy_property_inv in Ed as [Ed Edt].
  apply truthy_property_inv in Et as [Et Ett].
  apply truthy_property_inv in Emsg as [Emsg Emt].
  exists h. split; [|reflexivity].
  eapply inner_typed_data; eauto.
Qed.

(** X10. SafeMessage hashes are shown for the four signing methods only,
    and always over the inner hash.  When the effect runs (a method is set,
    the chain id is not 0) and leaves hashes on the page, the method is one
    of [personal_sign], [eth_sign], [eth_signTypedData],
    [eth_signTypedData_v4], the request has the parameters that method
    needs, and the [safeMessage] shown is the hex form of the request's
    inner hash; for any other method the hashes are cleared. *)
Theorem safeMessage_hashes_only_for_supported_methods
  (method : string) (params : list json) (i : SafeInfo) (chainId0 : Z)
  (safe : string) (prev : option SafeMessageData)
  (Hmethod : method <> "") (Hchain : chainId0 <> 0%Z) :
  match safeMessageEffect JSON_parse TypedDataEncoder_hash_json
          (Some params) method (Some i) chainId0 safe prev with
  | Some r =>
      supported_method method
      /\ exists inner,
           inner_hash JSON_parse TypedDataEncoder_hash_json method params inner
           /\ safeMessage r = hexlify inner
  | None => True
  end
  /\ (~ supported_method method ->
      safeMessageEffect JSON_parse TypedDataEncoder_hash_json
        (Some params) method (Some i) chainId0 safe prev = None).
Proof.
  assert (Hrun : safeMessageEffect JSON_parse TypedDataEncoder_hash_json
                   (Some params) method (Some i) chainId0 safe prev
                 = (s <- safeMessageMessage_of JSON_parse TypedDataEncoder_hash_json
                           method params ;;
                    calculateSafeMessage s i chainId0 safe)).
  { unfold safeMessageEffect. destruct method; [contradiction|].
    apply Z.eqb_neq in Hchain. now rewrite Hchain. }
  rewrite Hrun.
  destruct (safeMessageMessage_of _ _ method params) as [s|] eqn:Es;
    cbn [option_bind].
  - destruct (safeMessageMessage_of_inv _ _ _ Es) as [Hs [inner [Hin ->]]].
    split; [|tauto].
    destruct (calculateSafeMessage _ _ _ _) as [r|] eqn:Er; [|exact I].
    split; [exact Hs|]. exists inner. split; [exact Hin|].
    unfold calculateSafeMessage in Er.
    destruct (hashDomain _); [|discriminate]. cbn [option_bind] in Er.
    destruct (hashStruct _ _ _); [|discriminate]. cbn [option_bind] in Er.
    destruct (TypedDataEncoder_hash _ _ _ _); [|discriminate].
    now injection Er as <-.
  - split; [exact I | reflexivity].
Qed.

End SafeMessageOnlySupported.

Lemma safeMessage_hashes_only_for_supported_methods_witness :
  match safeMessageEffect (fun _ => None) (fun _ _ _ => None)
          (Some [JStr Sample.ownerA; JStr "hello"]) "eth_sign"
          (Some (Sample.info "1.4.1")) 31337 Sample.safe None with
  | Some r =>
      supported_method "eth_sign"
      /\ exists inner,
           inner_hash (fun _ => None) (fun _ _ _ => None) "eth_sign"
             [JStr Sample.ownerA; JStr "hello"] inner
           /\ safeMessage r = hexlify inner
  | None => True
  end
  /\ (~ supported_method "eth_sign" ->
      safeMessageEffect (fun _ => None) (fun _ _ _ => None)
        (Some [JStr Sample.ownerA; JStr "hello"]) "eth_sign"
        (Some (Sample.info "1.4.1")) 31337 Sample.safe None = None).
Proof.
  apply (safeMessage_hashes_only_for_supported_methods
           (fun _ => None) (fun _ _ _ => None) "eth_sign"
           [JStr Sample.ownerA; JStr "hello"] (Sample.info "1.4.1") 31337
           Sample.safe None); discriminate.
Defined.

Lemma version_comparison_table :
  forallb (fun major =>
    forallb (fun minor =>
      forallb (fun patch =>
        Bool.eqb (js_string_ge (version_string major minor patch) "1.3.0")
                 (at_least_1_3_0 major minor patch))
        (seq 0 10)) (seq 0 10)) (seq 0 10) = true.
Proof. vm_compute. reflexivity. Qed.

Lemma two_digit_minor_table :
  forallb (fun minor =>
    forallb (fun patch =>
      negb (js_string_ge (version_string 1 minor patch) "1.3.0"))
      (seq 0 100)) (seq 10 20) = true.
Proof. vm_compute. reflexivity. Qed.

(** X11. The version test of the SafeMessage domain is a comparison of
    strings.  For versions whose three components are single digits it
    agrees with the order of versions: the domain has the chain id exactly
    when the version is at least 1.3.0.  For a version 1.10 to 1.29 it does
    not: the domain is built without the chain id. *)
Theorem SafeMessage_domain_version_rule
  (major minor patch minor2 patch2 : nat)
  (owners0 : list string) (threshold0 nonce0 : Z) (chainId0 : Z) (safe : string)
  (Hmajor : major < 10) (Hminor : minor < 10) (Hpatch : patch < 10)
  (Hminor2 : 10 <= minor2 < 30) (Hpatch2 : patch2 < 100) :
  let info0 := fun v => {| owners := owners0; threshold := threshold0;
                           info_nonce := nonce0; version := Some v |} in
  chainId (SafeMessage_domain (info0 (version_string major minor patch))
                              chainId0 safe)
  = (if at_least_1_3_0 major minor patch then Some chainId0 else None)
  /\ chainId (SafeMessage_domain (info0 (version_string 1 minor2 patch2))
                                  chainId0 safe) = None.
Proof.
  intros info0.
  assert (Hdom : forall v, v <> "" ->
            chainId (SafeMessage_domain (info0 v) chainId0 safe)
            = if js_string_ge v "1.3.0" then Some chainId0 else None).
  { intros v Hv. rewrite SafeMessage_domain_chainId.
    unfold safeVersion_or_default. simpl. now destruct v. }
  assert (Hne : forall a b c, version_string a b c <> "").
  { intros a b c. unfold version_string.
    destruct (decimal_of_nat a); discriminate. }
  pose proof version_comparison_table as T1.
  pose proof two_digit_minor_table as T2.
  rewrite forallb_forall in T1, T2.
  split.
  - rewrite Hdom by apply Hne.
    assert (T : Bool.eqb (js_string_ge (version_string major minor patch) "1.3.0")
                         (at_least_1_3_0 major minor patch) = true).
    { specialize (T1 major). rewrite forallb_forall in T1.
      specialize (T1 (proj2 (in_seq 10 0 major) (conj (Nat.le_0_l _) Hmajor)) minor).
      rewrite forallb_forall in T1.
      specialize (T1 (proj2 (in_seq 10 0 minor) (conj (Nat.le_0_l _) Hminor)) patch).
      apply T1. apply in_seq. lia. }
    apply Bool.eqb_prop in T. now rewrite T.
  - rewrite Hdom by apply Hne.
    specialize (T2 minor2). rewrite forallb_forall in T2.
    assert (Hin : In minor2 (seq 10 20)) by (apply in_seq; lia).
    specialize (T2 Hin patch2 (proj2 (in_seq 100 0 patch2) (conj (Nat.le_0_l _) Hpatch2))).
    apply negb_true_iff in T2. now rewrite T2.
Qed.

Lemma SafeMessage_domain_version_rule_witness :
  let info0 := fun v => {| owners := []; threshold := 1;
                           info_nonce := 0; version := Some v |} in
  chainId (SafeMessage_domain (info0 (version_string 1 4 1)) 1 Sample.safe)
  = (if at_least_1_3_0 1 4 1 then Some 1%Z else None)
  /\ chainId (SafeMessage_domain (info0 (version_string 1 10 0)) 1 Sample.safe)
     = None.
Proof.
  apply (SafeMessage_domain_version_rule 1 4 1 10 0 [] 1 0 1 Sample.safe); lia.
Defined.

(* ================================================================== *)
(** ** Leaving the signing page *)
(* ================================================================== *)

Lemma prefix_spec p s : prefix p s = true <-> exists post, s = (p ++ post)%string.
Proof.
  revert s. induction p as [|c p IH]; intros s; simpl.
  - split; [intros _; now exists s | intros _; now destruct s].
  - destruct s as [|d s]; simpl.
    + split; [discriminate | intros [post H]; discriminate H].
    + destruct (Ascii.ascii_dec c d) as [->|Hne].
      * rewrite IH. split; intros [post H]; exists post; [now rewrite H | now injection H].
      * split; [discriminate | intros [post H]; injection H as H _; congruence].
Qed.

Lemma includes_spec sub s :
  includes sub s = true <-> exists pre post, s = (pre ++ sub ++ post)%string.
Proof.
  induction s as [|c s IH].
  - change (includes sub "") with (prefix sub "" || false).
    rewrite orb_false_r, prefix_spec. split.
    + intros [post H]. now exists "", post.
    + intros [pre [post H]]. destruct pre; [now exists post | discriminate H].
  - change (includes sub (String c s))
      with (prefix sub (String c s) || includes sub s).
    rewrite orb_true_iff, prefix_spec, IH. split.
    + intros [[post H]|[pre [post H]]].
      * now exists "", post.
      * exists (String c pre), post. simpl. now rewrite H.
    + intros [pre [post H]]. destruct pre as [|d pre].
      * left. now exists post.
      * right. simpl in H. injection H as _ H. now exists pre, post.
Qed.

Lemma toLowerCase_app a b :
  toLowerCase (a ++ b) = (toLowerCase a ++ toLowerCase b)%string.
Proof.
  unfold toLowerCase. induction a as [|c a IH]; simpl; [reflexivity | now rewrite IH].
Qed.

Import WalletConnect.

Lemma isUserRejection_spec m :
  isUserRejection m = true
  <-> exists pre word post,
        (word = "reject" \/ word = "denied" \/ word = "cancel")
        /\ toLowerCase m = (pre ++ word ++ post)%string.
Proof.
  unfold isUserRejection. rewrite !orb_true_iff, !includes_spec. split.
  - intros [[[pre [post H]]|[pre [post H]]]|[pre [post H]]];
      eexists pre, _, post; (split; [|exact H]); auto.
  - intros (pre & word & post & [-> | [-> | ->]] & H); eauto.
Qed.

Ltac show_calls :=
  unfold handleSign_catch, call, setIsProcessing; simpl;
  repeat rewrite <- app_assoc; simpl.

(** X13. Failures are told apart by their message.  When the signing calls
    fail, a message that contains "reject", "denied" or "cancel" in any
    letter case makes the page answer the dApp with a rejection (code 4001,
    the request's topic and id), drop the stored and the pending request and
    leave; any other message makes it show the failure and stay, with the
    processing flag cleared and nothing sent or dropped. *)
Theorem signing_failure_by_message
  (r : Request) (params : list json) (method safe errorMessage : string)
  (approveError : option string) (p : Page)
  (Hmethod : method_supported method = true) :
  let p' := handleSign (Some r) (Some params) true method safe
              (SigningThrew errorMessage) approveError p in
  ((exists pre word post,
      (word = "reject" \/ word = "denied" \/ word = "cancel")
      /\ toLowerCase errorMessage = (pre ++ word ++ post)%string)
   -> calls p' = calls p
                 ++ [ RejectRequest (topic r) 4001
                        "User rejected the signing request" (request_id r);
                      RemoveStoredRequest; ClearPendingRequest;
                      Navigate (safePath safe) ])
  /\ ((forall pre word post,
         (word = "reject" \/ word = "denied" \/ word = "cancel") ->
         toLowerCase errorMessage <> (pre ++ word ++ post)%string)
      -> calls p' = calls p
                    ++ [ Alert ("Failed to sign message: " ++ errorMessage)%string ]
         /\ isProcessing p' = false).
Proof.
  intros p'. subst p'. unfold handleSign. rewrite Hmethod.
  unfold handleSign_catch. split.
  - intros H. apply isUserRejection_spec in H. rewrite H. show_calls. reflexivity.
  - intros H. destruct (isUserRejection errorMessage) eqn:E.
    + apply isUserRejection_spec in E as (pre & word & post & Hw & Hm).
      exfalso. exact (H pre word post Hw Hm).
    + show_calls. auto.
Qed.

Lemma signing_failure_by_message_witness :
  let r := {| topic := "t1"; request_id := 7 |} in
  let p := {| isProcessing := false; calls := [] |} in
  let p' := handleSign (Some r) (Some [JStr "hello"]) true "personal_sign"
              Sample.safe (SigningThrew "User REJECTED the request") None p in
  ((exists pre word post,
      (word = "reject" \/ word = "denied" \/ word = "cancel")
      /\ toLowerCase "User REJECTED the request" = (pre ++ word ++ post)%string)
   -> calls p' = calls p
                 ++ [ RejectRequest "t1" 4001
                        "User rejected the signing request" 7;
                      RemoveStoredRequest; ClearPendingRequest;
                      Navigate (safePath Sample.safe) ])
  /\ ((forall pre word post,
         (word = "reject" \/ word = "denied" \/ word = "cancel") ->
         toLowerCase "User REJECTED the request" <> (pre ++ word ++ post)%string)
      -> calls p' = calls p
                    ++ [ Alert "Failed to sign message: User REJECTED the request" ]
         /\ isProcessing p' = false).
Proof.
  exact (signing_failure_by_message
           {| topic := "t1"; request_id := 7 |} [JStr "hello"] "personal_sign"
           Sample.safe "User REJECTED the request" None
           {| isProcessing := false; calls := [] |} eq_refl).
Defined.






(* ================================================================== *)
(** ** The message preview *)
(* ================================================================== *)

Lemma digit_value_char a d :
  digit_value a = Some d ->
  (0 <= d < 16)%Z
  /\ is_js_space a = false /\ is_line_terminator a = false
  /\ (a =? "-")%char = false /\ (a =? "+")%char = false
  /\ (a =? "x")%char = false /\ (a =? "X")%char = false.
Proof.
  destruct a as [[] [] [] [] [] [] [] []]; intros H; cbv in H;
    first [ discriminate H
          | injection H as <-; repeat split; solve [ reflexivity | lia ] ].
Qed.

Lemma parseInt16_pair a b hi lo :
  digit_value a = Some hi -> digit_value b = Some lo ->
  toUint8 (parseInt16 (String a (String b EmptyString)))
  = byte_of_N (Z.to_N (16 * hi + lo)).
Proof.
  intros Ha Hb.
  destruct (digit_value_char _ _ Ha) as (Rh & Sa & _ & Ma & Pa & _ & _).
  destruct (digit_value_char _ _ Hb) as (Rl & _ & _ & _ & _ & Xb & XXb).
  unfold parseInt16. cbn [trim_start]. rewrite Sa.
  cbv beta iota zeta. rewrite Ma, Pa. cbn [orb].
  rewrite Xb, XXb. cbn [orb]. rewrite andb_false_r.
  cbn [hex_run]. rewrite Ha. cbn [hex_run]. rewrite Hb. cbn [option_map toUint8].
  f_equal. f_equal. rewrite Z.mod_small by lia. lia.
Qed.

Lemma chunks_hex_pairs r bs :
  hex_pairs r = Some bs ->
  map (fun chunk => toUint8 (parseInt16 chunk)) (chunks r) = bs.
Proof.
  revert bs.
  assert (H : forall n r, (String.length r <= n)%nat -> forall bs,
             hex_pairs r = Some bs ->
             map (fun chunk => toUint8 (parseInt16 chunk)) (chunks r) = bs).
  { induction n as [|n IH]; intros [|a [|b r']] Hn bs Hp; simpl in Hn;
      try (injection Hp as <-; reflexivity); try discriminate Hp; try lia.
    cbn [hex_pairs] in Hp.
    destruct (digit_value a) as [hi|] eqn:Ha; [|discriminate Hp].
    destruct (digit_value b) as [lo|] eqn:Hb; [|discriminate Hp].
    cbn [option_bind] in Hp.
    destruct (hex_pairs r') as [rest|] eqn:Hr; [|discriminate Hp].
    injection Hp as <-.
    destruct (digit_value_char _ _ Ha) as (_ & _ & La & _).
    destruct (digit_value_char _ _ Hb) as (_ & _ & Lb & _).
    cbn [chunks]. rewrite La, Lb. cbn [map].
    rewrite (parseInt16_pair _ _ _ _ Ha Hb). f_equal.
    apply IH; [lia | exact Hr]. }
  intros bs. apply (H (String.length r)). lia.
Qed.

Section PreviewFacts.

Variable JSON_parse : string -> option json.
Variable TypedDataEncoder_hash_json : json -> json -> json -> option (list byte).

(** X14. A hex message is previewed as its bytes.  For [personal_sign] and
    [eth_sign], when the first parameter is a string that starts with "0x"
    and is a valid hex string (an even number of hex digits after the
    prefix), the page decodes exactly the bytes that the hex string
    denotes, whatever the other parameters are. *)
Theorem preview_decodes_hex_bytes
  (method first : string) (others : list json) (bytes : list byte)
  (Hmethod : method = "personal_sign" \/ method = "eth_sign")
  (Hprefix : prefix "0x" first = true)
  (Hhex : getBytes first = Some bytes) :
  messageToDisplay JSON_parse method (JStr first :: others)
  = PreviewDecoded bytes.
Proof.
  unfold messageToDisplay.
  assert (Em : (method =? "personal_sign")%string || (method =? "eth_sign")%string
               = true).
  { destruct Hmethod as [-> | ->]; reflexivity. }
  rewrite Em.
  assert (Hz : exists r, first = String "0" (String "x" r)).
  { destruct first as [|z [|x r]]; cbn [prefix] in Hprefix;
      try discriminate Hprefix.
    - destruct (Ascii.ascii_dec "0" z); discriminate Hprefix.
    - destruct (Ascii.ascii_dec "0" z) as [<-|]; [|discriminate Hprefix].
      destruct (Ascii.ascii_dec "x" x) as [<-|]; [|discriminate Hprefix].
      now exists r. }
  destruct Hz as [r ->].
  unfold first_truthy. cbn [nth_error truthy truthy_string]. cbv beta iota.
  rewrite Hprefix. f_equal.
  cbn [getBytes] in Hhex.
  change (("x" =? "x")%char || ("x" =? "X")%char) with true in Hhex.
  cbv iota in Hhex. cbn [chunks].
  change (is_line_terminator "0") with false.
  change (is_line_terminator "x") with false. cbv iota. cbn [tl].
  now apply chunks_hex_pairs.
Qed.

(** X15. For [eth_sign] the preview is taken from the first parameter, the
    account, whenever that is a non-empty string: two requests of the same
    account show the same preview whatever messages they carry, while the
    SafeMessage wraps the hash of the second parameter, the message. *)
Theorem eth_sign_preview_is_of_the_account
  (account message1 message2 : string) (rest1 rest2 : list json)
  (Haccount : account <> EmptyString) :
  messageToDisplay JSON_parse "eth_sign" (JStr account :: JStr message1 :: rest1)
  = messageToDisplay JSON_parse "eth_sign" (JStr account :: JStr message2 :: rest2)
  /\ messageToDisplay JSON_parse "eth_sign" (JStr account :: JStr message1 :: rest1)
     = (if prefix "0x" account
        then PreviewDecoded (map (fun chunk => toUint8 (parseInt16 chunk))
                                 (tl (chunks account)))
        else PreviewText account)
  /\ safeMessageMessage_of JSON_parse TypedDataEncoder_hash_json "eth_sign"
       (JStr account :: JStr message1 :: rest1)
     = Some (hexlify (hashMessage message1)).
Proof.
  destruct account as [|c account]; [congruence|].
  unfold messageToDisplay, first_truthy. cbn [nth_error truthy].
  change (truthy_string (String c account)) with true.
  repeat split; reflexivity.
Qed.

End PreviewFacts.

Lemma preview_decodes_hex_bytes_witness :
  messageToDisplay (fun _ => None) "personal_sign"
    [JStr "0x68656c6c6f"; JStr Sample.ownerA]
  = PreviewDecoded [x68; x65; x6c; x6c; x6f].
Proof.
  exact (preview_decodes_hex_bytes (fun _ => None) "personal_sign"
           "0x68656c6c6f" [JStr Sample.ownerA] [x68; x65; x6c; x6c; x6f]
           (or_introl eq_refl) eq_refl eq_refl).
Defined.

Lemma eth_sign_preview_is_of_the_account_witness :
  let P := messageToDisplay (fun _ => None) "eth_sign" in
  P [JStr "alice"; JStr "pay 1"] = P [JStr "alice"; JStr "pay 2"]
  /\ P [JStr "alice"; JStr "pay 1"]
     = (if prefix "0x" "alice"
        then PreviewDecoded (map (fun chunk => toUint8 (parseInt16 chunk))
                                 (tl (chunks "alice")))
        else PreviewText "alice")
  /\ safeMessageMessage_of (fun _ => None) (fun _ _ _ => None) "eth_sign"
       [JStr "alice"; JStr "pay 1"]
     = Some (hexlify (hashMessage "pay 1")).
Proof.
  apply (eth_sign_preview_is_of_the_account (fun _ => None) (fun _ _ _ => None)
           "alice" "pay 1" "pay 2" [] []).
  discriminate.
Defined.

(* ================================================================== *)
(** ** AppAddress and DataPreview *)
(* ================================================================== *)

Lemma string_length_app a b :
  String.length (a ++ b) = (String.length a + String.length b)%nat.
Proof. induction a as [|c a IH]; simpl; [reflexivity | now rewrite IH]. Qed.

Lemma string_app_assoc a b c : (a ++ (b ++ c) = (a ++ b) ++ c)%string.
Proof. induction a as [|x a IH]; simpl; [reflexivity | now rewrite IH]. Qed.

Lemma length_substring s : forall n m,
  String.length (substring n m s) = Nat.min m (String.length s - n).
Proof.
  induction s as [|c s IH]; intros [|n] [|m]; simpl; try reflexivity.
  - rewrite IH. now rewrite Nat.sub_0_r.
  - now rewrite IH.
  - now rewrite IH.
Qed.

Lemma substring_0_ge s : forall m,
  (String.length s <= m)%nat -> substring 0 m s = s.
Proof.
  induction s as [|c s IH]; intros [|m] H; simpl in *; try reflexivity; try lia.
  f_equal. apply IH. lia.
Qed.

Lemma substring_split s : forall a m,
  (substring 0 a s ++ substring a m s)%string = substring 0 (a + m) s.
Proof.
  induction s as [|c s IH]; intros [|a] m; simpl.
  - now destruct m.
  - reflexivity.
  - now destruct m.
  - now rewrite IH.
Qed.

Lemma substring_0_app x y n :
  String.length x = n -> substring 0 n (x ++ y) = x.
Proof.
  revert n. induction x as [|c x IH]; intros n H; simpl in *; subst n.
  - now destruct y.
  - simpl. now rewrite IH.
Qed.

Lemma substring_skip_app w z m :
  substring (String.length w) m (w ++ z) = substring 0 m z.
Proof. induction w as [|c w IH]; simpl; [reflexivity | exact IH]. Qed.

Lemma prefix_substring n s : prefix (substring 0 n s) s = true.
Proof.
  apply prefix_spec. exists (substring n (String.length s - n) s).
  rewrite substring_split. symmetry. apply substring_0_ge. lia.
Qed.

Lemma truncated_length address :
  (12 < String.length address)%nat ->
  String.length (slice 0 6 address) = 6%nat
  /\ String.length (slice_last 4 address) = 4%nat.
Proof.
  unfold slice, slice_last. rewrite !length_substring. lia.
Qed.

(** X16. Without an ENS name, the component with the [truncate] property
    never shows more characters than the address has: it shows the address
    itself, or (only when truncation is on and the address has more than
    12 characters) 13 characters that begin with the first six and end
    with the last four characters of the address. *)
Theorem displayAddress_without_name
  (ensName : option string) (truncate : bool) (address : string)
  (Hname : truthy_name ensName = None) :
  let shown := AppAddress.displayAddress ensName truncate address in
  (String.length shown <= String.length address)%nat
  /\ (shown = address
      \/ (truncate = true /\ (12 < String.length address)%nat
          /\ String.length shown = 13%nat
          /\ slice 0 6 shown = slice 0 6 address
          /\ slice_last 4 shown = slice_last 4 address)).
Proof.
  unfold AppAddress.displayAddress. rewrite Hname.
  destruct (truncate && truthy_string address
            && (12 <? String.length address)%nat) eqn:E; cbv zeta.
  2:{ split; [lia | now left]. }
  apply andb_true_iff in E as [E Hlen]. apply andb_true_iff in E as [-> _].
  apply Nat.ltb_lt in Hlen.
  destruct (truncated_length address Hlen) as [H6 H4].
  assert (L : String.length (slice 0 6 address ++ "..." ++ slice_last 4 address)
              = 13%nat).
  { rewrite !string_length_app, H6, H4. reflexivity. }
  split; [lia|]. right. repeat split; try assumption.
  - unfold slice at 1. now apply substring_0_app.
  - unfold slice_last at 1. rewrite L.
    rewrite string_app_assoc.
    replace (13 - 4)%nat with (String.length (slice 0 6 address ++ "..."))
      by (rewrite string_length_app, H6; reflexivity).
    rewrite substring_skip_app. apply substring_0_ge. lia.
Qed.

Lemma displayAddress_without_name_witness :
  let shown := AppAddress.displayAddress None true Sample.ownerA in
  (String.length shown <= String.length Sample.ownerA)%nat
  /\ (shown = Sample.ownerA
      \/ (true = true /\ (12 < String.length Sample.ownerA)%nat
          /\ String.length shown = 13%nat
          /\ slice 0 6 shown = slice 0 6 Sample.ownerA
          /\ slice_last 4 shown = slice_last 4 Sample.ownerA)).
Proof.
  exact (displayAddress_without_name None true Sample.ownerA eq_refl).
Defined.

(** X17. The two versions of the component, given the same ENS name and
    with truncation on, show the same text exactly when there is a
    (non-empty) ENS name, or the address is empty, or it has more than 12
    characters: on a shorter address the version of [AppAddress.tsx] still
    inserts the dots. *)
Theorem AppAddress_versions_agree_iff (ensName : option string) (address : string) :
  AppAddress.displayAddress ensName true address
  = AppAddressTsx.displayAddress ensName address
  <-> (truthy_name ensName <> None \/ address = EmptyString
       \/ (12 < String.length address)%nat).
Proof.
  unfold AppAddress.displayAddress, AppAddressTsx.displayAddress.
  destruct (truthy_name ensName) as [n|].
  { split; [intros _; left; discriminate | reflexivity]. }
  destruct address as [|c address].
  { split; [auto | reflexivity]. }
  cbn [truthy_string andb].
  destruct (12 <? String.length (String c address))%nat eqn:E.
  - apply Nat.ltb_lt in E. split; [auto | reflexivity].
  - apply Nat.ltb_ge in E. split.
    + intros H. exfalso. apply (f_equal String.length) in H.
      rewrite !string_length_app in H. unfold slice, slice_last in H.
      rewrite !length_substring in H. simpl String.length in *. lia.
    + intros [H|[H|H]]; [congruence | discriminate H | lia].
Qed.

(** X18. What [DataPreview] shows of a non-empty value is always a prefix
    of the value: the whole value when [showAll] is set or the value has
    at most 80 characters, its first 80 characters otherwise; the bold
    part is the first ten characters of it.  A button is there exactly
    when the value has more than 80 characters, and a click on it flips
    [showAll]. *)
Theorem DataPreview_shows_a_prefix (showAll : bool) (value : string)
  (Hvalue : value <> EmptyString) :
  let view := DataPreview showAll value in
  let whole := showAll || (String.length value <=? 80)%nat in
  prefix (view_text view) value = true
  /\ String.length (view_text view)
     = (if whole then String.length value else 80%nat)
  /\ (exists rest h, view = FullValue (slice 0 10 value) rest h
                     \/ view = TruncatedPreview (slice 0 10 value) rest)
  /\ click showAll value
     = (if (80 <? String.length value)%nat then Some (negb showAll) else None).
Proof.
  destruct value as [|c value]; [congruence|].
  unfold click, DataPreview, METHOD_SELECTOR_LEN, PREVIEW_LEN.
  cbn [truthy_string negb]. cbv zeta.
  set (v := String c value).
  destruct (showAll || (String.length v <=? 80)%nat) eqn:E; cbn [view_text].
  - assert (T : (slice 0 10 v ++ slice_from 10 v)%string = v).
    { unfold slice, slice_from. rewrite substring_split.
      apply substring_0_ge. lia. }
    rewrite T. repeat split.
    + rewrite <- (substring_0_ge v (String.length v)) at 1 by lia.
      apply prefix_substring.
    + eexists _, _. left. reflexivity.
    + destruct (80 <? String.length v)%nat eqn:L; [|reflexivity].
      apply Nat.ltb_lt in L.
      destruct showAll; [reflexivity|]. cbn [orb] in E.
      apply Nat.leb_le in E. lia.
  - apply orb_false_iff in E as [-> E]. apply Nat.leb_gt in E.
    assert (T : (slice 0 10 v ++ slice 10 80 v)%string = substring 0 80 v).
    { unfold slice. now rewrite substring_split. }
    rewrite T. repeat split.
    + apply prefix_substring.
    + rewrite length_substring. lia.
    + eexists _, true. right. reflexivity.
    + apply Nat.ltb_lt in E. now rewrite E.
Qed.

Lemma DataPreview_shows_a_prefix_witness :
  let value := "0xa9059cbb000000000000000000000000" in
  let view := DataPreview false value in
  let whole := false || (String.length value <=? 80)%nat in
  prefix (view_text view) value = true
  /\ String.length (view_text view)
     = (if whole then String.length value else 80%nat)
  /\ (exists rest h, view = FullValue (slice 0 10 value) rest h
                     \/ view = TruncatedPreview (slice 0 10 value) rest)
  /\ click false value
     = (if (80 <? String.length value)%nat then Some (negb false) else None).
Proof.
  apply (DataPreview_shows_a_prefix false "0xa9059cbb000000000000000000000000").
  discriminate.
Defined.

(* ================================================================== *)
(** ** ConnectSafeClient *)
(* ================================================================== *)

Lemma label_then_eth_not_hex r :
  label_then_eth r = true -> all_chars is_hex_digit r = false.
Proof.
  induction r as [|c r IH]; [discriminate|].
  change (label_then_eth (String c r))
    with ((String c r =? ".eth")%string || (is_ens_label_char c && label_then_eth r)).
  intros H. apply orb_true_iff in H as [H|H].
  - apply String.eqb_eq in H. rewrite H. reflexivity.
  - apply andb_true_iff in H as [_ H]. cbn [all_chars].
    rewrite (IH H). apply andb_false_r.
Qed.

Lemma ens_name_is_no_address s :
  matches_ens_regex s = true -> matches_address_regex s = false.
Proof.
  intros He. destruct (matches_address_regex s) eqn:Ha; [|reflexivity].
  apply matches_address_regex_inv in Ha as (r & -> & _ & Hhex).
  unfold matches_ens_regex in He. apply andb_true_iff in He as [_ He].
  change (label_then_eth (String "x" r))
    with ((String "x" r =? ".eth")%string
          || (is_ens_label_char "x" && label_then_eth r)) in He.
  apply orb_true_iff in He as [He|He].
  - apply String.eqb_eq in He. discriminate He.
  - apply andb_true_iff in He as [_ He].
    apply label_then_eth_not_hex in He. congruence.
Qed.

Import ConnectSafe.

Ltac form_calls :=
  unfold fail, call, setLoading, setError; simpl;
  repeat rewrite <- app_assoc; simpl.

Ltac reports :=
  form_calls;
  (split; [reflexivity|]);
  eexists; (split; [first [ symmetry; apply app_nil_r | reflexivity ]|]);
  right; eexists; (split; [reflexivity|]);
  unfold adds_nothing; simpl;
  let c := fresh "c" in let H := fresh "H" in
  intros c H;
  repeat match type of H with
         | _ \/ _ => destruct H as [H|H]
         end;
  first [ contradiction | subst c; eauto ].

(** X19. [handleAddSafe] either adds the Safe or reports an error, never
    both, and always ends with [loading] cleared.  It adds only when the
    address (the input, or what the ENS name resolved to) has the address
    format, a network is selected, the address is not registered under
    exactly that spelling on that network, and [connectNewSafe] returned
    the Safe's metadata; then it stores the typed name, or the random one
    when none was typed, leaves the error empty and goes to the accounts
    page.  In every other case it sets an error, adds nothing and stays. *)
Theorem handleAddSafe_adds_or_reports
  (ens : EnsAddress) (addressInput selectedChain safeName randomName : string)
  (addressBook : AddressBook) (outcome : ConnectOutcome) (f : Form) :
  let f' := handleAddSafe ens addressInput selectedChain safeName randomName
                          addressBook outcome f in
  loading f' = false
  /\ exists new,
       calls f' = calls f ++ new
       /\ ((error f' = None
            /\ exists a,
                 safeAddress ens addressInput = Some a
                 /\ matches_address_regex a = true
                 /\ selectedChain <> EmptyString
                 /\ registered addressBook selectedChain a = false
                 /\ isLoading ens = false
                 /\ outcome = Connected
                 /\ new = [ ConnectNewSafe a selectedChain;
                            AddSafe selectedChain a
                              (if truthy_string safeName then safeName
                               else randomName);
                            Navigate "/accounts" ])
           \/ (exists message, error f' = Some message /\ adds_nothing new)).
Proof.
  cbv zeta. unfold handleAddSafe.
  destruct (isLoading ens) eqn:El; [reports|].
  destruct (isEnsName ens
            && negb match truthy_name (ens_address ens) with
                    | Some _ => true | None => false end); [reports|].
  destruct (safeAddress ens addressInput) as [a|] eqn:Ea; [|reports].
  destruct (truthy_string a && matches_address_regex a) eqn:Er; [|reports].
  apply andb_true_iff in Er as [_ Er].
  destruct selectedChain as [|c chain]; [reports|].
  cbn [truthy_string negb].
  destruct (registered addressBook (String c chain) a) eqn:Eb; [reports|].
  destruct outcome as [[m|] | | e |]; try reports.
  form_calls. split; [reflexivity|]. eexists. split; [reflexivity|].
  left. split; [reflexivity|]. exists a. repeat split; auto. discriminate.
Qed.

Ltac no_addition H :=
  form_calls; intros H;
  try (apply in_app_or in H; destruct H as [H|H]; [contradiction|]);
  try contradiction;
  simpl in H;
  repeat match type of H with
         | _ \/ _ => destruct H as [H|H]
         end;
  try discriminate H; try contradiction.

Lemma handleAddSafe_added
  (ens : EnsAddress) (addressInput selectedChain safeName randomName : string)
  (addressBook : AddressBook) (outcome : ConnectOutcome) (f : Form)
  (chain a name : string) :
  ~ In (AddSafe chain a name) (calls f) ->
  In (AddSafe chain a name)
     (calls (handleAddSafe ens addressInput selectedChain safeName randomName
                           addressBook outcome f)) ->
  safeAddress ens addressInput = Some a
  /\ matches_address_regex a = true /\ chain = selectedChain.
Proof.
  intros Hf. unfold handleAddSafe.
  destruct (isLoading ens); [no_addition H|].
  destruct (isEnsName ens
            && negb match truthy_name (ens_address ens) with
                    | Some _ => true | None => false end); [no_addition H|].
  destruct (safeAddress ens addressInput) as [b|]; [|no_addition H].
  destruct (truthy_string b && matches_address_regex b) eqn:Er; [|no_addition H].
  apply andb_true_iff in Er as [_ Er].
  destruct (negb (truthy_string selectedChain)); [no_addition H|].
  destruct (registered addressBook selectedChain b); [no_addition H|].
  destruct outcome as [m | | e |]; no_addition H.
  injection H as <- <- _. auto.
Qed.


(** X20. An ENS name is never stored as an address.  With the hook's
    result for the typed input, a Safe that [handleAddSafe] adds has the
    address format; it is the typed input when that is not an ENS name,
    and otherwise the address the name resolved to, which differs from
    the input. *)
Theorem added_address_is_resolved
  (data : option string) (queryLoading : bool)
  (addressInput selectedChain safeName randomName : string)
  (addressBook : AddressBook) (outcome : ConnectOutcome) (f : Form)
  (chain a name : string)
  (Hfresh : ~ In (AddSafe chain a name) (calls f))
  (Hadded : In (AddSafe chain a name)
              (calls (handleAddSafe (useEnsAddress data queryLoading addressInput)
                        addressInput selectedChain safeName randomName
                        addressBook outcome f))) :
  matches_address_regex a = true
  /\ chain = selectedChain
  /\ (if matches_ens_regex addressInput
      then data = Some a /\ a <> addressInput
      else a = addressInput).
Proof.
  destruct (handleAddSafe_added _ _ _ _ _ _ _ _ _ _ _ Hfresh Hadded)
    as (Hs & Hre & ->).
  split; [exact Hre|]. split; [reflexivity|].
  unfold safeAddress, useEnsAddress in Hs. cbn [isEnsName ens_address] in Hs.
  destruct (matches_ens_regex addressInput) eqn:Ens.
  - assert (T : truthy_string addressInput = true).
    { destruct addressInput; [discriminate Ens | reflexivity]. }
    rewrite T in Hs. cbn [andb] in Hs. split; [exact Hs|].
    intros ->. apply ens_name_is_no_address in Ens. congruence.
  - rewrite andb_false_r in Hs. now injection Hs as <-.
Qed.

Lemma added_address_is_resolved_witness :
  matches_address_regex Sample.safe = true
  /\ "31337" = "31337"
  /\ (if matches_ens_regex "vault.eth"
      then Some Sample.safe = Some Sample.safe /\ Sample.safe <> "vault.eth"
      else Sample.safe = "vault.eth").
Proof.
  apply (added_address_is_resolved (Some Sample.safe) false "vault.eth" "31337"
           "Vault" "Brave Safe" [] Connected
           {| error := None; loading := false; calls := [] |}
           "31337" Sample.safe "Vault").
  - simpl. tauto.
  - vm_compute. tauto.
Defined.

(* ================================================================== *)
(** ** WagmiConfigProvider *)
(* ================================================================== *)

Import Wagmi.

Lemma Map_get_set_other {V : Type} (m : JSMap V) k v k' :
  k' <> k -> Map_get (Map_set m k v) k' = Map_get m k'.
Proof.
  intros Hne. induction m as [|[k0 v0] m IH]; simpl.
  - destruct (String.eqb_spec k k'); [congruence | reflexivity].
  - destruct (String.eqb_spec k0 k) as [->|].
    + simpl. destruct (String.eqb_spec k k'); [congruence | reflexivity].
    + simpl. destruct (String.eqb_spec k0 k'); [reflexivity | exact IH].
Qed.

Lemma Map_get_set_eq {V : Type} (m : JSMap V) k v :
  Map_get (Map_set m k v) k = Some v.
Proof.
  induction m as [|[k0 v0] m IH]; simpl.
  - now rewrite String.eqb_refl.
  - destruct (String.eqb_spec k0 k) as [->|Hne]; simpl.
    + now rewrite String.eqb_refl.
    + destruct (String.eqb_spec k0 k); [contradiction | exact IH].
Qed.

(** X21. An RPC override touches nothing but the chain's default RPC
    entry: id, name, icon and every other entry of [rpcUrls] stay, and so
    does the default entry when the environment gives no (or an empty)
    URL; otherwise the default entry becomes that single HTTP URL, without
    a web-socket URL. *)
Theorem rpc_override_touches_only_default
  (chain : Chain) (envRpcUrl : option string) (key : string)
  (Hkey : key <> "default") :
  let chain' := withOptionalRpcOverride chain envRpcUrl in
  id chain' = id chain /\ name chain' = name chain
  /\ iconUrl chain' = iconUrl chain
  /\ Map_get (rpcUrls chain') key = Map_get (rpcUrls chain) key
  /\ Map_get (rpcUrls chain') "default"
     = match truthy_name envRpcUrl with
       | Some url => Some {| http := [url]; webSocket := None |}
       | None => Map_get (rpcUrls chain) "default"
       end.
Proof.
  unfold withOptionalRpcOverride.
  destruct (truthy_name envRpcUrl) as [url|]; cbn [id name iconUrl rpcUrls].
  - repeat split. + now apply Map_get_set_other. + apply Map_get_set_eq.
  - repeat split.
Qed.

Lemma rpc_override_touches_only_default_witness :
  let chain' := withOptionalRpcOverride anvilTwo (Some "http://localhost:9000") in
  id chain' = id anvilTwo /\ name chain' = name anvilTwo
  /\ iconUrl chain' = iconUrl anvilTwo
  /\ Map_get (rpcUrls chain') "public" = Map_get (rpcUrls anvilTwo) "public"
  /\ Map_get (rpcUrls chain') "default"
     = match truthy_name (Some "http://localhost:9000") with
       | Some url => Some {| http := [url]; webSocket := None |}
       | None => Map_get (rpcUrls anvilTwo) "default"
       end.
Proof.
  apply (rpc_override_touches_only_default anvilTwo
           (Some "http://localhost:9000") "public").
  discriminate.
Defined.

Lemma fold_transports (pick : Z -> Transport) chains : forall acc k,
  fold_left (fun acc chain => set_transport acc (id chain) (pick (id chain)))
            chains acc k
  = if existsb (fun chain => (id chain =? k)%Z) chains
    then Some (pick k) else acc k.
Proof.
  induction chains as [|c chains IH]; intros acc k; simpl; [reflexivity|].
  rewrite IH. unfold set_transport.
  destruct (existsb (fun chain => (id chain =? k)%Z) chains).
  - now rewrite orb_true_r.
  - rewrite orb_false_r. rewrite (Z.eqb_sym (id c) k).
    destruct (Z.eqb_spec k (id c)) as [->|]; reflexivity.
Qed.

(** X22. The transports cover exactly the configured chains.  Outside E2E
    mode a chain id has a transport if and only if a configured chain has
    that id, and it is the wallet's provider with the public RPC as
    fallback.  In E2E mode the same holds for every id but 31338, the
    second Anvil chain, which always gets the direct HTTP transport to
    port 8546, whether it is configured or not. *)
Theorem transports_cover_the_chains
  (hardhatIcon : string) (configChains : list Chain) (key : Z) :
  transports configChains key
  = (if existsb (fun chain => (id chain =? key)%Z) configChains
     then Some WalletThenPublic else None)
  /\ e2eTransports hardhatIcon configChains key
     = (if (key =? 31338)%Z then Some (DirectHttp "http://127.0.0.1:8546")
        else transports configChains key).
Proof.
  assert (T : transports configChains key
              = if existsb (fun chain => (id chain =? key)%Z) configChains
                then Some WalletThenPublic else None).
  { unfold transports.
    exact (fold_transports (fun _ => WalletThenPublic) configChains
             (fun _ => None) key). }
  split; [exact T|]. rewrite T.
  unfold e2eTransports, e2eChains.
  set (pick := fun i : Z => if (i =? id anvilTwo)%Z
                            then DirectHttp "http://127.0.0.1:8546"
                            else WalletThenPublic).
  assert (E : forall l acc,
             fold_left
               (fun acc chain =>
                  if (id chain =? id anvilTwo)%Z
                  then set_transport acc (id chain)
                         (DirectHttp "http://127.0.0.1:8546")
                  else set_transport acc (id chain) WalletThenPublic) l acc
             = fold_left
                 (fun acc chain => set_transport acc (id chain) (pick (id chain)))
                 l acc).
  { induction l as [|c l IH]; intros acc; simpl; [reflexivity|].
    rewrite IH. f_equal. unfold pick. change (id anvilTwo) with 31338%Z.
    destruct (id c =? 31338)%Z; reflexivity. }
  rewrite E, fold_transports, existsb_app. unfold pick.
  change (id anvilTwo) with 31338%Z. cbn [existsb addChainIcon id].
  rewrite orb_false_r. change (id anvilTwo) with 31338%Z.
  rewrite (Z.eqb_sym 31338 key).
  destruct (key =? 31338)%Z.
  - now rewrite orb_true_r.
  - rewrite orb_false_r. reflexivity.
Qed.
